(** * blender-sprite-render: the batch renderer of [blender_batch_render.py]

    A shallow embedding of the framing and batch-orchestration code of
    [src/blender_batch_render.py].

    Conventions of the embedding.
    - A finite Python [float] is modelled by its value, a rational [Q].  The
      product of the canvas computation is rounded as IEEE 754 binary64
      rounds it ([round64]: to nearest, ties to even, overflow to infinity).
      The bounds of the meshes are computed with exact arithmetic, and the
      camera is described by the arguments that place it: the center of the
      bounds, the pitch and the yaw.  [math.ceil (math.log2 n)] on a positive
      integer is the exact [Z.log2_up n], which is what the double logarithm
      gives as long as [n] stays below [2^47].
    - A [pathlib.Path] is the list of its components; [str] joins them with
      a slash.
    - Python exceptions are the [Raise] results of the [Result] monad.
    - The Blender engine, PIL and the file system are the external
      collaborators of the script: their answers are the fields of [Env],
      the state they own is [World]. *)

From Stdlib Require Import ZArith QArith Qabs Qround List String Ascii Bool Lia.
From Stdlib Require Import Permutation Sorted OrderedTypeEx.
From Stdlib Require Lqa.
Import ListNotations.

Local Open Scope string_scope.
Local Open Scope Z_scope.

(* ====================================================================== *)
(** * Exceptions *)
(* ====================================================================== *)

Inductive PyExn : Type :=
| ValueError (msg : string)
| OverflowError (msg : string).

Inductive Result (A : Type) : Type :=
| Ok (a : A)
| Raise (e : PyExn).

Arguments Ok {A} a.
Arguments Raise {A} e.

Definition bind {A B : Type} (r : Result A) (k : A -> Result B) : Result B :=
  match r with
  | Ok a => k a
  | Raise e => Raise e
  end.

Notation "x <- r ;; k" := (bind r (fun x => k))
  (at level 61, r at next level, right associativity).
Notation "' p <- r ;; k" := (bind r (fun x => let p := x in k))
  (at level 61, p pattern, r at next level, right associativity).

Definition returns {A : Type} (r : Result A) : Prop := exists a, r = Ok a.
Definition raises {A : Type} (r : Result A) : Prop := exists e, r = Raise e.

(* ====================================================================== *)
(** * Strings and paths *)
(* ====================================================================== *)

(** [c.lower()] on an ASCII character. *)
Definition lower_ascii (c : ascii) : ascii :=
  let n := nat_of_ascii c in
  if (65 <=? n)%nat && (n <=? 90)%nat then ascii_of_nat (n + 32) else c.

(** [s.lower()] *)
Fixpoint lower (s : string) : string :=
  match s with
  | EmptyString => EmptyString
  | String c s' => String (lower_ascii c) (lower s')
  end.

(** [s.startswith(p)] *)
Fixpoint startswith (p s : string) : bool :=
  match p, s with
  | EmptyString, _ => true
  | String a p', String b s' => Ascii.eqb a b && startswith p' s'
  | String _ _, EmptyString => false
  end.

(** [s.endswith(p)] *)
Fixpoint endswith (p s : string) : bool :=
  match s with
  | EmptyString => String.eqb p EmptyString
  | String _ s' => String.eqb p s || endswith p s'
  end.

(** [s.replace(old, new)] for a non-empty [old]: every occurrence, scanned
    from the left and not overlapping.  [skip] counts the characters of an
    occurrence already replaced that are still to be dropped. *)
Fixpoint replace_from (old new s : string) (skip : nat) : string :=
  match s with
  | EmptyString => EmptyString
  | String c s' =>
      match skip with
      | S k => replace_from old new s' k
      | O =>
          if startswith old s
          then new ++ replace_from old new s' (String.length old - 1)
          else String c (replace_from old new s' 0)
      end
  end.

Definition replace (old new s : string) : string := replace_from old new s 0.

(** [s.rfind(c)], [None] for -1 *)
Fixpoint rfind (c : ascii) (s : string) : option nat :=
  match s with
  | EmptyString => None
  | String a s' =>
      match rfind c s' with
      | Some i => Some (S i)
      | None => if Ascii.eqb a c then Some O else None
      end
  end.

(** Whether [s] consists of slashes only *)
Fixpoint all_slashes (s : string) : bool :=
  match s with
  | EmptyString => true
  | String a s' => Ascii.eqb a "/" && all_slashes s'
  end.

(** [s.rstrip('/')] *)
Fixpoint rstrip_slashes (s : string) : string :=
  match s with
  | EmptyString => EmptyString
  | String a s' => if all_slashes s then EmptyString else String a (rstrip_slashes s')
  end.

(** [os.path.dirname(p)]: what precedes the last slash, without trailing
    slashes unless it is made of slashes only *)
Definition dirname (p : string) : string :=
  match rfind "/" p with
  | None => EmptyString
  | Some i =>
      let head := substring 0 (S i) p in
      if all_slashes head then head else rstrip_slashes head
  end.

(** A relative path, by its components *)
Definition Path : Type := list string.

(** [str(p)] *)
Definition path_str (p : Path) : string :=
  match p with
  | [] => "."
  | _ :: _ => String.concat "/" p
  end.

(** [p.name] *)
Definition path_name (p : Path) : string := last p "".

(** [p.parent] components *)
Definition path_parent (p : Path) : Path := removelast p.

(** [PurePath.suffix]: the last dot of the name and what follows, when the dot
    is neither the first nor the last character. *)
Definition name_suffix (name : string) : string :=
  match rfind "." name with
  | Some i =>
      if (0 <? i)%nat && (i <? String.length name - 1)%nat
      then substring i (String.length name - i) name
      else ""
  | None => ""
  end.

Definition path_suffix (p : Path) : string := name_suffix (path_name p).

(** [p.with_suffix(suffix)] for a well-formed [suffix] *)
Definition with_suffix (p : Path) (suffix : string) : Result Path :=
  let name := path_name p in
  if String.eqb name "" then Raise (ValueError "empty name")
  else
    let old_suffix := name_suffix name in
    let stem := substring 0 (String.length name - String.length old_suffix) name in
    Ok (List.app (path_parent p) [stem ++ suffix]).

(** [p.relative_to(root)] *)
Fixpoint relative_to (p root : Path) : Result Path :=
  match root with
  | [] => Ok p
  | r :: root' =>
      match p with
      | c :: p' => if String.eqb r c then relative_to p' root'
                   else Raise (ValueError "not in the subpath")
      | [] => Raise (ValueError "not in the subpath")
      end
  end.

(* ====================================================================== *)
(** * Configuration *)
(* ====================================================================== *)

(** The value of a finite Python [float]; a setting that a configuration
    file gives as an integer is the float of that value *)
Definition float : Type := Q.

(** The result of a floating-point operation on finite operands: a finite
    value or, on overflow, an infinity *)
Inductive fp : Type :=
| Finite (x : float)
| Infinite.

(** The integer nearest to [n / d], the even one of two at equal distance *)
Definition round_half_even (n : Z) (d : positive) : Z :=
  let q := n / Z.pos d in
  match (2 * (n mod Z.pos d) ?= Z.pos d) with
  | Lt => q
  | Gt => q + 1
  | Eq => if Z.even q then q else q + 1
  end.

(** The [k] with [2^k <= a < 2^(k+1)], for a positive [a] *)
Definition floor_log2 (a : Q) : Z :=
  let k := Z.log2 (Qnum a) - Z.log2 (Z.pos (Qden a)) in
  if Qle_bool (2 ^ k)%Q a then k else k - 1.

(** IEEE 754 rounding to nearest, ties to even, of an exact value to the
    binary format with [prec] bits of precision, least exponent [emin] of
    the unit in the last place and overflow threshold [2^emax] *)
Definition round_binary (prec emin emax : Z) (x : Q) : fp :=
  let x := Qred x in
  match Qnum x with
  | 0 => Finite 0%Q
  | _ =>
      let a := Qabs x in
      let e := Z.max (floor_log2 a - (prec - 1)) emin in
      let s := Qred (a * 2 ^ (- e))%Q in
      let m := round_half_even (Qnum s) (Qden s) in
      let v := Qred (inject_Z m * 2 ^ e)%Q in
      if Qle_bool (2 ^ emax)%Q v then Infinite
      else Finite (if Qnum x <? 0 then (- v)%Q else v)
  end.

(** The rounding of a Python [float] (binary64) *)
Definition round64 : Q -> fp := round_binary 53 (-1074) 1024.

(** [a * b] on two floats *)
Definition fmul (a b : float) : fp := round64 (a * b)%Q.

(** [class RenderConfig] *)
Record RenderConfig : Type := mkConfig {
  input_dir : Path;
  output_dir : Path;
  resolution : Z;
  camera_angle : float;
  camera_yaw : float;
  samples : Z;
  ortho_scale : float;
  pixels_per_unit : float;
  min_canvas_size : Z;
  max_canvas_size : Z;
  rotations : Z;
  light_strength : float;
  light_angle_x : float;
  light_angle_z : float;
  formats : list string;
  skip_existing : bool;
  auto_crop : bool;
  scale_factor : float;
  verbose : bool;
  log_file : option string
}.

(** [config.camera_yaw = y] *)
Definition set_camera_yaw (y : float) (c : RenderConfig) : RenderConfig :=
  mkConfig (input_dir c) (output_dir c) (resolution c) (camera_angle c) y
           (samples c) (ortho_scale c) (pixels_per_unit c) (min_canvas_size c)
           (max_canvas_size c) (rotations c) (light_strength c)
           (light_angle_x c) (light_angle_z c) (formats c) (skip_existing c)
           (auto_crop c) (scale_factor c) (verbose c) (log_file c).

(** [RenderConfig.__init__] with the given directories *)
Definition default_config (inp out : Path) (pil_available : bool) : RenderConfig :=
  mkConfig inp out 512 55%Q 0%Q 64 4%Q 256%Q 256 1024 1 3%Q 45%Q 315%Q
           [".gltf"; ".glb"; ".obj"; ".fbx"] false pil_available 1%Q false None.

(* ====================================================================== *)
(** * Canvas size (lines 332-336 of [calculate_canvas_and_position]) *)
(* ====================================================================== *)

(** Truncation towards zero *)
Definition trunc (x : float) : Z := Z.quot (Qnum x) (Z.pos (Qden x)).

(** [int(x)] on a float: truncation towards zero, an OverflowError on an
    infinity *)
Definition int_of_float (x : fp) : Result Z :=
  match x with
  | Finite q => Ok (trunc q)
  | Infinite => Raise (OverflowError "cannot convert float infinity to integer")
  end.

(** [math.ceil(math.log2(n))] on an integer: a domain error unless [n] is
    positive.  The logarithm of the code is a double; its ceiling is the
    exact [Z.log2_up n] written here as long as [n] stays below [2^47],
    beyond which the rounding of the logarithm can reach the integer
    below. *)
Definition ceil_log2 (n : Z) : Result Z :=
  if n <=? 0 then Raise (ValueError "math domain error") else Ok (Z.log2_up n).

Definition required_pixels (config : RenderConfig) : Result Z :=
  int_of_float (fmul (ortho_scale config) (pixels_per_unit config)).

Definition canvas_size_of (config : RenderConfig) : Result Z :=
  required_pixels <- required_pixels config ;;
  e <- ceil_log2 required_pixels ;;
  let canvas_size := 2 ^ e in
  Ok (Z.max (min_canvas_size config) (Z.min canvas_size (max_canvas_size config))).

(* ====================================================================== *)
(** * Asset discovery ([find_models]) *)
(* ====================================================================== *)

(** The two flavours of [pathlib]: glob patterns and path comparison are
    case-sensitive on POSIX hosts and fold case on Windows. *)
Inductive Flavour : Type := PosixFlavour | WindowsFlavour.

Definition casefold (fl : Flavour) (s : string) : string :=
  match fl with
  | PosixFlavour => s
  | WindowsFlavour => lower s
  end.

(** An entry found below a directory: its path relative to that directory
    and whether it is itself a directory. *)
Record DirEntry : Type := mkEntry {
  entry_path : Path;
  entry_is_dir : bool
}.

(** Whether a character is a wildcard of a glob pattern or a separator of
    path components *)
Definition glob_special (c : ascii) : bool :=
  Ascii.eqb c "*" || Ascii.eqb c "?" || Ascii.eqb c "[" || Ascii.eqb c "]"
  || Ascii.eqb c "/" || Ascii.eqb c "092".

(** An accepted extension that [f"*{fmt}"] turns into a pattern of one
    component with the leading star as its only wildcard *)
Fixpoint plain_format (fmt : string) : bool :=
  match fmt with
  | EmptyString => true
  | String c fmt' => negb (glob_special c) && plain_format fmt'
  end.

(** Whether a name matches the glob pattern [f"*{fmt}"], for a [fmt] that is
    a [plain_format]: the name ends with it.  Formats with wildcards or
    separators of their own are outside this model. *)
Definition glob_match (fl : Flavour) (fmt name : string) : bool :=
  endswith (casefold fl fmt) (casefold fl name).

Definition rglob_selects (fl : Flavour) (fmt : string) (e : DirEntry) : bool :=
  match entry_path e with
  | [] => false
  | _ :: _ => glob_match fl fmt (path_name (entry_path e))
  end.

(** [root.rglob(f"*{fmt}")] over the entries [tree] below [root], in the
    order of the directory scan *)
Definition rglob (fl : Flavour) (tree : list DirEntry) (root : Path) (fmt : string)
  : list Path :=
  map (fun e => List.app root (entry_path e)) (filter (rglob_selects fl fmt) tree).

(** Comparison of paths: component by component *)
Fixpoint parts_leb (a b : list string) : bool :=
  match a, b with
  | [], _ => true
  | _ :: _, [] => false
  | x :: a', y :: b' =>
      match String.compare x y with
      | Lt => true
      | Gt => false
      | Eq => parts_leb a' b'
      end
  end.

Definition path_leb (fl : Flavour) (p q : Path) : bool :=
  parts_leb (map (casefold fl) p) (map (casefold fl) q).

Fixpoint insert_path (fl : Flavour) (p : Path) (l : list Path) : list Path :=
  match l with
  | [] => [p]
  | q :: l' => if path_leb fl p q then p :: q :: l' else q :: insert_path fl p l'
  end.

(** [sorted(models)]: a stable sort *)
Definition sorted (fl : Flavour) (l : list Path) : list Path :=
  fold_right (insert_path fl) [] l.

Definition find_models (fl : Flavour) (tree : list DirEntry)
           (input_dir : Path) (formats : list string) : list Path :=
  let models := flat_map (fun fmt => rglob fl tree input_dir fmt) formats in
  sorted fl models.

(* ====================================================================== *)
(** * The scene *)
(* ====================================================================== *)

Definition Vec3 : Type := (Q * Q * Q)%type.
Definition Row : Type := (Q * Q * Q * Q)%type.

(** The three rows of a local-to-world matrix that act on a point *)
Record Matrix : Type := mkMatrix { row_x : Row; row_y : Row; row_z : Row }.

Definition row_apply (r : Row) (v : Vec3) : Q :=
  let '(a, b, c, d) := r in
  let '(x, y, z) := v in
  (a * x + b * y + c * z + d)%Q.

(** [m @ Vector(corner)], as the exact product; the single-precision
    rounding of the library is left out *)
Definition mat_apply (m : Matrix) (v : Vec3) : Vec3 :=
  (row_apply (row_x m) v, row_apply (row_y m) v, row_apply (row_z m) v).

Inductive ObjType : Type := MESH | EMPTY | ARMATURE | CURVE.

(** An imported object.  [bound_box] is never empty (Blender gives eight
    corners): its first corner and the others. *)
Record Object : Type := mkObject {
  obj_type : ObjType;
  matrix_world : Matrix;
  bound_box : Vec3 * list Vec3
}.

Definition corners (o : Object) : list Vec3 := fst (bound_box o) :: snd (bound_box o).

(** The pose of the script's camera, by the arguments that placed it:
    [EulerPose] after [setup_camera] (rotation only), [LookAtPose] after
    [calculate_canvas_and_position] (at the fixed distance from [center],
    looking at it). *)
Inductive CameraPose : Type :=
| EulerPose (pitch yaw : float)
| LookAtPose (center : Vec3) (pitch yaw : float).

(** The objects of the scene other than the script's own camera and light,
    which are neither MESH nor EMPTY. *)
Record Scene : Type := mkScene {
  objects : list Object;
  camera : CameraPose;
  sun : float * float * float;
  render_resolution : Z
}.

Definition is_mesh (o : Object) : bool :=
  match obj_type o with MESH => true | _ => false end.

Definition is_mesh_or_empty (o : Object) : bool :=
  match obj_type o with MESH | EMPTY => true | _ => false end.

(** The running minima and maxima; [None] is the initial infinity. *)
Record BoundsAcc : Type := mkAcc {
  min_x : option Q; max_x : option Q;
  min_y : option Q; max_y : option Q;
  min_z : option Q; max_z : option Q
}.

Definition Qltb (x y : Q) : bool := negb (Qle_bool y x).

(** [min(a, x)] and [max(a, x)] with [a] the accumulator *)
Definition py_min (a : option Q) (x : Q) : option Q :=
  match a with
  | None => Some x
  | Some q => if Qltb x q then Some x else Some q
  end.

Definition py_max (a : option Q) (x : Q) : option Q :=
  match a with
  | None => Some x
  | Some q => if Qltb q x then Some x else Some q
  end.

Definition acc_corner (acc : BoundsAcc) (world_coord : Vec3) : BoundsAcc :=
  let '(x, y, z) := world_coord in
  mkAcc (py_min (min_x acc) x) (py_max (max_x acc) x)
        (py_min (min_y acc) y) (py_max (max_y acc) y)
        (py_min (min_z acc) z) (py_max (max_z acc) z).

Definition scan_object (st : Z * BoundsAcc) (obj : Object) : Z * BoundsAcc :=
  if is_mesh obj
  then (fst st + 1,
        fold_left acc_corner (map (mat_apply (matrix_world obj)) (corners obj)) (snd st))
  else st.

Definition scan_scene (objs : list Object) : Z * BoundsAcc :=
  fold_left scan_object objs (0, mkAcc None None None None None None).

(** The value of an accumulator once a corner went through it *)
Definition fin (a : option Q) : Q :=
  match a with Some q => q | None => 0%Q end.

(* ====================================================================== *)
(** * Metadata dictionaries *)
(* ====================================================================== *)

#[local] Unset Elimination Schemes.
Inductive json : Type :=
| JInt (z : Z)
| JFloat (x : float)
| JStr (s : string)
| JObj (o : list (string * json)).
#[local] Set Elimination Schemes.

(** A Python [dict] with string keys, in insertion order *)
Definition dict : Type := list (string * json).

(** [d[k] = v] *)
Fixpoint dict_set (k : string) (v : json) (d : dict) : dict :=
  match d with
  | [] => [(k, v)]
  | (k', v') :: d' =>
      if String.eqb k' k then (k, v) :: d' else (k', v') :: dict_set k v d'
  end.

Fixpoint dict_get (k : string) (d : dict) : option json :=
  match d with
  | [] => None
  | (k', v') :: d' => if String.eqb k' k then Some v' else dict_get k d'
  end.

(** [d.update(other)] *)
Definition dict_update (d other : dict) : dict :=
  fold_left (fun acc kv => dict_set (fst kv) (snd kv) acc) other d.

(* ====================================================================== *)
(** * Framing ([calculate_canvas_and_position]) *)
(* ====================================================================== *)

Definition set_camera (p : CameraPose) (sc : Scene) : Scene :=
  mkScene (objects sc) p (sun sc) (render_resolution sc).

Definition set_resolution (r : Z) (sc : Scene) : Scene :=
  mkScene (objects sc) (camera sc) (sun sc) r.

(** A Python integer handed to an [int] property of Blender: a ValueError
    unless it fits a C int *)
Definition int_property (v : Z) : Result Z :=
  if (v <? - 2 ^ 31) || (2 ^ 31 - 1 <? v)
  then Raise (ValueError "value not in 'int' range")
  else Ok v.

(** [scene.render.resolution_x = v] and [resolution_y = v]: the value that
    fits is clamped to the range of the property, 4 to 65536 *)
Definition assign_resolution (v : Z) (sc : Scene) : Result Scene :=
  v <- int_property v ;;
  Ok (set_resolution (Z.max 4 (Z.min v 65536)) sc).

Definition set_objects (os : list Object) (sc : Scene) : Scene :=
  mkScene os (camera sc) (sun sc) (render_resolution sc).

Definition calculate_canvas_and_position (sc : Scene) (config : RenderConfig)
  : Result (Scene * (Z * dict)) :=
  let '(mesh_count, acc) := scan_scene (objects sc) in
  if mesh_count =? 0 then Ok (sc, (min_canvas_size config, []))
  else
    let center_x := ((fin (min_x acc) + fin (max_x acc)) / 2)%Q in
    let center_y := ((fin (min_y acc) + fin (max_y acc)) / 2)%Q in
    let center_z := ((fin (min_z acc) + fin (max_z acc)) / 2)%Q in
    let width := (fin (max_x acc) - fin (min_x acc))%Q in
    let height := (fin (max_y acc) - fin (min_y acc))%Q in
    let depth := (fin (max_z acc) - fin (min_z acc))%Q in
    let sc := set_camera (LookAtPose (center_x, center_y, center_z)
                                     (camera_angle config) (camera_yaw config)) sc in
    canvas_size <- canvas_size_of config ;;
    sc <- assign_resolution canvas_size sc ;;
    let metadata :=
      [ ("canvas_width", JInt canvas_size);
        ("canvas_height", JInt canvas_size);
        ("ortho_scale", JFloat (ortho_scale config));
        ("pixels_per_unit", JFloat (pixels_per_unit config));
        ("object_bounds",
         JObj [ ("width", JFloat width);
                ("height", JFloat height);
                ("depth", JFloat depth);
                ("center", JObj [ ("x", JFloat center_x);
                                  ("y", JFloat center_y);
                                  ("z", JFloat center_z) ]) ]) ] in
    Ok (sc, (canvas_size, metadata)).

(* ====================================================================== *)
(** * External collaborators *)
(* ====================================================================== *)

Inductive Importer : Type := GLTF | OBJ | FBX.

(** What [bpy.ops.render.render(write_still=True)] does with the output
    path: writes the image, returns without writing, or raises. *)
Inductive RenderOutcome : Type := Written | NotWritten | RenderError.

(** What PIL sees in a rendered image: its size and the bounding box of its
    non-transparent pixels. *)
Record Image : Type := mkImage {
  img_size : Z * Z;
  img_bbox : option (Z * Z * Z * Z)
}.

Record Env : Type := mkEnv {
  flavour : Flavour;
  (** the entries below the input directory *)
  input_tree : list DirEntry;
  (** [bpy.ops.import_scene.*] followed by the scaling of the root objects:
      the objects added to the scene, or [None] when it raises *)
  engine_import : Importer -> string -> float -> option (list Object);
  engine_render : Scene -> string -> RenderOutcome;
  PIL_AVAILABLE : bool;
  (** [Image.open]; [None] when it raises *)
  image_open : string -> option Image;
  (** whether the sidecar at this path can be written *)
  json_writable : string -> bool;
  (** whether the host lets [os.makedirs(dir, exist_ok=True)] return for
      this directory: it does not when a file is in the way or the
      permissions forbid it *)
  host_makedirs : string -> bool
}.

Inductive FileContent : Type :=
| PngFile (cropped : bool)
| JsonFile (d : dict).

(** One pass through a render: the configuration handed to the framing, the
    camera and canvas handed to the engine, the output path, the metadata
    built before the render, and what [render_sprite] answered. *)
Record RenderCall : Type := mkCall {
  rc_config : RenderConfig;
  rc_camera : CameraPose;
  rc_canvas : Z;
  rc_path : string;
  rc_metadata : dict;
  rc_ok : bool
}.

Record World : Type := mkWorld {
  files : list (string * FileContent);
  scene : Scene;
  renders : list RenderCall
}.

Definition set_scene (sc : Scene) (w : World) : World :=
  mkWorld (files w) sc (renders w).

Definition set_files (fs : list (string * FileContent)) (w : World) : World :=
  mkWorld fs (scene w) (renders w).

Definition log_render (c : RenderCall) (w : World) : World :=
  mkWorld (files w) (scene w) (List.app (renders w) [c]).

(** [os.path.exists(p)] *)
Definition file_exists (w : World) (p : string) : bool :=
  existsb (fun kv => String.eqb (fst kv) p) (files w).

Fixpoint write_entry (p : string) (c : FileContent) (fs : list (string * FileContent))
  : list (string * FileContent) :=
  match fs with
  | [] => [(p, c)]
  | (p', c') :: fs' =>
      if String.eqb p' p then (p, c) :: fs' else (p', c') :: write_entry p c fs'
  end.

Definition write_file (p : string) (c : FileContent) (w : World) : World :=
  set_files (write_entry p c (files w)) w.

(** [import_model] *)
Definition import_model (env : Env) (w : World) (filepath : Path) (scale_factor : float)
  : World * bool :=
  let ext := lower (path_suffix filepath) in
  let run (imp : Importer) : World * bool :=
    match engine_import env imp (path_str filepath) scale_factor with
    | Some objs => (set_scene (set_objects (List.app (objects (scene w)) objs) (scene w)) w, true)
    | None => (w, false)
    end in
  if String.eqb ext ".gltf" || String.eqb ext ".glb" then run GLTF
  else if String.eqb ext ".obj" then run OBJ
  else if String.eqb ext ".fbx" then run FBX
  else (w, false).

(** [os.makedirs(dir, exist_ok=True)]: whether it returns.  The empty
    directory name of a path without slash always raises. *)
Definition makedirs (env : Env) (dir : string) : bool :=
  negb (String.eqb dir "") && host_makedirs env dir.

(** [render_sprite] *)
Definition render_sprite (env : Env) (w : World) (output_path : string) : World * bool :=
  if negb (makedirs env (dirname output_path)) then (w, false)
  else
    match engine_render env (scene w) output_path with
    | RenderError => (w, false)
    | NotWritten => (w, file_exists w output_path)
    | Written => (write_file output_path (PngFile false) w, true)
    end.

(** [export_metadata] *)
Definition export_metadata (env : Env) (w : World) (output_path : string) (metadata : dict)
  : World * bool :=
  let metadata_path := replace ".png" ".json" output_path in
  if makedirs env (dirname metadata_path) && json_writable env metadata_path
  then (write_file metadata_path (JsonFile metadata) w, true)
  else (w, false).

(** [auto_crop_sprite] *)
Definition auto_crop_sprite (env : Env) (w : World) (image_path : string) : World * dict :=
  if negb (PIL_AVAILABLE env) then (w, [])
  else
    match image_open env image_path with
    | None => (w, [])
    | Some img =>
        let original_size := img_size img in
        match img_bbox img with
        | Some (b0, b1, b2, b3) =>
            let offset := [("x", JInt b0); ("y", JInt b1)] in
            let size := [("w", JInt (b2 - b0)); ("h", JInt (b3 - b1))] in
            (write_file image_path (PngFile true) w,
             [ ("original_size",
                JObj [("w", JInt (fst original_size)); ("h", JInt (snd original_size))]);
               ("crop_offset", JObj offset);
               ("cropped_size", JObj size) ])
        | None => (w, [])
        end
    end.

(* ====================================================================== *)
(** * Batch processing ([process_batch]) *)
(* ====================================================================== *)

Record Stats : Type := mkStats {
  processed : Z;
  skipped : Z;
  failed : Z;
  failed_files : list string
}.

(** The mutable state of a run: the shared configuration object, the world
    of the collaborators, and the counters. *)
Record State : Type := mkState {
  st_config : RenderConfig;
  st_world : World;
  st_stats : Stats
}.

Definition count_processed (s : Stats) : Stats :=
  mkStats (processed s + 1) (skipped s) (failed s) (failed_files s).

Definition count_skipped (s : Stats) : Stats :=
  mkStats (processed s) (skipped s + 1) (failed s) (failed_files s).

Definition count_failed (name : string) (s : Stats) : Stats :=
  mkStats (processed s) (skipped s) (failed s + 1) (List.app (failed_files s) [name]).

(** A [for] loop whose body may raise *)
Fixpoint foldM {A B : Type} (f : A -> B -> Result A) (l : list B) (a : A) : Result A :=
  match l with
  | [] => Ok a
  | b :: l' => a' <- f a b ;; foldM f l' a'
  end.

(** The literal of the four-direction branch *)
Definition rotations_table : list (Z * string * string) :=
  [ (0, "_s", "South");
    (90, "_e", "East");
    (180, "_n", "North");
    (270, "_w", "West") ].

(** The body of [for angle, suffix, direction in rotations]; the boolean is
    [render_success]. *)
Definition render_rotation (env : Env) (rel_path output_file : Path)
           (acc : State * bool) (rot : Z * string * string) : Result (State * bool) :=
  let '(st, render_success) := acc in
  let '(angle, suffix, direction) := rot in
  let config := set_camera_yaw (inject_Z angle) (st_config st) in
  '(sc, (canvas_size, metadata)) <-
     calculate_canvas_and_position (scene (st_world st)) config ;;
  let w := set_scene sc (st_world st) in
  let metadata := dict_set "rotation_degrees" (JInt angle) metadata in
  let metadata := dict_set "direction" (JStr direction) metadata in
  let rotated_output := replace ".png" (suffix ++ ".png") (path_str output_file) in
  let '(w, ok) := render_sprite env w rotated_output in
  let w := log_render (mkCall config (camera sc) canvas_size rotated_output metadata ok) w in
  if negb ok
  then
    Ok (mkState config w
                (count_failed (path_str rel_path ++ " (" ++ direction ++ ")") (st_stats st)),
        false)
  else
    let '(w, metadata) :=
      if auto_crop config
      then let '(w, crop_meta) := auto_crop_sprite env w rotated_output in
           (w, dict_update metadata crop_meta)
      else (w, metadata) in
    let '(w, _) := export_metadata env w rotated_output metadata in
    Ok (mkState config w (st_stats st), render_success).

(** The [else] branch: a single render *)
Definition render_single (env : Env) (rel_path output_file : Path) (st : State)
  : Result State :=
  let config := st_config st in
  '(sc, (canvas_size, metadata)) <-
     calculate_canvas_and_position (scene (st_world st)) config ;;
  let w := set_scene sc (st_world st) in
  let metadata := dict_set "rotation_degrees" (JInt 0) metadata in
  let metadata := dict_set "direction" (JStr "South") metadata in
  let '(w, ok) := render_sprite env w (path_str output_file) in
  let w := log_render (mkCall config (camera sc) canvas_size (path_str output_file)
                              metadata ok) w in
  if ok
  then
    let '(w, metadata) :=
      if auto_crop config
      then let '(w, crop_meta) := auto_crop_sprite env w (path_str output_file) in
           (w, dict_update metadata crop_meta)
      else (w, metadata) in
    let '(w, _) := export_metadata env w (path_str output_file) metadata in
    Ok (mkState config w (count_processed (st_stats st)))
  else
    Ok (mkState config w (count_failed (path_str rel_path) (st_stats st))).

(** The [if config.rotations == 4] branch *)
Definition render_rotations (env : Env) (rel_path output_file : Path) (st : State)
  : Result State :=
  let original_yaw := camera_yaw (st_config st) in
  '(st, render_success) <-
     foldM (render_rotation env rel_path output_file) rotations_table (st, true) ;;
  let config := set_camera_yaw original_yaw (st_config st) in
  if render_success
  then Ok (mkState config (st_world st) (count_processed (st_stats st)))
  else Ok (mkState config (st_world st) (st_stats st)).

(** The target of a model: mirrored under the output directory, with the
    extension replaced *)
Definition output_file_of (config : RenderConfig) (model_path : Path) : Result (Path * Path) :=
  rel_path <- relative_to model_path (input_dir config) ;;
  png <- with_suffix rel_path ".png" ;;
  Ok (rel_path, List.app (output_dir config) png).

(** The body of [for idx, model_path in enumerate(models, 1)] *)
Definition process_model (env : Env) (st : State) (model_path : Path) : Result State :=
  '(rel_path, output_file) <- output_file_of (st_config st) model_path ;;
  if skip_existing (st_config st) && file_exists (st_world st) (path_str output_file)
  then Ok (mkState (st_config st) (st_world st) (count_skipped (st_stats st)))
  else
    let sc := scene (st_world st) in
    let w := set_scene (set_objects (filter (fun o => negb (is_mesh_or_empty o)) (objects sc)) sc)
                       (st_world st) in
    let '(w, imported) := import_model env w model_path (scale_factor (st_config st)) in
    if negb imported
    then Ok (mkState (st_config st) w (count_failed (path_str rel_path) (st_stats st)))
    else
      if rotations (st_config st) =? 4
      then render_rotations env rel_path output_file (mkState (st_config st) w (st_stats st))
      else render_single env rel_path output_file (mkState (st_config st) w (st_stats st)).

(** [clear_scene], [setup_camera], [setup_lighting], [setup_render_settings]:
    the sample count and the resolution go to [int] properties of Blender *)
Definition setup_scene (config : RenderConfig) : Result Scene :=
  _ <- int_property (samples config) ;;
  assign_resolution (resolution config)
    (mkScene [] (EulerPose (camera_angle config) (camera_yaw config))
             (light_angle_x config, light_angle_z config, light_strength config)
             0).

(** [process_batch]: [None] when no model is found and nothing is done,
    otherwise the counters that the summary logs. *)
Definition process_batch (env : Env) (config : RenderConfig) (w : World)
  : Result (RenderConfig * World * option Stats) :=
  let models := find_models (flavour env) (input_tree env) (input_dir config) (formats config) in
  match models with
  | [] => Ok (config, w, None)
  | _ :: _ =>
      sc <- setup_scene config ;;
      let w := set_scene sc w in
      st <- foldM (process_model env) models (mkState config w (mkStats 0 0 0 [])) ;;
      Ok (st_config st, st_world st, Some (st_stats st))
  end.

(* ====================================================================== *)
(** * Vocabulary of the properties *)
(* ====================================================================== *)

Definition is_power_of_two (n : Z) : Prop := exists k, 0 <= k /\ n = 2 ^ k.

(** [clamp(x, lo, hi)] *)
Definition clamp (x lo hi : Z) : Z := Z.max lo (Z.min x hi).

(** The canvas size in the words of the specification:
    [required = ceil(extent * density)], [size = 2^ceil(log2(required))],
    [size = clamp(size, min, max)]. *)
Definition spec_canvas_size (extent density : float) (min_canvas max_canvas : Z) : Z :=
  let required := Qceiling (extent * density) in
  clamp (2 ^ Z.log2_up required) min_canvas max_canvas.

(** The number of mesh objects of a scene *)
Definition mesh_count (sc : Scene) : Z := fst (scan_scene (objects sc)).

(** The framing of a scene with a mesh goes through: the canvas size is
    defined and fits the resolution property of Blender *)
Definition framing_defined (config : RenderConfig) : Prop :=
  exists size, canvas_size_of config = Ok size /\ - 2 ^ 31 <= size <= 2 ^ 31 - 1.


(** The render to the path [p] goes through: its directory can be made and
    the engine writes the image *)
Definition renders_to (env : Env) (p : string) : Prop :=
  makedirs env (dirname p) = true /\ forall sc, engine_render env sc p = Written.

(** The sidecar of the image at [p] can be written: its directory can be
    made and the file can be opened for writing *)
Definition sidecar_writable (env : Env) (p : string) : Prop :=
  makedirs env (dirname (replace ".png" ".json" p)) = true /\
  json_writable env (replace ".png" ".json" p) = true.

(** The resolution that Blender keeps for an assigned value that fits *)
Definition kept_resolution (v : Z) : Z := Z.max 4 (Z.min v 65536).

(** The center of the bounds of a scene with a mesh *)
Definition bounds_center (sc : Scene) : Vec3 :=
  let acc := snd (scan_scene (objects sc)) in
  (((fin (min_x acc) + fin (max_x acc)) / 2)%Q,
   ((fin (min_y acc) + fin (max_y acc)) / 2)%Q,
   ((fin (min_z acc) + fin (max_z acc)) / 2)%Q).

(** What a render call tells about its direction: the output path, the pose
    of the camera, and the rotation recorded in the metadata. *)
Definition call_view (c : RenderCall) : string * CameraPose * option json * option json :=
  (rc_path c, rc_camera c,
   dict_get "rotation_degrees" (rc_metadata c), dict_get "direction" (rc_metadata c)).

(** The yaw of a placed camera *)
Definition pose_yaw (p : CameraPose) : float :=
  match p with
  | EulerPose _ yaw => yaw
  | LookAtPose _ _ yaw => yaw
  end.

(** The output paths of an asset: one per direction, or the single one *)
Definition expected_outputs (config : RenderConfig) (output_file : Path) : list string :=
  if rotations config =? 4
  then map (fun rot : Z * string * string =>
              replace ".png" (snd (fst rot) ++ ".png") (path_str output_file))
           rotations_table
  else [path_str output_file].

(** The render calls of [w'] that [w] did not have yet *)
Definition new_renders (w w' : World) : list RenderCall :=
  skipn (List.length (renders w)) (renders w').

(** Order of paths, as a relation *)
Definition path_le (fl : Flavour) (p q : Path) : Prop := path_leb fl p q = true.

(* ====================================================================== *)
(** * Concrete inputs *)
(* ====================================================================== *)

(** The default configuration with the four parameters of the canvas *)
Definition canvas_config (extent density : float) (min_canvas max_canvas : Z)
  : RenderConfig :=
  mkConfig ["models"] ["sprites"] 512 55%Q 0%Q 64 extent density min_canvas max_canvas
           1 3%Q 45%Q 315%Q [".gltf"; ".glb"; ".obj"; ".fbx"] false true 1%Q false None.

(** The floats nearest to 25.7 and to 5.13 *)
Definition float_25_7 : float := (7233906901463859 # 281474976710656)%Q.
Definition float_5_13 : float := (5775866522102661 # 1125899906842624)%Q.

(** A scene right after the setup of the batch: no object *)
Definition empty_scene : Scene :=
  mkScene [] (EulerPose 55%Q 0%Q) (45%Q, 315%Q, 3%Q) 512.

Definition identity_matrix : Matrix :=
  mkMatrix (1, 0, 0, 0)%Q (0, 1, 0, 0)%Q (0, 0, 1, 0)%Q.

(** A cube of side 2 around the origin *)
Definition cube : Object :=
  mkObject MESH identity_matrix
           ((-1, -1, -1)%Q,
            [ (-1, -1, 1)%Q; (-1, 1, 1)%Q; (-1, 1, -1)%Q;
              (1, -1, -1)%Q; (1, -1, 1)%Q; (1, 1, 1)%Q; (1, 1, -1)%Q ]).

Definition cube_scene : Scene := set_objects [cube] empty_scene.

(** Below the input root: a model file with an upper-case extension and a
    directory whose name ends like a model *)
Definition upper_case_tree : list DirEntry :=
  [ mkEntry ["A.GLB"] false; mkEntry ["pack.glb"] true ].

(** Files written so far are still there *)
Definition files_grow (w w' : World) : Prop :=
  forall p, file_exists w p = true -> file_exists w' p = true.

(** What the render call [c] of the direction [rot] must be, for an asset
    framed in the scene [sc] under the configuration [config]: the yaw of
    the direction is written to the configuration, the path carries the
    suffix, the metadata record the angle and the label, and the camera is
    placed at that yaw when the scene has a mesh and left alone otherwise. *)
Definition rotation_call (config : RenderConfig) (sc : Scene) (output_file : Path)
           (rot : Z * string * string) (c : RenderCall) : Prop :=
  let '(angle, suffix, direction) := rot in
  rc_config c = set_camera_yaw (inject_Z angle) config /\
  rc_path c = replace ".png" (suffix ++ ".png") (path_str output_file) /\
  dict_get "rotation_degrees" (rc_metadata c) = Some (JInt angle) /\
  dict_get "direction" (rc_metadata c) = Some (JStr direction) /\
  (mesh_count sc <> 0 ->
   rc_camera c = LookAtPose (bounds_center sc) (camera_angle config) (inject_Z angle)) /\
  (mesh_count sc = 0 -> rc_camera c = camera sc).

(** The render call of the single-render branch *)
Definition single_call (config : RenderConfig) (sc : Scene) (output_file : Path)
           (c : RenderCall) : Prop :=
  rc_config c = config /\
  rc_path c = path_str output_file /\
  dict_get "rotation_degrees" (rc_metadata c) = Some (JInt 0) /\
  dict_get "direction" (rc_metadata c) = Some (JStr "South") /\
  (mesh_count sc <> 0 ->
   rc_camera c = LookAtPose (bounds_center sc) (camera_angle config) (camera_yaw config)) /\
  (mesh_count sc = 0 -> rc_camera c = camera sc).

(** The calls of a list whose render failed *)
Definition failed_calls (calls : list RenderCall) : list RenderCall :=
  filter (fun c => negb (rc_ok c)) calls.

(** The world before a first run: no output file, no render yet *)
Definition world0 : World := mkWorld [] empty_scene [].

(** A configuration as a run gets it: the defaults, with the rotation count,
    the skip-existing flag and the yaw as given, and [.stl] accepted next
    to the default formats. *)
Definition batch_config (rotation_count : Z) (skip : bool) (yaw : float) : RenderConfig :=
  mkConfig ["models"] ["sprites"] 512 55%Q yaw 64 4%Q 256%Q 256 1024
           rotation_count 3%Q 45%Q 315%Q
           [".gltf"; ".glb"; ".obj"; ".fbx"; ".stl"] skip true 1%Q false None.

(** Collaborators that always succeed: every import yields the cube, every
    render is written, except the renders to a path in [broken]. *)
Definition studio (tree : list DirEntry) (broken : list string) : Env :=
  mkEnv PosixFlavour tree
        (fun _ _ _ => Some [cube])
        (fun _ p => if existsb (String.eqb p) broken then RenderError else Written)
        true
        (fun _ => Some (mkImage (1024, 1024) (Some (256, 128, 768, 896))))
        (fun _ => true)
        (fun _ => true).

Definition one_model : list DirEntry := [ mkEntry ["barrel.glb"] false ].

(** Three models; the importer does not know the extension of the second *)
Definition three_models : list DirEntry :=
  [ mkEntry ["props"; "tree.fbx"] false;
    mkEntry ["crate.stl"] false;
    mkEntry ["barrel.glb"] false ].

(** The state in which [process_batch] enters its loop from [world0], once
    the setup has accepted the sample count and the resolution *)
Definition fresh_state (config : RenderConfig) : State :=
  mkState config
          (set_scene
             (mkScene [] (EulerPose (camera_angle config) (camera_yaw config))
                      (light_angle_x config, light_angle_z config, light_strength config)
                      (Z.max 4 (Z.min (resolution config) 65536)))
             world0)
          (mkStats 0 0 0 []).

(** Two runs in a row over the same input tree: the second one starts from
    the configuration object and the world that the first one left.  The
    answer is the world and the counters after each run. *)
Definition run_twice (env : Env) (config : RenderConfig) (w : World)
  : Result (World * option Stats * World * option Stats) :=
  '(c1, w1, s1) <- process_batch env config w ;;
  '(c2, w2, s2) <- process_batch env c1 w1 ;;
  Ok (w1, s1, w2, s2).

(** The world-space corners that the bounds scan goes through: those of
    the MESH objects, in the order of the scan *)
Definition mesh_corners (objs : list Object) : list Vec3 :=
  flat_map (fun o => map (mat_apply (matrix_world o)) (corners o)) (filter is_mesh objs).

Definition vx (v : Vec3) : Q := fst (fst v).
Definition vy (v : Vec3) : Q := snd (fst v).
Definition vz (v : Vec3) : Q := snd v.

(** What a framing call answers and leaves behind for the render: the pose
    of the camera, the resolution of the scene, the canvas size and the
    metadata. *)
Definition framing_answer (r : Result (Scene * (Z * dict)))
  : Result (CameraPose * Z * (Z * dict)) :=
  match r with
  | Ok (sc, a) => Ok (camera sc, render_resolution sc, a)
  | Raise e => Raise e
  end.

(** A scene with a tilted plane, an empty and an armature around it *)
Definition cluttered_scene : Scene :=
  set_objects
    [ mkObject EMPTY identity_matrix ((100, 100, 100)%Q, []);
      mkObject MESH (mkMatrix (2, 0, 0, 1)%Q (0, 1, 0, 0)%Q (0, 1, 1, -3)%Q)
               ((-1, -1, 0)%Q, [ (1, -1, 0)%Q; (1, 1, 0)%Q; (-1, 1, 0)%Q ]);
      mkObject ARMATURE identity_matrix ((-50, 0, 7)%Q, [ (50, 0, 7)%Q ]) ]
    empty_scene.

(** What is stored at a path, if anything *)
Fixpoint read_entry (p : string) (fs : list (string * FileContent)) : option FileContent :=
  match fs with
  | [] => None
  | (p', c) :: fs' => if String.eqb p' p then Some c else read_entry p fs'
  end.

Definition file_content (w : World) (p : string) : option FileContent :=
  read_entry p (files w).

(** Collaborators as [studio], with an image library that finds the given
    bounding box in every image and a disk that refuses the sidecars listed
    in [readonly]. *)
Definition darkroom (bbox : option (Z * Z * Z * Z)) (readonly : list string) : Env :=
  mkEnv PosixFlavour one_model
        (fun _ _ _ => Some [cube])
        (fun _ _ => Written)
        true
        (fun _ => Some (mkImage (1024, 1024) bbox))
        (fun p => negb (existsb (String.eqb p) readonly))
        (fun _ => true).

(** The number of assets and renders that the counters account for *)
Definition accounted (s : Stats) : Z := processed s + skipped s + failed s.

(** The failed list has one entry per failure counted, and no counter is
    negative. *)
Definition tidy (s : Stats) : Prop :=
  Z.of_nat (List.length (failed_files s)) = failed s /\
  0 <= processed s /\ 0 <= skipped s.

(** [p.stem]: the name without its suffix *)
Definition path_stem (p : Path) : string :=
  substring 0 (String.length (path_name p) - String.length (path_suffix p)) (path_name p).

(** The importer that [import_model] picks for a lower-cased extension *)
Definition importer_of (ext : string) : option Importer :=
  if String.eqb ext ".gltf" || String.eqb ext ".glb" then Some GLTF
  else if String.eqb ext ".obj" then Some OBJ
  else if String.eqb ext ".fbx" then Some FBX
  else None.

(** An extension as the default formats have them: a dot, then at least one
    character, none of which is a dot *)
Definition plain_extension (fmt : string) : Prop :=
  exists c e, fmt = String "." (String c e) /\ rfind "." (String c e) = None.

(** Whether [old] occurs somewhere in [s] *)
Fixpoint occurs (old s : string) : bool :=
  startswith old s ||
  match s with
  | EmptyString => false
  | String _ s' => occurs old s'
  end.


(** Whether a text can follow a string without completing a [.png] that
    began in it: it is empty or begins with none of [p], [n], [g] *)
Definition safe_head (t : string) : bool :=
  match t with
  | EmptyString => true
  | String d _ => negb (Ascii.eqb d "p" || Ascii.eqb d "n" || Ascii.eqb d "g")
  end.

(** The target of a model without its [.png] *)
Definition target_base (config : RenderConfig) (rel_path : Path) : string :=
  path_str (List.app (output_dir config)
                     (List.app (path_parent rel_path) [path_stem rel_path])).


(* ====================================================================== *)
(** * The size inspector ([inspect_model_sizes.py]) *)
(* ====================================================================== *)

Module Inspector.

(** The dict that [inspect_model] returns, by its five keys *)
Record Sizes : Type := mkSizes {
  file : string;
  width : float;
  height : float;
  depth : float;
  max : float
}.

(** [max(a, b, c)]: the first of the largest *)
Definition py_max3 (a b c : float) : float :=
  let m := if Qltb a b then b else a in
  if Qltb m c then c else m.

(** [clear_scene]: every object of the scene is selected and deleted *)
Definition clear_scene (w : World) : World :=
  set_scene (set_objects [] (scene w)) w.

Record Summary : Type := mkSummary {
  rows : list (string * float);
  avg_size : float;
  one_tile : float;
  two_tiles : float
}.

(** What [main] prints: the usage line, the error line, or the banner
    followed by the summary when there is a result *)
Inductive Printed : Type :=
| UsageLine
| NoPathsLine
| Banner (summary : option Summary).

Inductive Outcome : Type :=
| Returned (p : Printed)
| ZeroDivisionError.

(** [argv[argv.index('--') + 1:]], or [None] when ['--'] is not in [argv] *)
Fixpoint after_dashes (argv : list string) : option (list string) :=
  match argv with
  | [] => None
  | a :: rest => if String.eqb a "--" then Some rest else after_dashes rest
  end.

(** [sum(xs)] *)
Definition sum (xs : list float) : float := fold_left Qplus xs 0%Q.

Section Pathlib.

(** [Path(filepath)]: the parts that pathlib reads in a command-line string *)
Variable Path_of : string -> Path.

(** [inspect_model]; the importers run without scaling, as those of
    [import_model] do for the scale factor 1.0 *)
Definition inspect_model (env : Env) (w : World) (filepath : string)
  : World * option Sizes :=
  let w := clear_scene w in
  let ext := lower (path_suffix (Path_of filepath)) in
  let measure (imp : Importer) : World * option Sizes :=
    match engine_import env imp filepath 1%Q with
    | None => (w, None)
    | Some objs =>
        let w := set_scene (set_objects (List.app (objects (scene w)) objs) (scene w)) w in
        let '(mesh_count, acc) := scan_scene (objects (scene w)) in
        if mesh_count =? 0 then (w, None)
        else
          let width := (fin (max_x acc) - fin (min_x acc))%Q in
          let height := (fin (max_y acc) - fin (min_y acc))%Q in
          let depth := (fin (max_z acc) - fin (min_z acc))%Q in
          (w, Some (mkSizes (path_name (Path_of filepath)) width height depth
                            (py_max3 width height depth)))
    end in
  if String.eqb ext ".gltf" || String.eqb ext ".glb" then measure GLTF
  else if String.eqb ext ".obj" then measure OBJ
  else if String.eqb ext ".fbx" then measure FBX
  else (w, None).

(** The body of [for model_path in argv] *)
Definition inspect_next (env : Env) (st : World * list Sizes) (model_path : string)
  : World * list Sizes :=
  let '(w, result) := inspect_model env (fst st) model_path in
  match result with
  | Some r => (w, List.app (snd st) [r])
  | None => (w, snd st)
  end.

(** [main], with [argv] for [sys.argv] *)
Definition main (env : Env) (w : World) (argv : list string) : World * Outcome :=
  match after_dashes argv with
  | None => (w, Returned UsageLine)
  | Some [] => (w, Returned NoPathsLine)
  | Some argv =>
      let '(w, results) := fold_left (inspect_next env) argv (w, []) in
      match results with
      | [] => (w, Returned (Banner None))
      | _ :: _ =>
          let avg_size :=
            (sum (map max results) / inject_Z (Z.of_nat (List.length results)))%Q in
          if Qeq_bool avg_size 0
          then (w, ZeroDivisionError)
          else (w, Returned (Banner (Some
                 (mkSummary (map (fun r => (file r, max r)) results) avg_size
                            (1 / avg_size)%Q (2 / avg_size)%Q))))
      end
  end.

End Pathlib.

End Inspector.

(** A command-line string without separator is one part. *)
Definition bare_name (filepath : string) : Path := [filepath].

(** A mesh whose eight corners are one point *)
Definition speck : Object :=
  mkObject MESH identity_matrix
           ((0, 0, 0)%Q,
            [ (0, 0, 0)%Q; (0, 0, 0)%Q; (0, 0, 0)%Q;
              (0, 0, 0)%Q; (0, 0, 0)%Q; (0, 0, 0)%Q; (0, 0, 0)%Q ]).

(** Collaborators as [studio], whose importers yield the given objects *)
Definition workshop (objs : list Object) : Env :=
  mkEnv PosixFlavour one_model
        (fun _ _ _ => Some objs)
        (fun _ _ => Written)
        true
        (fun _ => Some (mkImage (1024, 1024) None))
        (fun _ => true)
        (fun _ => true).

(** The sizes of every model that the inspector could measure *)
Definition measured (Path_of : string -> Path) (env : Env) (w : World) (paths : list string)
  : list Inspector.Sizes :=
  snd (fold_left (Inspector.inspect_next Path_of env) paths (w, [])).

(** All the mesh corners of the model are one point. *)
Definition flat (r : Inspector.Sizes) : Prop :=
  (Inspector.width r == 0)%Q /\ (Inspector.height r == 0)%Q /\ (Inspector.depth r == 0)%Q.


(** A configuration as [batch_config], writing to the current directory *)
Definition here_config : RenderConfig :=
  mkConfig ["models"] [] 512 55%Q 0%Q 64 4%Q 256%Q 256 1024
           1 3%Q 45%Q 315%Q
           [".gltf"; ".glb"; ".obj"; ".fbx"; ".stl"] false true 1%Q false None.

(** The float nearest to one third *)
Definition one_third : float := (6004799503160661 # 18014398509481984)%Q.

(* ====================================================================== *)
(** * Properties *)
(* ====================================================================== *)

Section Paths.

Lemma parts_leb_total (a b : list string) : parts_leb a b = true \/ parts_leb b a = true.
Proof.
  revert b. induction a as [|x a IH]; intros [|y b]; simpl; auto.
  rewrite (String.compare_antisym y x).
  destruct (String.compare x y); simpl; auto.
Qed.

Lemma path_leb_total (fl : Flavour) (p q : Path) : path_le fl p q \/ path_le fl q p.
Proof. apply parts_leb_total. Qed.

Lemma compare_lt_trans (x y z : string) :
  String.compare x y = Lt -> String.compare y z = Lt -> String.compare x z = Lt.
Proof.
  intros A B. apply String_as_OT.cmp_lt.
  apply String_as_OT.lt_trans with y; apply String_as_OT.cmp_lt; assumption.
Qed.

Lemma compare_refl (x : string) : String.compare x x = Eq.
Proof. apply String_as_OT.cmp_eq. reflexivity. Qed.

Lemma parts_leb_trans (a b c : list string) :
  parts_leb a b = true -> parts_leb b c = true -> parts_leb a c = true.
Proof.
  revert b c. induction a as [|x a IH]; intros [|y b] [|z c]; simpl; try congruence.
  destruct (String.compare x y) eqn:Exy; try discriminate;
    destruct (String.compare y z) eqn:Eyz; try discriminate; intros A B.
  - apply String.compare_eq_iff in Exy, Eyz. subst. rewrite compare_refl. eauto.
  - apply String.compare_eq_iff in Exy. subst. rewrite Eyz. reflexivity.
  - apply String.compare_eq_iff in Eyz. subst. rewrite Exy. reflexivity.
  - rewrite (compare_lt_trans x y z) by assumption. reflexivity.
Qed.

Lemma path_le_trans (fl : Flavour) (p q r : Path) :
  path_le fl p q -> path_le fl q r -> path_le fl p r.
Proof. apply parts_leb_trans. Qed.

Lemma insert_path_perm (fl : Flavour) (p : Path) (l : list Path) :
  Permutation (insert_path fl p l) (p :: l).
Proof.
  induction l as [|q l IH]; simpl; [reflexivity|].
  destruct (path_leb fl p q); [reflexivity|].
  rewrite IH. apply perm_swap.
Qed.

Lemma sorted_perm (fl : Flavour) (l : list Path) : Permutation (sorted fl l) l.
Proof.
  induction l as [|p l IH]; simpl; [reflexivity|].
  rewrite insert_path_perm. constructor. exact IH.
Qed.

Lemma insert_path_sorted (fl : Flavour) (p : Path) (l : list Path) :
  StronglySorted (path_le fl) l -> StronglySorted (path_le fl) (insert_path fl p l).
Proof.
  induction 1 as [|q l Hs IH Hq]; simpl.
  - repeat constructor.
  - destruct (path_leb fl p q) eqn:E.
    + constructor; [constructor; assumption|]. constructor; [exact E|].
      eapply Forall_impl; [|exact Hq]. intros r Hr. apply path_le_trans with q; assumption.
    + constructor; [exact IH|].
      eapply Permutation_Forall; [symmetry; apply insert_path_perm|].
      constructor; [|exact Hq].
      destruct (path_leb_total fl p q) as [C|C]; [unfold path_le in C; congruence|exact C].
Qed.

Lemma sorted_is_sorted (fl : Flavour) (l : list Path) : StronglySorted (path_le fl) (sorted fl l).
Proof.
  induction l as [|p l IH]; simpl; [constructor|]. apply insert_path_sorted; exact IH.
Qed.

Lemma rglob_In (fl : Flavour) (tree : list DirEntry) (root : Path) (fmt : string) (p : Path) :
  In p (rglob fl tree root fmt) <->
  exists e, In e tree /\ entry_path e <> [] /\
            glob_match fl fmt (path_name (entry_path e)) = true /\
            p = List.app root (entry_path e).
Proof.
  unfold rglob. rewrite in_map_iff. split.
  - intros [e [E I]]. apply filter_In in I. destruct I as [I S]. exists e.
    unfold rglob_selects in S. destruct (entry_path e) eqn:P; [discriminate|].
    repeat split; auto. discriminate.
  - intros [e [I [N [G E]]]]. exists e. split; [auto|]. apply filter_In. split; [exact I|].
    unfold rglob_selects. destruct (entry_path e); [contradiction|exact G].
Qed.

End Paths.

(* ---------------------------------------------------------------------- *)
(** ** Canvas size *)
(* ---------------------------------------------------------------------- *)

Section Canvas.

Lemma trunc_compat (x y : float) : (x == y)%Q -> trunc x = trunc y.
Proof.
  unfold Qeq, trunc. destruct x as [a b], y as [c d]; simpl. intros E.
  rewrite <- (Z.quot_mul_cancel_r a (Z.pos b) (Z.pos d)) by lia.
  rewrite <- (Z.quot_mul_cancel_r c (Z.pos d) (Z.pos b)) by lia.
  rewrite E. f_equal. lia.
Qed.

Lemma trunc_inject (n : Z) : trunc (inject_Z n) = n.
Proof. unfold trunc; simpl. apply Z.quot_1_r. Qed.

Lemma trunc_below_one (x : float) : (x < 1)%Q -> trunc x <= 0.
Proof.
  unfold Qlt, trunc. destruct x as [a b]; simpl. intros H.
  destruct (Z_lt_le_dec a 0) as [Hn|Hp].
  - replace a with (- - a) by lia. rewrite Z.quot_opp_l by lia.
    pose proof (Z.quot_pos (- a) (Z.pos b)). lia.
  - rewrite Z.quot_small; lia.
Qed.

Lemma trunc_fraction (x : float) : (- (1) < x)%Q -> (x < 1)%Q -> trunc x = 0.
Proof.
  unfold Qlt, trunc. destruct x as [a b]; simpl. intros L H.
  destruct (Z_lt_le_dec a 0) as [Hn|Hp].
  - replace a with (- - a) by lia. rewrite Z.quot_opp_l by lia.
    rewrite Z.quot_small; lia.
  - rewrite Z.quot_small; lia.
Qed.

Lemma trunc_at_least_one (x : float) : 1 <= trunc x -> (1 <= x)%Q.
Proof.
  intros H. destruct (Qlt_le_dec x 1) as [L|L]; [|exact L].
  apply trunc_below_one in L. lia.
Qed.

(** The rounding looks at the value only, not at the fraction that
    represents it. *)
Lemma round_binary_compat (prec emin emax : Z) (x y : Q) :
  (x == y)%Q -> round_binary prec emin emax x = round_binary prec emin emax y.
Proof. intros E. unfold round_binary. rewrite (Qred_complete x y E). reflexivity. Qed.

Lemma fmul_compat (a b a' b' : float) :
  (a == a')%Q -> (b == b')%Q -> fmul a b = fmul a' b'.
Proof. intros Ea Eb. apply round_binary_compat. rewrite Ea, Eb. reflexivity. Qed.

(** What [int(ortho_scale * pixels_per_unit)] answers, by the rounded
    product *)
Lemma required_pixels_cases (config : RenderConfig) :
  (exists p, fmul (ortho_scale config) (pixels_per_unit config) = Finite p /\
             required_pixels config = Ok (trunc p)) \/
  (fmul (ortho_scale config) (pixels_per_unit config) = Infinite /\
   required_pixels config =
     Raise (OverflowError "cannot convert float infinity to integer")).
Proof.
  unfold required_pixels.
  destruct (fmul (ortho_scale config) (pixels_per_unit config)) as [p|]; simpl; eauto.
Qed.

Lemma ceil_log2_pos (n : Z) : 1 <= n -> ceil_log2 n = Ok (Z.log2_up n).
Proof. unfold ceil_log2. destruct (Z.leb_spec n 0); intros; [lia|reflexivity]. Qed.

Lemma ceil_log2_nonpos (n : Z) : n <= 0 -> ceil_log2 n = Raise (ValueError "math domain error").
Proof. unfold ceil_log2. destruct (Z.leb_spec n 0); intros; [reflexivity|lia]. Qed.

(** [2 ^ Z.log2_up n] is the least power of two that is at least [n]. *)
Lemma next_power_of_two (n : Z) :
  1 <= n ->
  n <= 2 ^ Z.log2_up n /\ forall k, 0 <= k -> n <= 2 ^ k -> 2 ^ Z.log2_up n <= 2 ^ k.
Proof.
  intros Hn. split.
  - apply Z.log2_up_le_pow2; lia.
  - intros k Hk Hle. apply Z.pow_le_mono_r; [lia|].
    apply Z.log2_up_le_pow2; lia.
Qed.

Lemma canvas_size_of_pos (config : RenderConfig) (n : Z) :
  required_pixels config = Ok n -> 1 <= n ->
  canvas_size_of config =
  Ok (clamp (2 ^ Z.log2_up n) (min_canvas_size config) (max_canvas_size config)).
Proof.
  intros E H. unfold canvas_size_of. rewrite E. simpl.
  rewrite ceil_log2_pos by assumption. reflexivity.
Qed.

Lemma canvas_size_of_nonpos (config : RenderConfig) (n : Z) :
  required_pixels config = Ok n -> n <= 0 ->
  canvas_size_of config = Raise (ValueError "math domain error").
Proof.
  intros E H. unfold canvas_size_of. rewrite E. simpl.
  rewrite ceil_log2_nonpos by assumption. reflexivity.
Qed.

Lemma canvas_size_of_overflow (config : RenderConfig) (e : PyExn) :
  required_pixels config = Raise e -> canvas_size_of config = Raise e.
Proof. intros E. unfold canvas_size_of. rewrite E. reflexivity. Qed.

Lemma canvas_size_of_returns (config : RenderConfig) :
  returns (canvas_size_of config) <-> exists n, required_pixels config = Ok n /\ 1 <= n.
Proof.
  split.
  - intros [a Ha]. destruct (required_pixels config) as [n|e] eqn:E.
    + exists n. split; [reflexivity|].
      destruct (Z_lt_le_dec n 1) as [Hlt|]; [|assumption].
      rewrite (canvas_size_of_nonpos config n) in Ha by (assumption || lia). discriminate.
    + rewrite (canvas_size_of_overflow config e E) in Ha. discriminate.
  - intros (n & E & H). rewrite (canvas_size_of_pos config n) by assumption.
    eexists; reflexivity.
Qed.

(** The canvas size does not look at the yaw. *)
Lemma canvas_size_of_yaw (y : float) (config : RenderConfig) :
  canvas_size_of (set_camera_yaw y config) = canvas_size_of config.
Proof. reflexivity. Qed.

Lemma clamp_bounds (x lo hi : Z) : lo <= hi -> lo <= clamp x lo hi <= hi.
Proof. unfold clamp. lia. Qed.

Lemma clamp_cases (x lo hi : Z) :
  lo <= hi -> clamp x lo hi = x \/ clamp x lo hi = lo \/ clamp x lo hi = hi.
Proof. unfold clamp. lia. Qed.

Lemma power_of_two_pow (k : Z) : 0 <= k -> is_power_of_two (2 ^ k).
Proof. intros H. exists k. auto. Qed.

Lemma not_power_of_two_300 : ~ is_power_of_two 300.
Proof.
  intros [k [Hk E]].
  destruct (Z_lt_le_dec k 9) as [Hlt|Hge].
  - assert (C : k = 0 \/ k = 1 \/ k = 2 \/ k = 3 \/ k = 4 \/ k = 5 \/ k = 6 \/ k = 7 \/ k = 8)
      by lia.
    repeat (destruct C as [C|C]; [subst k; discriminate E|]). subst k; discriminate E.
  - pose proof (Z.pow_le_mono_r 2 9 k ltac:(lia) Hge) as P.
    change (2 ^ 9) with 512 in P. lia.
Qed.

End Canvas.

(* ---------------------------------------------------------------------- *)
(** ** Framing *)
(* ---------------------------------------------------------------------- *)

Section Framing.

Lemma scan_object_count (st : Z * BoundsAcc) (o : Object) :
  fst (scan_object st o) = fst st + (if is_mesh o then 1 else 0).
Proof. unfold scan_object. destruct (is_mesh o); simpl; lia. Qed.

Lemma scan_count_from (objs : list Object) (st : Z * BoundsAcc) :
  fst (fold_left scan_object objs st) =
  fst st + Z.of_nat (List.length (filter is_mesh objs)).
Proof.
  revert st. induction objs as [|o objs IH]; intros st; simpl.
  - lia.
  - rewrite IH, scan_object_count. destruct (is_mesh o); simpl List.length; lia.
Qed.

(** [mesh_count] counts the objects of type MESH. *)
Lemma mesh_count_filter (sc : Scene) :
  mesh_count sc = Z.of_nat (List.length (filter is_mesh (objects sc))).
Proof. unfold mesh_count, scan_scene. rewrite scan_count_from. simpl. lia. Qed.

Lemma mesh_count_zero (sc : Scene) :
  mesh_count sc = 0 <-> forall o, In o (objects sc) -> is_mesh o = false.
Proof.
  rewrite mesh_count_filter. split.
  - intros H o Ho. destruct (is_mesh o) eqn:E; [|reflexivity].
    assert (I : In o (filter is_mesh (objects sc))) by (apply filter_In; auto).
    destruct (filter is_mesh (objects sc)); [destruct I | simpl in H; lia].
  - intros H. replace (filter is_mesh (objects sc)) with (@nil Object); [reflexivity|].
    symmetry. induction (objects sc) as [|o l IH]; [reflexivity|]. simpl.
    rewrite (H o) by (left; reflexivity). apply IH. intros; apply H; right; assumption.
Qed.

Lemma calc_no_mesh (sc : Scene) (config : RenderConfig) :
  mesh_count sc = 0 ->
  calculate_canvas_and_position sc config = Ok (sc, (min_canvas_size config, [])).
Proof.
  unfold mesh_count, calculate_canvas_and_position.
  destruct (scan_scene (objects sc)) as [n acc]; simpl. intros ->. reflexivity.
Qed.

Lemma int_property_fits (v : Z) :
  - 2 ^ 31 <= v <= 2 ^ 31 - 1 -> int_property v = Ok v.
Proof.
  intros H. unfold int_property.
  destruct (Z.ltb_spec v (- 2 ^ 31)); [lia|].
  destruct (Z.ltb_spec (2 ^ 31 - 1) v); [lia|]. reflexivity.
Qed.

Lemma int_property_inv (v v' : Z) :
  int_property v = Ok v' -> v' = v /\ - 2 ^ 31 <= v <= 2 ^ 31 - 1.
Proof.
  unfold int_property.
  destruct (Z.ltb_spec v (- 2 ^ 31)); [discriminate|].
  destruct (Z.ltb_spec (2 ^ 31 - 1) v); [discriminate|].
  simpl. intros E; inversion E; subst. lia.
Qed.

Lemma assign_resolution_fits (v : Z) (sc : Scene) :
  - 2 ^ 31 <= v <= 2 ^ 31 - 1 ->
  assign_resolution v sc = Ok (set_resolution (kept_resolution v) sc).
Proof. intros H. unfold assign_resolution. rewrite int_property_fits by exact H. reflexivity. Qed.

Lemma assign_resolution_inv (v : Z) (sc sc' : Scene) :
  assign_resolution v sc = Ok sc' ->
  sc' = set_resolution (kept_resolution v) sc /\ - 2 ^ 31 <= v <= 2 ^ 31 - 1.
Proof.
  unfold assign_resolution. destruct (int_property v) as [v'|e] eqn:E; simpl; [|discriminate].
  apply int_property_inv in E. destruct E as [-> H]. intros E; inversion E; subst. auto.
Qed.

Lemma calc_mesh_raise (sc : Scene) (config : RenderConfig) (e : PyExn) :
  mesh_count sc <> 0 -> canvas_size_of config = Raise e ->
  calculate_canvas_and_position sc config = Raise e.
Proof.
  unfold mesh_count, calculate_canvas_and_position.
  destruct (scan_scene (objects sc)) as [n acc]; simpl. intros Hn E.
  destruct (Z.eqb_spec n 0); [contradiction|]. rewrite E. reflexivity.
Qed.

Lemma calc_mesh_ok (sc : Scene) (config : RenderConfig) (size : Z) :
  mesh_count sc <> 0 -> canvas_size_of config = Ok size ->
  - 2 ^ 31 <= size <= 2 ^ 31 - 1 ->
  exists metadata,
    calculate_canvas_and_position sc config =
    Ok (set_resolution (kept_resolution size)
          (set_camera (LookAtPose (bounds_center sc) (camera_angle config) (camera_yaw config))
                      sc),
        (size, metadata)).
Proof.
  unfold mesh_count, bounds_center, calculate_canvas_and_position.
  destruct (scan_scene (objects sc)) as [n acc]; simpl. intros Hn E F.
  destruct (Z.eqb_spec n 0); [contradiction|]. rewrite E. simpl.
  rewrite assign_resolution_fits by exact F. simpl. eexists; reflexivity.
Qed.

(** The framing returns whenever the canvas size is defined and fits. *)
Lemma calc_returns (sc : Scene) (config : RenderConfig) :
  framing_defined config ->
  exists sc' size metadata,
    calculate_canvas_and_position sc config = Ok (sc', (size, metadata)) /\
    objects sc' = objects sc.
Proof.
  intros (size & E & F). destruct (Z.eq_dec (mesh_count sc) 0) as [Hz|Hnz].
  - rewrite calc_no_mesh by assumption. eauto.
  - destruct (calc_mesh_ok sc config size Hnz E F) as [md ->]. eauto.
Qed.

Lemma calc_mesh_inv (sc sc' : Scene) (config : RenderConfig) (size : Z) (metadata : dict) :
  mesh_count sc <> 0 ->
  calculate_canvas_and_position sc config = Ok (sc', (size, metadata)) ->
  canvas_size_of config = Ok size /\
  - 2 ^ 31 <= size <= 2 ^ 31 - 1 /\
  sc' = set_resolution (kept_resolution size)
          (set_camera (LookAtPose (bounds_center sc) (camera_angle config) (camera_yaw config))
                      sc).
Proof.
  intros Hn E. destruct (canvas_size_of config) as [s|e] eqn:EC.
  - revert E. unfold mesh_count, bounds_center, calculate_canvas_and_position in *.
    destruct (scan_scene (objects sc)) as [n acc]; simpl in *.
    destruct (Z.eqb_spec n 0); [contradiction|]. rewrite EC. simpl.
    destruct (assign_resolution s _) as [sc1|e] eqn:EA; simpl; [|discriminate].
    apply assign_resolution_inv in EA. destruct EA as [-> F].
    intros E; inversion E; subst. auto.
  - rewrite (calc_mesh_raise sc config e Hn EC) in E. discriminate.
Qed.

Lemma mesh_count_objects (sc sc' : Scene) :
  objects sc' = objects sc -> mesh_count sc' = mesh_count sc.
Proof. unfold mesh_count. intros ->. reflexivity. Qed.

Lemma bounds_center_objects (sc sc' : Scene) :
  objects sc' = objects sc -> bounds_center sc' = bounds_center sc.
Proof. unfold bounds_center. intros ->. reflexivity. Qed.

(** The framing touches the camera and the resolution only. *)
Lemma calc_objects (sc sc' : Scene) (config : RenderConfig) (r : Z * dict) :
  calculate_canvas_and_position sc config = Ok (sc', r) -> objects sc' = objects sc.
Proof.
  unfold calculate_canvas_and_position.
  destruct (scan_scene (objects sc)) as [n acc]. destruct (n =? 0).
  - intros E; inversion E; reflexivity.
  - destruct (canvas_size_of config) as [size|e]; simpl; [|discriminate].
    destruct (assign_resolution size _) as [sc1|e] eqn:EA; simpl; [|discriminate].
    apply assign_resolution_inv in EA. destruct EA as [-> _].
    intros E; inversion E; reflexivity.
Qed.

End Framing.

(* ---------------------------------------------------------------------- *)
(** ** Claims about the canvas size and the framing *)
(* ---------------------------------------------------------------------- *)

(** C2, as stated, fails: with extent 1.0 and density 256.5 the product is
    exact, the code truncates it to 256 and keeps a canvas of 256, where the
    formula with [ceil] asks for 257 pixels and a canvas of 512. *)
Lemma canvas_size_ceiling_counterexample :
  fmul 1%Q (513 # 2)%Q = Finite (513 # 2)%Q /\
  canvas_size_of (canvas_config 1%Q (513 # 2)%Q 256 1024) = Ok 256 /\
  spec_canvas_size 1%Q (513 # 2)%Q 256 1024 = 512 /\
  canvas_size_of (canvas_config 1%Q (513 # 2)%Q 256 1024) <>
  Ok (spec_canvas_size 1%Q (513 # 2)%Q 256 1024).
Proof.
  split; [vm_compute; reflexivity|]. split; [vm_compute; reflexivity|].
  split; [reflexivity|]. vm_compute. discriminate.
Qed.

(** C2 (amended): the code multiplies the extent and the density as floats,
    the product being rounded to the nearest double, and truncates that
    product towards zero.  Whenever this pixel count [n] is at least 1 (and
    at most 2^31, where the double logarithm is exact), the canvas size is
    [clamp(2^ceil(log2(n)), min, max)] with
    [clamp(x, lo, hi) = max(lo, min(x, hi))]; the power of two is the least
    one that is not below [n]; the formula with [ceil] gives the same size
    when the exact product is the integer [n]; extent 1.0 with density 100.0
    in [256, 1024] gives 256 and extent 4.0 with density 256.0 gives 1024. *)
Theorem canvas_size_truncates (config : RenderConfig) (n : Z) :
  required_pixels config = Ok n ->
  1 <= n <= 2 ^ 31 ->
  (exists product,
     fmul (ortho_scale config) (pixels_per_unit config) = Finite product /\
     n = trunc product) /\
  canvas_size_of config =
    Ok (clamp (2 ^ Z.log2_up n) (min_canvas_size config) (max_canvas_size config)) /\
  (n <= 2 ^ Z.log2_up n /\
   forall k, 0 <= k -> n <= 2 ^ k -> 2 ^ Z.log2_up n <= 2 ^ k) /\
  ((inject_Z n == ortho_scale config * pixels_per_unit config)%Q ->
   canvas_size_of config =
     Ok (spec_canvas_size (ortho_scale config) (pixels_per_unit config)
                          (min_canvas_size config) (max_canvas_size config))) /\
  ((ortho_scale config == 1)%Q -> (pixels_per_unit config == 100)%Q ->
   min_canvas_size config = 256 -> max_canvas_size config = 1024 ->
   canvas_size_of config = Ok 256) /\
  ((ortho_scale config == 4)%Q -> (pixels_per_unit config == 256)%Q ->
   min_canvas_size config = 256 -> max_canvas_size config = 1024 ->
   canvas_size_of config = Ok 1024).
Proof.
  intros Hreq Hn. split; [|split; [|split; [|split; [|split]]]].
  - destruct (required_pixels_cases config) as [(p & Ep & Er)|[_ Er]];
      rewrite Er in Hreq; inversion Hreq; subst. eauto.
  - apply canvas_size_of_pos; [assumption|lia].
  - apply next_power_of_two; lia.
  - intros Hint. rewrite (canvas_size_of_pos config n) by (assumption || lia).
    unfold spec_canvas_size. rewrite <- Hint, Qceiling_Z. reflexivity.
  - intros He Hd Hmin Hmax. unfold canvas_size_of, required_pixels.
    rewrite (fmul_compat _ _ 1%Q 100%Q He Hd), Hmin, Hmax. vm_compute. reflexivity.
  - intros He Hd Hmin Hmax. unfold canvas_size_of, required_pixels.
    rewrite (fmul_compat _ _ 4%Q 256%Q He Hd), Hmin, Hmax. vm_compute. reflexivity.
Qed.

Lemma canvas_size_truncates_witness :
  required_pixels (canvas_config float_25_7 10%Q 256 1024) = Ok 257 /\
  canvas_size_of (canvas_config float_25_7 10%Q 256 1024) = Ok 512.
Proof.
  assert (E : required_pixels (canvas_config float_25_7 10%Q 256 1024) = Ok 257)
    by (vm_compute; reflexivity).
  split; [exact E|].
  destruct (canvas_size_truncates (canvas_config float_25_7 10%Q 256 1024) 257 E)
    as (_ & C & _); [lia|].
  rewrite C. reflexivity.
Defined.

(** C3, as stated, fails: a minimum of 300 is a legal bound below the
    maximum of 1024, and for extent 1.0 and density 100.0 the canvas is
    clamped up to 300, which is not a power of two. *)
Lemma canvas_size_power_counterexample :
  min_canvas_size (canvas_config 1%Q 100%Q 300 1024)
    <= max_canvas_size (canvas_config 1%Q 100%Q 300 1024) /\
  canvas_size_of (canvas_config 1%Q 100%Q 300 1024) = Ok 300 /\
  ~ (exists size, canvas_size_of (canvas_config 1%Q 100%Q 300 1024) = Ok size /\
                  is_power_of_two size).
Proof.
  split; [vm_compute; discriminate|]. split; [vm_compute; reflexivity|].
  intros [size [E P]]. vm_compute in E. inversion E; subst size.
  exact (not_power_of_two_300 P).
Qed.

(** C3 (amended): for every configuration with [min_canvas <= max_canvas]
    whose pixel count [n], the float product of the extent and the density
    truncated towards zero, is at least 1 (and at most 2^31), the canvas
    size lies between the two bounds; it is a power of two when both bounds
    are powers of two, and also when the power of two computed from [n]
    already lies between the bounds. *)
Theorem canvas_size_within_bounds (config : RenderConfig) (n : Z) :
  min_canvas_size config <= max_canvas_size config ->
  required_pixels config = Ok n ->
  1 <= n <= 2 ^ 31 ->
  exists size,
    canvas_size_of config = Ok size /\
    min_canvas_size config <= size <= max_canvas_size config /\
    (is_power_of_two (min_canvas_size config) ->
     is_power_of_two (max_canvas_size config) -> is_power_of_two size) /\
    (min_canvas_size config <= 2 ^ Z.log2_up n <= max_canvas_size config ->
     size = 2 ^ Z.log2_up n /\ is_power_of_two size).
Proof.
  intros Hb Hreq Hn. eexists.
  split; [apply (canvas_size_of_pos config n); [assumption|lia]|].
  assert (P : is_power_of_two (2 ^ Z.log2_up n))
    by (apply power_of_two_pow, Z.log2_up_nonneg).
  split; [apply clamp_bounds; assumption|]. split.
  - intros Pmin Pmax.
    destruct (clamp_cases (2 ^ Z.log2_up n)
                          (min_canvas_size config) (max_canvas_size config) Hb)
      as [E|[E|E]]; rewrite E; assumption.
  - intros Hin. replace (clamp _ _ _) with (2 ^ Z.log2_up n);
      [split; [reflexivity|assumption]|]. unfold clamp. lia.
Qed.

Lemma canvas_size_within_bounds_witness :
  required_pixels (canvas_config float_5_13 100%Q 256 600) = Ok 513 /\
  exists size,
    canvas_size_of (canvas_config float_5_13 100%Q 256 600) = Ok size /\
    256 <= size <= 600 /\ size = 600.
Proof.
  assert (E : required_pixels (canvas_config float_5_13 100%Q 256 600) = Ok 513)
    by (vm_compute; reflexivity).
  split; [exact E|].
  destruct (canvas_size_within_bounds (canvas_config float_5_13 100%Q 256 600) 513)
    as [size [C [B _]]].
  - vm_compute. discriminate.
  - exact E.
  - lia.
  - exists size. split; [exact C|]. split; [exact B|].
    vm_compute in C. inversion C. reflexivity.
Defined.

(** C8: in a scene without any mesh object the framing returns the
    configured minimum canvas size with empty metadata, raises nothing, and
    leaves the scene, hence the pose of the camera, as it was. *)
Theorem framing_without_mesh (sc : Scene) (config : RenderConfig) :
  (forall o, In o (objects sc) -> is_mesh o = false) ->
  calculate_canvas_and_position sc config = Ok (sc, (min_canvas_size config, [])) /\
  (forall sc' r, calculate_canvas_and_position sc config = Ok (sc', r) ->
                 camera sc' = camera sc /\ fst r = min_canvas_size config /\ snd r = []).
Proof.
  intros H. assert (E := calc_no_mesh sc config (proj2 (mesh_count_zero sc) H)).
  split; [exact E|]. intros sc' r E'. rewrite E in E'. inversion E'; subst. auto.
Qed.

Lemma framing_without_mesh_witness :
  calculate_canvas_and_position empty_scene (canvas_config (1 # 2)%Q 1%Q 256 1024) =
  Ok (empty_scene, (256, [])).
Proof.
  apply (framing_without_mesh empty_scene (canvas_config (1 # 2)%Q 1%Q 256 1024)).
  intros o [].
Defined.

(** C10, as stated, fails twice on one input: with an extent of -4.0 the
    product is below 1 but its truncation is -1024, not 0; and in a scene
    without meshes the framing returns the minimum canvas before it reaches
    the logarithm. *)
Lemma canvas_precondition_counterexample :
  fmul (ortho_scale (canvas_config (-4)%Q 256%Q 256 1024))
       (pixels_per_unit (canvas_config (-4)%Q 256%Q 256 1024)) = Finite (-1024)%Q /\
  (-1024 < 1)%Q /\
  required_pixels (canvas_config (-4)%Q 256%Q 256 1024) = Ok (-1024) /\
  required_pixels (canvas_config (-4)%Q 256%Q 256 1024) <> Ok 0 /\
  calculate_canvas_and_position empty_scene (canvas_config (-4)%Q 256%Q 256 1024) =
    Ok (empty_scene, (256, [])) /\
  ~ raises (calculate_canvas_and_position empty_scene (canvas_config (-4)%Q 256%Q 256 1024)).
Proof.
  split; [vm_compute; reflexivity|]. split; [reflexivity|].
  split; [vm_compute; reflexivity|]. split; [vm_compute; discriminate|].
  split; [reflexivity|]. intros [e E]. vm_compute in E. discriminate E.
Qed.

(** C10 (amended): the canvas size is defined exactly when the float
    product [ortho_scale * pixels_per_unit] is finite and its truncation
    [int(ortho_scale * pixels_per_unit)] is at least 1.  When the product,
    as the code computes it, is below 1, its truncation is not positive (it
    is 0 when the product is above -1), the logarithm raises, and the framing
    of every scene with at least one mesh raises instead of returning a
    canvas size; when the product overflows, [int] raises; with a mesh in
    the scene the framing returns exactly when the canvas size is defined
    and Blender accepts it as a resolution; the framing of a scene without
    meshes returns the minimum canvas size in every case, as it does not
    reach the product. *)
Theorem canvas_precondition (config : RenderConfig) :
  (returns (canvas_size_of config) <->
   exists product,
     fmul (ortho_scale config) (pixels_per_unit config) = Finite product /\
     1 <= trunc product) /\
  (forall product,
     fmul (ortho_scale config) (pixels_per_unit config) = Finite product ->
     (product < 1)%Q ->
     required_pixels config = Ok (trunc product) /\
     trunc product <= 0 /\
     ((- (1) < product)%Q -> trunc product = 0) /\
     ceil_log2 (trunc product) = Raise (ValueError "math domain error") /\
     canvas_size_of config = Raise (ValueError "math domain error") /\
     (forall sc, mesh_count sc <> 0 -> raises (calculate_canvas_and_position sc config))) /\
  (fmul (ortho_scale config) (pixels_per_unit config) = Infinite ->
   forall sc, mesh_count sc <> 0 ->
   calculate_canvas_and_position sc config =
     Raise (OverflowError "cannot convert float infinity to integer")) /\
  (forall sc, mesh_count sc <> 0 ->
              (returns (calculate_canvas_and_position sc config) <-> framing_defined config)) /\
  (forall sc, mesh_count sc = 0 ->
              calculate_canvas_and_position sc config = Ok (sc, (min_canvas_size config, []))).
Proof.
  split; [|split; [|split; [|split]]].
  - rewrite canvas_size_of_returns. unfold required_pixels.
    destruct (fmul (ortho_scale config) (pixels_per_unit config)) as [p|]; simpl; split.
    + intros (n & E & H). inversion E; subst. eauto.
    + intros (p' & E & H). inversion E; subst. eauto.
    + intros (n & E & _). discriminate E.
    + intros (p' & E & _). discriminate E.
  - intros p Ep Hlt.
    assert (Er : required_pixels config = Ok (trunc p))
      by (unfold required_pixels; rewrite Ep; reflexivity).
    assert (Hle := trunc_below_one _ Hlt).
    assert (E := canvas_size_of_nonpos config _ Er Hle).
    split; [exact Er|]. split; [exact Hle|].
    split; [intros Hgt; apply trunc_fraction; assumption|].
    split; [apply ceil_log2_nonpos; assumption|].
    split; [exact E|].
    intros sc Hm. eexists. apply calc_mesh_raise; eassumption.
  - intros Ei sc Hm. apply calc_mesh_raise; [exact Hm|].
    apply canvas_size_of_overflow. unfold required_pixels. rewrite Ei. reflexivity.
  - intros sc Hm. split.
    + intros [[sc' [size md]] E].
      destruct (calc_mesh_inv _ _ _ _ _ Hm E) as (C & F & _). exists size. auto.
    + intros H. destruct (calc_returns sc config H) as (sc' & size & md & E & _).
      eexists; exact E.
  - intros sc Hz. apply calc_no_mesh; assumption.
Qed.

Lemma canvas_precondition_witness :
  fmul (1 # 2)%Q 1%Q = Finite (1 # 2)%Q /\
  required_pixels (canvas_config (1 # 2)%Q 1%Q 256 1024) = Ok 0 /\
  raises (calculate_canvas_and_position cube_scene (canvas_config (1 # 2)%Q 1%Q 256 1024)).
Proof.
  assert (F : fmul (ortho_scale (canvas_config (1 # 2)%Q 1%Q 256 1024))
                   (pixels_per_unit (canvas_config (1 # 2)%Q 1%Q 256 1024))
              = Finite (1 # 2)%Q) by (vm_compute; reflexivity).
  destruct (canvas_precondition (canvas_config (1 # 2)%Q 1%Q 256 1024))
    as (_ & K & _).
  destruct (K (1 # 2)%Q F) as (Er & _ & _ & _ & _ & R); [reflexivity|].
  split; [exact F|]. split; [exact Er|]. apply R. vm_compute. discriminate.
Defined.

(** The product that decides is the rounded one: one third times 3.0 is
    below 1 as an exact product and 1.0 as a float, and the framing returns
    the minimum canvas. *)
Example rounded_product_reaches_one :
  (one_third * 3 < 1)%Q /\
  fmul one_third 3%Q = Finite 1%Q /\
  canvas_size_of (canvas_config one_third 3%Q 256 1024) = Ok 256.
Proof. split; [reflexivity|]. split; vm_compute; reflexivity. Qed.

(* ---------------------------------------------------------------------- *)
(** ** Asset discovery *)
(* ---------------------------------------------------------------------- *)

(** C9 at a failing input, on a POSIX host: below the input root lie the
    file [A.GLB] and the directory [pack.glb], and the accepted extension is
    [.glb].  The file is a model by its extension up to case, and the
    importer, which lower-cases the suffix, takes it as glTF; yet the pattern
    [*.glb] does not select it, and the directory, which is not a file, is
    all that discovery returns.  On a Windows host the same call returns
    both. *)
Theorem find_models_misses_upper_case :
  In (mkEntry ["A.GLB"] false) upper_case_tree /\
  lower (path_suffix ["models"; "A.GLB"]) = ".glb" /\
  importer_of (lower (path_suffix ["models"; "A.GLB"])) = Some GLTF /\
  find_models PosixFlavour upper_case_tree ["models"] [".glb"] = [["models"; "pack.glb"]] /\
  ~ In ["models"; "A.GLB"] (find_models PosixFlavour upper_case_tree ["models"] [".glb"]) /\
  find_models WindowsFlavour upper_case_tree ["models"] [".glb"] =
    [["models"; "A.GLB"]; ["models"; "pack.glb"]].
Proof.
  split; [left; reflexivity|]. split; [reflexivity|]. split; [reflexivity|].
  split; [reflexivity|]. split; [|reflexivity].
  vm_compute. intros [H|[]]. discriminate H.
Qed.

(* ---------------------------------------------------------------------- *)
(** ** The world of the collaborators *)
(* ---------------------------------------------------------------------- *)

Section WorldFacts.

Lemma foldM_cons {A B : Type} (f : A -> B -> Result A) (b : B) (l : list B) (a : A) :
  foldM f (b :: l) a = bind (f a b) (foldM f l).
Proof. reflexivity. Qed.

Lemma write_entry_exists (p : string) (c : FileContent) (fs : list (string * FileContent)) :
  existsb (fun kv => String.eqb (fst kv) p) (write_entry p c fs) = true.
Proof.
  induction fs as [|[q d] fs IH]; simpl.
  - rewrite String.eqb_refl. reflexivity.
  - destruct (String.eqb q p) eqn:E; simpl.
    + rewrite String.eqb_refl. reflexivity.
    + rewrite IH. apply orb_true_r.
Qed.

Lemma write_entry_mono (p q : string) (c : FileContent) (fs : list (string * FileContent)) :
  existsb (fun kv => String.eqb (fst kv) q) fs = true ->
  existsb (fun kv => String.eqb (fst kv) q) (write_entry p c fs) = true.
Proof.
  induction fs as [|[r d] fs IH]; simpl; [discriminate|].
  destruct (String.eqb r p) eqn:E; simpl.
  - apply String.eqb_eq in E. subst r. auto.
  - intros H. apply orb_true_iff in H. apply orb_true_iff.
    destruct H; [left; assumption|right; auto].
Qed.

Lemma file_exists_write (p : string) (c : FileContent) (w : World) :
  file_exists (write_file p c w) p = true.
Proof. apply write_entry_exists. Qed.

Lemma files_grow_refl (w : World) : files_grow w w.
Proof. intros p H; exact H. Qed.

Lemma files_grow_trans (w1 w2 w3 : World) :
  files_grow w1 w2 -> files_grow w2 w3 -> files_grow w1 w3.
Proof. intros A B p H. apply B, A, H. Qed.

Lemma files_grow_write (p : string) (c : FileContent) (w : World) :
  files_grow w (write_file p c w).
Proof. intros q H. apply write_entry_mono. exact H. Qed.

Lemma files_grow_same (w w' : World) : files w' = files w -> files_grow w w'.
Proof. intros E p. unfold file_exists. rewrite E. auto. Qed.

(** [render_sprite] writes at most the output file, and answers [True] only
    when that file exists. *)
Lemma render_sprite_spec (env : Env) (w w' : World) (p : string) (ok : bool) :
  render_sprite env w p = (w', ok) ->
  renders w' = renders w /\ scene w' = scene w /\ files_grow w w' /\
  (ok = true -> file_exists w' p = true) /\
  (makedirs env (dirname p) = true -> engine_render env (scene w) p = Written -> ok = true).
Proof.
  unfold render_sprite. destruct (makedirs env (dirname p)); simpl.
  - destruct (engine_render env (scene w) p); intros E; inversion E; subst.
    + repeat split; auto using files_grow_write, file_exists_write.
    + repeat split; auto using files_grow_refl. discriminate.
    + repeat split; auto using files_grow_refl; discriminate.
  - intros E; inversion E; subst. repeat split; auto using files_grow_refl; discriminate.
Qed.

Lemma auto_crop_sprite_spec (env : Env) (w w' : World) (p : string) (d : dict) :
  auto_crop_sprite env w p = (w', d) ->
  renders w' = renders w /\ scene w' = scene w /\ files_grow w w'.
Proof.
  unfold auto_crop_sprite. destruct (PIL_AVAILABLE env); simpl.
  - destruct (image_open env p) as [img|].
    + destruct (img_bbox img) as [[[[b0 b1] b2] b3]|]; intros E; inversion E; subst;
        repeat split; auto using files_grow_write, files_grow_refl.
    + intros E; inversion E; subst; repeat split; auto using files_grow_refl.
  - intros E; inversion E; subst; repeat split; auto using files_grow_refl.
Qed.

Lemma export_metadata_spec (env : Env) (w w' : World) (p : string) (d : dict) (b : bool) :
  export_metadata env w p d = (w', b) ->
  renders w' = renders w /\ scene w' = scene w /\ files_grow w w'.
Proof.
  unfold export_metadata. destruct (makedirs env _ && json_writable env _);
    intros E; inversion E; subst;
    repeat split; auto using files_grow_write, files_grow_refl.
Qed.

Lemma dict_get_set_same (k : string) (v : json) (d : dict) :
  dict_get k (dict_set k v d) = Some v.
Proof.
  induction d as [|[k' v'] d IH]; simpl.
  - rewrite String.eqb_refl. reflexivity.
  - destruct (String.eqb k' k) eqn:E; simpl; rewrite ?String.eqb_refl, ?E; auto.
Qed.

Lemma dict_get_set_other (k k' : string) (v : json) (d : dict) :
  k <> k' -> dict_get k (dict_set k' v d) = dict_get k d.
Proof.
  intros N. induction d as [|[k0 v0] d IH]; simpl.
  - destruct (String.eqb_spec k' k); [congruence|reflexivity].
  - destruct (String.eqb_spec k0 k'); simpl.
    + subst k0. destruct (String.eqb_spec k' k); [congruence|reflexivity].
    + destruct (String.eqb_spec k0 k); auto.
Qed.

Lemma new_renders_app (w w' : World) (l : list RenderCall) :
  renders w' = List.app (renders w) l -> new_renders w w' = l.
Proof.
  unfold new_renders. intros ->. induction (renders w); simpl; auto.
Qed.

Lemma set_camera_yaw_twice (y y' : float) (c : RenderConfig) :
  set_camera_yaw y' (set_camera_yaw y c) = set_camera_yaw y' c.
Proof. reflexivity. Qed.

Lemma set_camera_yaw_same (c : RenderConfig) : set_camera_yaw (camera_yaw c) c = c.
Proof. destruct c; reflexivity. Qed.

End WorldFacts.

(* ---------------------------------------------------------------------- *)
(** ** One render *)
(* ---------------------------------------------------------------------- *)

(** Collects what the collaborators called in a branch did to the world. *)
Ltac world_facts :=
  repeat match goal with
  | H : render_sprite _ _ _ = _ |- _ =>
      apply render_sprite_spec in H; destruct H as (? & ? & ? & ? & Hrs)
  | H : auto_crop_sprite _ _ _ = _ |- _ =>
      apply auto_crop_sprite_spec in H; destruct H as (? & ? & ?)
  | H : export_metadata _ _ _ _ = _ |- _ =>
      apply export_metadata_spec in H; destruct H as (? & ? & ?)
  end.

(** Rewrites a field of the final world back to the initial one. *)
Ltac chase :=
  simpl in *;
  repeat match goal with
  | H : renders _ = _ |- _ => rewrite H in *; clear H; simpl in *
  | H : scene _ = _ |- _ => rewrite H in *; clear H; simpl in *
  end.

Ltac grow :=
  unfold files_grow, file_exists in *; simpl in *; intros; eauto 10.

Section OneRender.

Variable env : Env.
Variables rel_path output_file : Path.

(** What one pass through the body of the rotation loop does. *)
Lemma render_rotation_spec (st st' : State) (b b' : bool) (rot : Z * string * string) :
  render_rotation env rel_path output_file (st, b) rot = Ok (st', b') ->
  exists c,
    renders (st_world st') = List.app (renders (st_world st)) [c] /\
    rotation_call (st_config st) (scene (st_world st)) output_file rot c /\
    st_config st' = set_camera_yaw (inject_Z (fst (fst rot))) (st_config st) /\
    objects (scene (st_world st')) = objects (scene (st_world st)) /\
    (mesh_count (scene (st_world st)) = 0 -> scene (st_world st') = scene (st_world st)) /\
    files_grow (st_world st) (st_world st') /\
    (renders_to env (rc_path c) -> rc_ok c = true) /\
    (if rc_ok c
     then file_exists (st_world st') (rc_path c) = true /\
          st_stats st' = st_stats st /\ b' = b
     else st_stats st' =
            count_failed (path_str rel_path ++ " (" ++ snd rot ++ ")") (st_stats st) /\
          b' = false).
Proof.
  destruct rot as [[angle suffix] direction]. unfold render_rotation, rotation_call.
  destruct (calculate_canvas_and_position (scene (st_world st))
              (set_camera_yaw (inject_Z angle) (st_config st)))
    as [[sc [size md]]|e] eqn:EC; simpl; [|discriminate].
  assert (HO := calc_objects _ _ _ _ EC).
  assert (HC1 : mesh_count (scene (st_world st)) <> 0 ->
                camera sc = LookAtPose (bounds_center (scene (st_world st)))
                                       (camera_angle (st_config st)) (inject_Z angle)).
  { intros Hn. destruct (calc_mesh_inv _ _ _ _ _ Hn EC) as (_ & _ & ->). reflexivity. }
  assert (HC0 : mesh_count (scene (st_world st)) = 0 -> sc = scene (st_world st)).
  { intros Hz. rewrite (calc_no_mesh _ _ Hz) in EC. inversion EC; reflexivity. }
  clear EC.
  destruct (render_sprite env (set_scene sc (st_world st)) _) as [w1 ok] eqn:ER.
  destruct ok; simpl.
  - destruct (auto_crop (st_config st)).
    + destruct (auto_crop_sprite env _ _) as [w2 cm] eqn:EA.
      destruct (export_metadata env w2 _ _) as [w3 bb] eqn:EE.
      intros E; inversion E; subst; clear E. world_facts.
      eexists. split; [chase; reflexivity|]. simpl.
      rewrite dict_get_set_other by discriminate. rewrite !dict_get_set_same.
      repeat split; auto; clear Hrs;
        solve [chase; auto | grow | intros Hz; rewrite (HC0 Hz); reflexivity].
    + destruct (export_metadata env _ _ _) as [w3 bb] eqn:EE.
      intros E; inversion E; subst; clear E. world_facts.
      eexists. split; [chase; reflexivity|]. simpl.
      rewrite dict_get_set_other by discriminate. rewrite !dict_get_set_same.
      repeat split; auto; clear Hrs;
        solve [chase; auto | grow | intros Hz; rewrite (HC0 Hz); reflexivity].
  - intros E; inversion E; subst; clear E. world_facts.
    eexists. split; [chase; reflexivity|]. simpl.
    rewrite dict_get_set_other by discriminate. rewrite !dict_get_set_same.
    repeat split; auto;
      try solve [intros [Hd Hw]; apply Hrs; [exact Hd|apply Hw]]; clear Hrs;
      solve [chase; auto | grow | intros Hz; rewrite (HC0 Hz); reflexivity].
Qed.

(** What the single-render branch does. *)
Lemma render_single_spec (st st' : State) :
  render_single env rel_path output_file st = Ok st' ->
  exists c,
    renders (st_world st') = List.app (renders (st_world st)) [c] /\
    single_call (st_config st) (scene (st_world st)) output_file c /\
    st_config st' = st_config st /\
    objects (scene (st_world st')) = objects (scene (st_world st)) /\
    files_grow (st_world st) (st_world st') /\
    (renders_to env (rc_path c) -> rc_ok c = true) /\
    (if rc_ok c
     then file_exists (st_world st') (rc_path c) = true /\
          st_stats st' = count_processed (st_stats st)
     else st_stats st' = count_failed (path_str rel_path) (st_stats st)).
Proof.
  unfold render_single, single_call.
  destruct (calculate_canvas_and_position (scene (st_world st)) (st_config st))
    as [[sc [size md]]|e] eqn:EC; simpl; [|discriminate].
  assert (HO := calc_objects _ _ _ _ EC).
  assert (HC1 : mesh_count (scene (st_world st)) <> 0 ->
                camera sc = LookAtPose (bounds_center (scene (st_world st)))
                                       (camera_angle (st_config st))
                                       (camera_yaw (st_config st))).
  { intros Hn. destruct (calc_mesh_inv _ _ _ _ _ Hn EC) as (_ & _ & ->). reflexivity. }
  assert (HC0 : mesh_count (scene (st_world st)) = 0 -> sc = scene (st_world st)).
  { intros Hz. rewrite (calc_no_mesh _ _ Hz) in EC. inversion EC; reflexivity. }
  clear EC.
  destruct (render_sprite env (set_scene sc (st_world st)) _) as [w1 ok] eqn:ER.
  destruct ok; simpl.
  - destruct (auto_crop (st_config st)).
    + destruct (auto_crop_sprite env _ _) as [w2 cm] eqn:EA.
      destruct (export_metadata env w2 _ _) as [w3 bb] eqn:EE.
      intros E; inversion E; subst; clear E. world_facts.
      eexists. split; [chase; reflexivity|]. simpl.
      rewrite dict_get_set_other by discriminate. rewrite !dict_get_set_same.
      repeat split; auto; clear Hrs;
        solve [chase; auto | grow | intros Hz; rewrite (HC0 Hz); reflexivity].
    + destruct (export_metadata env _ _ _) as [w3 bb] eqn:EE.
      intros E; inversion E; subst; clear E. world_facts.
      eexists. split; [chase; reflexivity|]. simpl.
      rewrite dict_get_set_other by discriminate. rewrite !dict_get_set_same.
      repeat split; auto; clear Hrs;
        solve [chase; auto | grow | intros Hz; rewrite (HC0 Hz); reflexivity].
  - intros E; inversion E; subst; clear E. world_facts.
    eexists. split; [chase; reflexivity|]. simpl.
    rewrite dict_get_set_other by discriminate. rewrite !dict_get_set_same.
    repeat split; auto;
      try solve [intros [Hd Hw]; apply Hrs; [exact Hd|apply Hw]]; clear Hrs;
      solve [chase; auto | grow | intros Hz; rewrite (HC0 Hz); reflexivity].
Qed.



End OneRender.

(* ---------------------------------------------------------------------- *)
(** ** The rotation loop *)
(* ---------------------------------------------------------------------- *)

Section RotationLoop.

Variable env : Env.
Variables rel_path output_file : Path.

Lemma rotation_call_transport (config : RenderConfig) (y : float) (sc sc1 : Scene)
      (rot : Z * string * string) (c : RenderCall) :
  objects sc1 = objects sc -> (mesh_count sc = 0 -> sc1 = sc) ->
  rotation_call (set_camera_yaw y config) sc1 output_file rot c ->
  rotation_call config sc output_file rot c.
Proof.
  intros HO HZ. destruct rot as [[angle suffix] direction]. unfold rotation_call. simpl.
  rewrite (mesh_count_objects _ _ HO), (bounds_center_objects _ _ HO).
  intros (A & B & C & D & E & F). repeat split; auto.
  intros Hz. rewrite (F Hz), (HZ Hz). reflexivity.
Qed.

(** The loop over any list of directions: one call per direction, in order;
    the configuration changes in its yaw only; files are only added; the
    counters move by the failed renders only. *)
Lemma rotation_loop_spec (rots : list (Z * string * string)) :
  forall (st st' : State) (b b' : bool),
  foldM (render_rotation env rel_path output_file) rots (st, b) = Ok (st', b') ->
  exists calls,
    renders (st_world st') = List.app (renders (st_world st)) calls /\
    Forall2 (rotation_call (st_config st) (scene (st_world st)) output_file) rots calls /\
    (exists y, st_config st' = set_camera_yaw y (st_config st)) /\
    objects (scene (st_world st')) = objects (scene (st_world st)) /\
    (mesh_count (scene (st_world st)) = 0 -> scene (st_world st') = scene (st_world st)) /\
    files_grow (st_world st) (st_world st') /\
    Forall (fun c => rc_ok c = true -> file_exists (st_world st') (rc_path c) = true) calls /\
    (Forall (fun c => renders_to env (rc_path c)) calls -> forallb rc_ok calls = true) /\
    b' = b && forallb rc_ok calls /\
    processed (st_stats st') = processed (st_stats st) /\
    skipped (st_stats st') = skipped (st_stats st) /\
    failed (st_stats st') =
      failed (st_stats st) + Z.of_nat (List.length (failed_calls calls)) /\
    (forallb rc_ok calls = true -> st_stats st' = st_stats st).
Proof.
  induction rots as [|rot rots IH]; intros st st' b b'; rewrite ?foldM_cons.
  - simpl. intros E; inversion E; subst; clear E. exists []. rewrite app_nil_r, andb_true_r.
    repeat split; auto using files_grow_refl; try (simpl; lia).
    exists (camera_yaw (st_config st')). symmetry. apply set_camera_yaw_same.
  - destruct (render_rotation env rel_path output_file (st, b) rot) as [[st1 b1]|e] eqn:E1;
      simpl; [|discriminate].
    intros E2.
    destruct (render_rotation_spec _ _ _ _ _ _ _ _ E1)
      as (c & R1 & C1 & G1 & O1 & Z1 & F1 & W1 & K1).
    destruct (IH _ _ _ _ E2)
      as (calls & R2 & C2 & [y G2] & O2 & Z2 & F2 & X2 & W2 & B2 & P2 & S2 & D2 & T2).
    assert (Z1' : mesh_count (scene (st_world st)) = 0 ->
                  mesh_count (scene (st_world st1)) = 0)
      by (intros Hz; rewrite (mesh_count_objects _ _ O1); exact Hz).
    exists (c :: calls).
    split; [rewrite R2, R1, <- app_assoc; reflexivity|].
    split.
    { constructor; [exact C1|]. eapply Forall2_impl; [|exact C2].
      intros r d Hr. rewrite G1 in Hr.
      eapply rotation_call_transport; [exact O1|exact Z1|exact Hr]. }
    split; [exists y; rewrite G2, G1; reflexivity|].
    split; [congruence|].
    split; [intros Hz; rewrite (Z2 (Z1' Hz)); auto|].
    split; [eapply files_grow_trans; eassumption|].
    split.
    { constructor; [|exact X2]. intros Hok. rewrite Hok in K1. apply F2, K1. }
    split; [intros HW; inversion HW; subst; simpl; rewrite W1, W2 by assumption;
            reflexivity|].
    unfold failed_calls in *. simpl.
    destruct (rc_ok c); simpl.
    + destruct K1 as (_ & KS & KB). rewrite KS in *. subst b1. repeat split; auto.
    + destruct K1 as (KS & KB). rewrite KS in *. subst b1. simpl in *.
      rewrite andb_false_r. repeat split; auto; try lia.
Qed.


End RotationLoop.

(* ---------------------------------------------------------------------- *)
(** ** One asset *)
(* ---------------------------------------------------------------------- *)

Section OneAsset.

Variable env : Env.

Lemma Forall2_Forall_r {A B : Type} (R : A -> B -> Prop) (P : B -> Prop)
      (l1 : list A) (l2 : list B) :
  (forall a b, R a b -> P b) -> Forall2 R l1 l2 -> Forall P l2.
Proof. intros H F. induction F; constructor; eauto. Qed.

Lemma import_model_spec (w w' : World) (filepath : Path) (scale : float) (ok : bool) :
  import_model env w filepath scale = (w', ok) ->
  files w' = files w /\ renders w' = renders w.
Proof.
  unfold import_model.
  repeat match goal with
         | |- context [if ?c then _ else _] => destruct c
         | |- context [engine_import ?e ?i ?p ?s] => destruct (engine_import e i p s)
         end; intros E; inversion E; subst; auto.
Qed.

(** The four-direction branch: four calls in the order of the table, the
    configuration restored, one more processed asset exactly when every
    direction rendered. *)
Lemma render_rotations_spec (rel_path output_file : Path) (st st' : State) :
  render_rotations env rel_path output_file st = Ok st' ->
  exists calls,
    renders (st_world st') = List.app (renders (st_world st)) calls /\
    Forall2 (rotation_call (st_config st) (scene (st_world st)) output_file)
            rotations_table calls /\
    st_config st' = st_config st /\
    files_grow (st_world st) (st_world st') /\
    Forall (fun c => rc_ok c = true -> file_exists (st_world st') (rc_path c) = true) calls /\
    (Forall (fun c => renders_to env (rc_path c)) calls -> forallb rc_ok calls = true) /\
    processed (st_stats st') =
      processed (st_stats st) + (if forallb rc_ok calls then 1 else 0) /\
    skipped (st_stats st') = skipped (st_stats st) /\
    failed (st_stats st') =
      failed (st_stats st) + Z.of_nat (List.length (failed_calls calls)) /\
    (forallb rc_ok calls = true -> st_stats st' = count_processed (st_stats st)) /\
    objects (scene (st_world st')) = objects (scene (st_world st)).
Proof.
  unfold render_rotations.
  destruct (foldM (render_rotation env rel_path output_file) rotations_table (st, true))
    as [[st1 b1]|e] eqn:EL; simpl; [|discriminate].
  destruct (rotation_loop_spec _ _ _ _ _ _ _ _ EL)
    as (calls & R & C & [y G] & O & Z & F & X & W & B & P & S & D & T).
  simpl in B. subst b1. intros E. exists calls.
  assert (GC : set_camera_yaw (camera_yaw (st_config st)) (st_config st1) = st_config st)
    by (rewrite G, set_camera_yaw_twice; apply set_camera_yaw_same).
  rewrite GC in E.
  destruct (forallb rc_ok calls) eqn:EB; inversion E; subst; clear E; simpl.
  - rewrite (T eq_refl) in *. repeat split; auto; lia.
  - repeat split; auto; try lia.
Qed.

Lemma rotations_table_calls (config : RenderConfig) (sc : Scene) (output_file : Path)
      (calls : list RenderCall) :
  Forall2 (rotation_call config sc output_file) rotations_table calls ->
  calls <> [] /\
  Forall (fun c => exists y, rc_config c = set_camera_yaw y config) calls /\
  (rotations config = 4 -> map rc_path calls = expected_outputs config output_file).
Proof.
  intros F. split; [inversion F; discriminate|]. split.
  - eapply Forall2_Forall_r; [|exact F]. intros [[a s] d] c (E & _). eauto.
  - intros R4. unfold expected_outputs. rewrite R4. unfold rotations_table in *.
    repeat match goal with
           | H : Forall2 _ (_ :: _) _ |- _ => inversion H; subst; clear H
           | H : Forall2 _ [] _ |- _ => inversion H; subst; clear H
           end.
    unfold rotation_call in *.
    repeat match goal with
           | H : _ /\ _ |- _ => destruct H as (_ & H & _)
           end.
    simpl in *. congruence.
Qed.

(** The three ways an asset can go: skipped, not imported, or rendered;
    whatever happens, the configuration comes back as it was, every call saw
    it up to the yaw, and no file disappeared. *)
Lemma process_model_spec (st st' : State) (model_path : Path) :
  process_model env st model_path = Ok st' ->
  exists calls,
    renders (st_world st') = List.app (renders (st_world st)) calls /\
    st_config st' = st_config st /\
    files_grow (st_world st) (st_world st') /\
    Forall (fun c => exists y, rc_config c = set_camera_yaw y (st_config st)) calls /\
    Forall (fun c => rc_ok c = true -> file_exists (st_world st') (rc_path c) = true) calls /\
    ((calls = [] /\ st_stats st' = count_skipped (st_stats st))
     \/ (calls = [] /\ exists name, st_stats st' = count_failed name (st_stats st))
     \/ (calls <> [] /\
         processed (st_stats st') =
           processed (st_stats st) + (if forallb rc_ok calls then 1 else 0) /\
         skipped (st_stats st') = skipped (st_stats st) /\
         failed (st_stats st') =
           failed (st_stats st) + Z.of_nat (List.length (failed_calls calls)))).
Proof.
  unfold process_model.
  destruct (output_file_of (st_config st) model_path) as [[rel_path output_file]|e];
    simpl; [|discriminate].
  destruct (skip_existing (st_config st) && file_exists (st_world st) (path_str output_file)).
  { intros E; inversion E; subst; clear E. exists []. simpl. rewrite app_nil_r.
    repeat split; auto using files_grow_refl. }
  destruct (import_model env _ model_path (scale_factor (st_config st)))
    as [w1 imported] eqn:EI.
  apply import_model_spec in EI. simpl in EI. destruct EI as [EF ER].
  assert (FG : files_grow (st_world st) w1) by (apply files_grow_same; exact EF).
  destruct imported; simpl.
  - destruct (rotations (st_config st) =? 4).
    + intros E. apply render_rotations_spec in E. simpl in E.
      destruct E as (calls & R & C & G & F & X & _ & P & S & D & _).
      destruct (rotations_table_calls _ _ _ _ C) as (N & FC & _).
      exists calls. rewrite R, ER.
      repeat split; auto; [eapply files_grow_trans; eassumption|].
      right; right. auto.
    + intros E. apply render_single_spec in E. simpl in E.
      destruct E as (c & R & C & G & _ & F & _ & K).
      exists [c]. rewrite R, ER. destruct C as (CC & _).
      repeat split; auto; [eapply files_grow_trans; eassumption| | |].
      * constructor; [|constructor]. exists (camera_yaw (st_config st)).
        rewrite CC. symmetry. apply set_camera_yaw_same.
      * constructor; [|constructor]. intros Hok. rewrite Hok in K. apply K.
      * right; right. split; [discriminate|]. unfold failed_calls. simpl.
        destruct (rc_ok c); simpl.
        -- destruct K as [_ ->]. simpl. repeat split; lia.
        -- rewrite K. simpl. repeat split; lia.
  - intros E; inversion E; subst; clear E. exists []. simpl. rewrite app_nil_r, ER.
    repeat split; auto. right; left. eauto.
Qed.




End OneAsset.

(* ---------------------------------------------------------------------- *)
(** ** The batch *)
(* ---------------------------------------------------------------------- *)

Section Batch.

Variable env : Env.

(** The loop over the models: the configuration object comes back
    unchanged, and every call made on the way saw it up to the yaw. *)
Lemma batch_loop_spec (models : list Path) :
  forall st st' : State,
  foldM (process_model env) models st = Ok st' ->
  exists calls,
    renders (st_world st') = List.app (renders (st_world st)) calls /\
    st_config st' = st_config st /\
    files_grow (st_world st) (st_world st') /\
    Forall (fun c => exists y, rc_config c = set_camera_yaw y (st_config st)) calls.
Proof.
  induction models as [|m models IH]; intros st st'; rewrite ?foldM_cons.
  - simpl. intros E; inversion E; subst. exists []. rewrite app_nil_r.
    auto using files_grow_refl.
  - destruct (process_model env st m) as [st1|e] eqn:E1; simpl; [|discriminate].
    intros E2.
    destruct (process_model_spec env _ _ _ E1) as (c1 & R1 & G1 & F1 & C1 & _).
    destruct (IH _ _ E2) as (c2 & R2 & G2 & F2 & C2).
    exists (List.app c1 c2). rewrite R2, R1, <- app_assoc.
    split; [reflexivity|]. split; [congruence|].
    split; [eapply files_grow_trans; eassumption|].
    apply Forall_app. split; [exact C1|]. rewrite G1 in C2. exact C2.
Qed.


(** The two ways a run completes: no model and nothing done, or the setup
    and the loop over the models. *)
Lemma process_batch_inv (config config' : RenderConfig) (w w' : World)
      (result : option Stats) :
  process_batch env config w = Ok (config', w', result) ->
  (find_models (flavour env) (input_tree env) (input_dir config) (formats config) = [] /\
   config' = config /\ w' = w /\ result = None) \/
  (exists m models sc st,
     find_models (flavour env) (input_tree env) (input_dir config) (formats config)
       = m :: models /\
     setup_scene config = Ok sc /\
     foldM (process_model env) (m :: models)
           (mkState config (set_scene sc w) (mkStats 0 0 0 [])) = Ok st /\
     config' = st_config st /\ w' = st_world st /\ result = Some (st_stats st)).
Proof.
  unfold process_batch.
  destruct (find_models (flavour env) (input_tree env) (input_dir config) (formats config))
    as [|m models].
  - intros E; inversion E; subst. left. repeat split; auto.
  - destruct (setup_scene config) as [sc|e0]; cbn [bind]; [|discriminate].
    destruct (foldM (process_model env) (m :: models)
                    (mkState config (set_scene sc w) (mkStats 0 0 0 [])))
      as [st|e] eqn:EL; cbn [bind]; [|discriminate].
    intros E; inversion E; subst. right. exists m, models, sc, st.
    repeat split; auto.
Qed.


End Batch.

(** C7: a batch run that completes hands the configuration back exactly as
    it received it; every configuration that a framing call saw during the
    run differs from it in the camera yaw at most; and a four-direction
    rotation loop that completes leaves the configuration, hence its camera
    yaw, as it was before the loop. *)
Theorem config_only_yaw_changes
        (env : Env) (config config' : RenderConfig) (w w' : World) (result : option Stats) :
  process_batch env config w = Ok (config', w', result) ->
  config' = config /\
  Forall (fun c => exists y, rc_config c = set_camera_yaw y config) (new_renders w w') /\
  (forall rel_path output_file st st',
     render_rotations env rel_path output_file st = Ok st' ->
     st_config st' = st_config st /\
     camera_yaw (st_config st') = camera_yaw (st_config st)).
Proof.
  intros E. split; [|split].
  - destruct (process_batch_inv env _ _ _ _ _ E)
      as [(_ & -> & _)|(m & models & sc & st & _ & _ & EL & -> & _)]; [reflexivity|].
    apply batch_loop_spec in EL. destruct EL as (_ & _ & G & _). exact G.
  - destruct (process_batch_inv env _ _ _ _ _ E)
      as [(_ & _ & -> & _)|(m & models & sc & st & _ & _ & EL & _ & -> & _)].
    + unfold new_renders. rewrite skipn_all. constructor.
    + apply batch_loop_spec in EL. simpl in EL.
      destruct EL as (calls & R & _ & _ & C).
      rewrite (new_renders_app _ _ _ R). exact C.
  - intros rel_path output_file st st' ER. apply render_rotations_spec in ER.
    destruct ER as (_ & _ & _ & G & _). rewrite G. auto.
Qed.

Lemma config_only_yaw_changes_witness :
  exists config' w' result,
    process_batch (studio one_model []) (batch_config 4 false (45 # 1)) world0 =
      Ok (config', w', result) /\
    config' = batch_config 4 false (45 # 1) /\
    map (fun c => camera_yaw (rc_config c)) (new_renders world0 w') = [0%Q; 90%Q; 180%Q; 270%Q].
Proof.
  destruct (process_batch (studio one_model []) (batch_config 4 false (45 # 1)) world0)
    as [[[config' w'] result]|e] eqn:E.
  - exists config', w', result. split; [reflexivity|]. split.
    + exact (proj1 (config_only_yaw_changes _ _ _ _ _ _ E)).
    + vm_compute in E. inversion E. reflexivity.
  - vm_compute in E. discriminate E.
Defined.

(* ---------------------------------------------------------------------- *)
(** ** Failure isolation *)
(* ---------------------------------------------------------------------- *)

Section FailureIsolation.

Variable env : Env.





End FailureIsolation.



(** Writing to the current directory: the target of a model at the top of
    the input tree has no directory part, [os.makedirs] raises on it, and
    the asset is counted as failed although the engine would write it. *)
Example output_without_directory :
  dirname "barrel.png" = "" /\
  exists w' result,
    process_batch (studio three_models []) here_config world0 =
      Ok (here_config, w', Some result) /\
    processed result = 1 /\ failed result = 2 /\
    failed_files result = ["barrel.glb"; "crate.stl"] /\
    map fst (files w') = ["props/tree.png"; "props/tree.json"].
Proof.
  split; [reflexivity|].
  destruct (process_batch (studio three_models []) here_config world0)
    as [[[c' w'] [r|]]|e] eqn:E; vm_compute in E; try discriminate E.
  inversion E; subst. eexists _, _. split; [reflexivity|]. repeat split.
Qed.

(* ---------------------------------------------------------------------- *)
(** ** The rotation sequence *)
(* ---------------------------------------------------------------------- *)

Section RotationSequence.

Variable env : Env.

Lemma rotation_calls_view (config : RenderConfig) (sc : Scene) (output_file : Path)
      (calls : list RenderCall) :
  mesh_count sc <> 0 ->
  Forall2 (rotation_call config sc output_file) rotations_table calls ->
  map call_view calls =
  [ (replace ".png" "_s.png" (path_str output_file),
     LookAtPose (bounds_center sc) (camera_angle config) 0%Q,
     Some (JInt 0), Some (JStr "South"));
    (replace ".png" "_e.png" (path_str output_file),
     LookAtPose (bounds_center sc) (camera_angle config) 90%Q,
     Some (JInt 90), Some (JStr "East"));
    (replace ".png" "_n.png" (path_str output_file),
     LookAtPose (bounds_center sc) (camera_angle config) 180%Q,
     Some (JInt 180), Some (JStr "North"));
    (replace ".png" "_w.png" (path_str output_file),
     LookAtPose (bounds_center sc) (camera_angle config) 270%Q,
     Some (JInt 270), Some (JStr "West")) ].
Proof.
  intros Hm F. unfold rotations_table in F.
  repeat match goal with
         | H : Forall2 _ (_ :: _) _ |- _ => inversion H; subst; clear H
         | H : Forall2 _ [] _ |- _ => inversion H; subst; clear H
         end.
  unfold rotation_call in *.
  repeat match goal with
         | H : _ /\ _ |- _ => destruct H as (_ & ?P & ?R & ?D & ?C & _)
         end.
  unfold call_view. simpl.
  repeat match goal with
         | H : mesh_count _ <> 0 -> _ |- _ => specialize (H Hm)
         end.
  repeat match goal with
         | H : _ = _ |- _ => rewrite H; clear H
         end.
  reflexivity.
Qed.

(** The calls of an asset that was rendered, for a scene with a mesh. *)
Lemma process_model_calls (st st' : State) (model_path rel_path output_file : Path) :
  process_model env st model_path = Ok st' ->
  output_file_of (st_config st) model_path = Ok (rel_path, output_file) ->
  new_renders (st_world st) (st_world st') <> [] ->
  mesh_count (scene (st_world st')) <> 0 ->
  (rotations (st_config st) = 4 ->
   Forall2 (rotation_call (st_config st) (scene (st_world st')) output_file)
           rotations_table (new_renders (st_world st) (st_world st'))) /\
  (rotations (st_config st) <> 4 ->
   exists c, new_renders (st_world st) (st_world st') = [c] /\
             single_call (st_config st) (scene (st_world st')) output_file c).
Proof.
  unfold process_model. intros E EO. rewrite EO in E. simpl in E. revert E.
  destruct (skip_existing (st_config st) && file_exists (st_world st) (path_str output_file)).
  { intros E; inversion E; subst. unfold new_renders. simpl. rewrite skipn_all. congruence. }
  destruct (import_model env _ model_path (scale_factor (st_config st)))
    as [w1 imported] eqn:EI.
  apply import_model_spec in EI. simpl in EI. destruct EI as [_ ER].
  destruct imported; simpl.
  - destruct (Z.eqb_spec (rotations (st_config st)) 4) as [R4|R4]; intros E _ Hm.
    + apply render_rotations_spec in E. simpl in E.
      destruct E as (calls & R & C & _ & _ & _ & _ & _ & _ & _ & _ & O).
      rewrite ER in R. rewrite (new_renders_app _ _ _ R).
      split; [intros _|contradiction].
      eapply Forall2_impl; [|exact C]. intros [[a s] d] c. unfold rotation_call.
      rewrite (mesh_count_objects _ _ O) in *. rewrite (bounds_center_objects _ _ O).
      intros (A1 & A2 & A3 & A4 & A5 & _). repeat split; auto. intros Hz; contradiction.
    + apply render_single_spec in E. simpl in E.
      destruct E as (c & R & C & _ & O & _).
      rewrite ER in R. rewrite (new_renders_app _ _ _ R).
      split; [contradiction|intros _]. exists c. split; [reflexivity|].
      unfold single_call in *.
      rewrite (mesh_count_objects _ _ O) in *. rewrite (bounds_center_objects _ _ O).
      destruct C as (A1 & A2 & A3 & A4 & A5 & _). repeat split; auto. intros Hz; contradiction.
  - intros E; inversion E; subst. unfold new_renders. simpl.
    rewrite ER, skipn_all. congruence.
Qed.

End RotationSequence.

(** C4, as stated, fails in its last part: with one rotation and a
    configured yaw of 45 degrees, the only sprite is rendered by a camera
    placed at yaw 45 while its metadata record 0 degrees. *)
Lemma recorded_rotation_counterexample :
  exists config' w' result c,
    process_batch (studio one_model []) (batch_config 1 false (45 # 1)) world0 =
      Ok (config', w', result) /\
    renders w' = [c] /\
    dict_get "rotation_degrees" (rc_metadata c) = Some (JInt 0) /\
    pose_yaw (rc_camera c) = (45 # 1)%Q /\
    ~ (pose_yaw (rc_camera c) == inject_Z 0)%Q.
Proof.
  destruct (process_batch (studio one_model []) (batch_config 1 false (45 # 1)) world0)
    as [[[config' w'] result]|e] eqn:E; vm_compute in E; [|discriminate E].
  inversion E; subst; clear E.
  eexists _, _, _, _. split; [reflexivity|]. split; [reflexivity|].
  split; [reflexivity|]. split; [reflexivity|]. simpl. intros H. discriminate H.
Qed.

(** C4 (amended): the table of the four-direction branch is, in order,
    South at 0 degrees with suffix [_s], East at 90 with [_e], North at 180
    with [_n], West at 270 with [_w].  For an asset that is rendered and
    brings at least one mesh: with [rotations = 4] the renders are exactly
    these four, in this order, each written to the output path with its
    suffix, by a camera placed at the yaw of the direction, its metadata
    recording that same angle and the label; with any other rotation count
    there is a single render, written to the output path without suffix, by
    a camera placed at the configured yaw, its metadata recording 0 degrees
    and South whatever that yaw is. *)
Theorem rotation_sequence
        (env : Env) (st st' : State) (model_path rel_path output_file : Path) :
  process_model env st model_path = Ok st' ->
  output_file_of (st_config st) model_path = Ok (rel_path, output_file) ->
  new_renders (st_world st) (st_world st') <> [] ->
  mesh_count (scene (st_world st')) <> 0 ->
  rotations_table =
    [ (0, "_s", "South"); (90, "_e", "East"); (180, "_n", "North"); (270, "_w", "West") ] /\
  (rotations (st_config st) = 4 ->
   map call_view (new_renders (st_world st) (st_world st')) =
   [ (replace ".png" "_s.png" (path_str output_file),
      LookAtPose (bounds_center (scene (st_world st'))) (camera_angle (st_config st)) 0%Q,
      Some (JInt 0), Some (JStr "South"));
     (replace ".png" "_e.png" (path_str output_file),
      LookAtPose (bounds_center (scene (st_world st'))) (camera_angle (st_config st)) 90%Q,
      Some (JInt 90), Some (JStr "East"));
     (replace ".png" "_n.png" (path_str output_file),
      LookAtPose (bounds_center (scene (st_world st'))) (camera_angle (st_config st)) 180%Q,
      Some (JInt 180), Some (JStr "North"));
     (replace ".png" "_w.png" (path_str output_file),
      LookAtPose (bounds_center (scene (st_world st'))) (camera_angle (st_config st)) 270%Q,
      Some (JInt 270), Some (JStr "West")) ]) /\
  (rotations (st_config st) <> 4 ->
   map call_view (new_renders (st_world st) (st_world st')) =
   [ (path_str output_file,
      LookAtPose (bounds_center (scene (st_world st'))) (camera_angle (st_config st))
                 (camera_yaw (st_config st)),
      Some (JInt 0), Some (JStr "South")) ]).
Proof.
  intros E EO HN HM. split; [reflexivity|].
  destruct (process_model_calls env _ _ _ _ _ E EO HN HM) as [C4 C1]. split.
  - intros R4. apply rotation_calls_view; auto.
  - intros R1. destruct (C1 R1) as (c & -> & A1 & A2 & A3 & A4 & A5 & _).
    unfold call_view. simpl. rewrite A2, A3, A4, (A5 HM). reflexivity.
Qed.

Lemma rotation_sequence_witness :
  exists st',
    process_model (studio one_model []) (fresh_state (batch_config 4 false (45 # 1)))
                  ["models"; "barrel.glb"] = Ok st' /\
    map call_view (new_renders (st_world (fresh_state (batch_config 4 false (45 # 1))))
                               (st_world st')) =
    [ ("sprites/barrel_s.png", LookAtPose (0 # 2, 0 # 2, 0 # 2)%Q 55%Q 0%Q,
       Some (JInt 0), Some (JStr "South"));
      ("sprites/barrel_e.png", LookAtPose (0 # 2, 0 # 2, 0 # 2)%Q 55%Q 90%Q,
       Some (JInt 90), Some (JStr "East"));
      ("sprites/barrel_n.png", LookAtPose (0 # 2, 0 # 2, 0 # 2)%Q 55%Q 180%Q,
       Some (JInt 180), Some (JStr "North"));
      ("sprites/barrel_w.png", LookAtPose (0 # 2, 0 # 2, 0 # 2)%Q 55%Q 270%Q,
       Some (JInt 270), Some (JStr "West")) ].
Proof.
  destruct (process_model (studio one_model []) (fresh_state (batch_config 4 false (45 # 1)))
                          ["models"; "barrel.glb"]) as [st'|e] eqn:E.
  - exists st'. split; [reflexivity|].
    destruct (rotation_sequence _ _ _ _ ["barrel.glb"] ["sprites"; "barrel.png"] E)
      as (_ & R4 & _).
    + reflexivity.
    + vm_compute in E. inversion E; subst st'. vm_compute. discriminate.
    + vm_compute in E. inversion E; subst st'. vm_compute. discriminate.
    + rewrite (R4 eq_refl). vm_compute in E. inversion E; subst st'. reflexivity.
  - vm_compute in E. discriminate E.
Defined.

(* ---------------------------------------------------------------------- *)
(** ** Skip-existing *)
(* ---------------------------------------------------------------------- *)

Section SkipExisting.

Variable env : Env.

(** With a single render per asset, an asset that does not add to the
    failed count leaves its target on disk: it was either already there or
    has just been written. *)
Lemma single_render_leaves_output (st st' : State) (model_path : Path) :
  rotations (st_config st) <> 4 ->
  process_model env st model_path = Ok st' ->
  failed (st_stats st) <= failed (st_stats st') /\
  (failed (st_stats st') = failed (st_stats st) ->
   exists rel_path output_file,
     output_file_of (st_config st) model_path = Ok (rel_path, output_file) /\
     file_exists (st_world st') (path_str output_file) = true).
Proof.
  intros R1. unfold process_model.
  destruct (output_file_of (st_config st) model_path) as [[rel_path output_file]|e];
    simpl; [|discriminate].
  destruct (skip_existing (st_config st) && file_exists (st_world st) (path_str output_file))
    eqn:ES.
  { intros E; inversion E; subst; clear E. simpl. split; [lia|]. intros _.
    apply andb_true_iff in ES. destruct ES as [_ ES]. eauto. }
  destruct (import_model env _ model_path (scale_factor (st_config st))) as [w1 imported].
  destruct imported; simpl.
  - destruct (Z.eqb_spec (rotations (st_config st)) 4) as [R4|_]; [contradiction|].
    intros E. apply render_single_spec in E. simpl in E.
    destruct E as (c & _ & C & _ & _ & _ & _ & K). destruct C as (_ & CP & _).
    destruct (rc_ok c).
    + destruct K as [K1 K2]. rewrite K2. simpl. split; [lia|]. intros _.
      rewrite CP in K1. eauto.
    + rewrite K. simpl. split; lia.
  - intros E; inversion E; subst; clear E. simpl. split; lia.
Qed.

Lemma single_render_batch_outputs (models : list Path) :
  forall st st' : State,
  rotations (st_config st) <> 4 ->
  foldM (process_model env) models st = Ok st' ->
  failed (st_stats st) <= failed (st_stats st') /\
  (failed (st_stats st') = failed (st_stats st) ->
   Forall (fun m => exists rel_path output_file,
                      output_file_of (st_config st) m = Ok (rel_path, output_file) /\
                      file_exists (st_world st') (path_str output_file) = true) models).
Proof.
  induction models as [|m models IH]; intros st st' R1; rewrite ?foldM_cons.
  - simpl. intros E; inversion E; subst. split; [lia|]. constructor.
  - destruct (process_model env st m) as [st1|e] eqn:E1; simpl; [|discriminate].
    intros E2.
    destruct (single_render_leaves_output _ _ _ R1 E1) as [L1 X1].
    destruct (process_model_spec env _ _ _ E1) as (_ & _ & G1 & _).
    rewrite <- G1 in R1.
    destruct (IH _ _ R1 E2) as [L2 X2].
    destruct (batch_loop_spec env _ _ _ E2) as (_ & _ & _ & F2 & _).
    split; [lia|]. intros EF. constructor.
    + destruct X1 as (rel_path & output_file & EO & EX); [lia|].
      exists rel_path, output_file. split; [exact EO|]. apply F2, EX.
    + rewrite G1 in X2. apply X2. lia.
Qed.

(** When every target is on disk, a run with skip-existing skips every
    model and touches nothing. *)
Lemma skip_all (config : RenderConfig) (w : World) (models : list Path) :
  skip_existing config = true ->
  Forall (fun m => exists rel_path output_file,
                     output_file_of config m = Ok (rel_path, output_file) /\
                     file_exists w (path_str output_file) = true) models ->
  forall p s f ff,
    foldM (process_model env) models (mkState config w (mkStats p s f ff)) =
    Ok (mkState config w (mkStats p (s + Z.of_nat (List.length models)) f ff)).
Proof.
  intros ES. induction 1 as [|m models (rel_path & output_file & EO & EX) _ IH];
    intros p s f ff; rewrite ?foldM_cons.
  - simpl. rewrite Z.add_0_r. reflexivity.
  - unfold process_model at 1. simpl st_config. rewrite EO. simpl bind.
    simpl st_world. rewrite ES, EX. simpl. unfold count_skipped. simpl.
    rewrite IH. do 3 f_equal. lia.
Qed.

(** X10, the sibling path of C1: with a single render per asset and
    skip-existing enabled, a run that ended without any failure is followed,
    on the same input, by a run that skips every asset, processes none, and
    leaves the files as they are. *)
Lemma skip_existing_idempotent_single
      (config config1 : RenderConfig) (w w1 : World) (s1 : Stats) :
  rotations config <> 4 ->
  skip_existing config = true ->
  process_batch env config w = Ok (config1, w1, Some s1) ->
  failed s1 = 0 ->
  exists w2 s2,
    process_batch env config1 w1 = Ok (config, w2, Some s2) /\
    processed s2 = 0 /\ failed s2 = 0 /\
    skipped s2 =
      Z.of_nat (List.length (find_models (flavour env) (input_tree env)
                                         (input_dir config) (formats config))) /\
    files w2 = files w1 /\ renders w2 = renders w1.
Proof.
  intros R1 ES E F0.
  destruct (process_batch_inv env _ _ _ _ _ E)
    as [(_ & _ & _ & N)|(m & models & sc & st & EM & E0 & EL & -> & -> & ES1)];
    [discriminate N|].
  inversion ES1; subst s1; clear ES1.
  destruct (batch_loop_spec env _ _ _ EL) as (_ & _ & G & _). simpl in G.
  destruct (single_render_batch_outputs
              _ (mkState config (set_scene sc w) (mkStats 0 0 0 [])) _ R1 EL)
    as [L X]. simpl in L, X.
  specialize (X ltac:(lia)).
  rewrite G. unfold process_batch. rewrite EM, E0. cbn [bind].
  rewrite (skip_all config (set_scene sc (st_world st)) (m :: models) ES X).
  simpl. eexists _, _. split; [reflexivity|]. simpl. repeat split.
Qed.

End SkipExisting.

(** C1 at a failing input: one model, four rotations, skip-existing
    enabled, every import and render succeeding.  The first run writes the
    four suffixed sprites with their sidecars and no [barrel.png]; the second
    run, on the files the first one left, looks for [barrel.png], does not
    find it, and renders the asset again: processed = 1 and skipped = 0,
    where the claim wants processed = 0 and skipped = 1. *)
Theorem skip_existing_misses_rotations :
  exists w1 w2,
    run_twice (studio one_model []) (batch_config 4 true 0%Q) world0 =
      Ok (w1, Some (mkStats 1 0 0 []), w2, Some (mkStats 1 0 0 [])) /\
    map fst (files w1) =
      [ "sprites/barrel_s.png"; "sprites/barrel_s.json";
        "sprites/barrel_e.png"; "sprites/barrel_e.json";
        "sprites/barrel_n.png"; "sprites/barrel_n.json";
        "sprites/barrel_w.png"; "sprites/barrel_w.json" ] /\
    file_exists w1 "sprites/barrel.png" = false.
Proof.
  destruct (run_twice (studio one_model []) (batch_config 4 true 0%Q) world0)
    as [[[[w1 s1] w2] s2]|e] eqn:E; vm_compute in E; [|discriminate E].
  inversion E; subst; clear E.
  eexists _, _. split; [reflexivity|]. split; reflexivity.
Qed.

(* ====================================================================== *)
(** * Further properties of the code *)
(* ====================================================================== *)

(* ---------------------------------------------------------------------- *)
(** ** The bounding box *)
(* ---------------------------------------------------------------------- *)

Section Bounds.

Lemma Qltb_true (x y : Q) : Qltb x y = true <-> (x < y)%Q.
Proof.
  unfold Qltb. rewrite negb_true_iff. split.
  - intros H. apply Qnot_le_lt. intros L. apply Qle_bool_iff in L. congruence.
  - intros H. destruct (Qle_bool y x) eqn:E; [|reflexivity].
    apply Qle_bool_iff in E. exfalso. exact (Qlt_not_le _ _ H E).
Qed.

Lemma Qltb_false (x y : Q) : Qltb x y = false <-> (y <= x)%Q.
Proof.
  unfold Qltb. rewrite negb_false_iff. apply Qle_bool_iff.
Qed.

(** The running minimum: below the start value and below every element, and
    it is the start value or one of the elements. *)
Lemma running_min (xs : list Q) :
  forall a : option Q,
  (a <> None \/ xs <> []) ->
  exists m,
    fold_left py_min xs a = Some m /\
    (forall x, In x xs -> (m <= x)%Q) /\
    (forall q, a = Some q -> (m <= q)%Q) /\
    (a = Some m \/ In m xs).
Proof.
  induction xs as [|x xs IH]; intros a H; simpl.
  - destruct a as [q|]; [|destruct H; congruence].
    exists q. repeat split; auto.
    + intros x [].
    + intros q' E; inversion E; subst. apply Qle_refl.
  - destruct (IH (py_min a x)) as (m & E & L & B & I).
    { left. destruct a as [q|]; simpl; [destruct (Qltb x q)|]; discriminate. }
    exists m. split; [exact E|].
    assert (Hx : (m <= x)%Q).
    { destruct a as [q|]; simpl in B; [|apply (B x); reflexivity].
      destruct (Qltb x q) eqn:EQ; [apply (B x); reflexivity|].
      apply Qltb_false in EQ. eapply Qle_trans; [apply (B q); reflexivity|exact EQ]. }
    split; [intros y [<-|Hy]; auto|]. split.
    + intros q ->. simpl in B. destruct (Qltb x q) eqn:EQ; [|apply (B q); reflexivity].
      apply Qltb_true in EQ. eapply Qle_trans; [exact Hx|]. apply Qlt_le_weak, EQ.
    + destruct I as [I|I]; [|right; right; exact I].
      destruct a as [q|]; simpl in I.
      * destruct (Qltb x q); inversion I; subst; auto.
      * inversion I; subst; auto.
Qed.

Lemma running_max (xs : list Q) :
  forall a : option Q,
  (a <> None \/ xs <> []) ->
  exists m,
    fold_left py_max xs a = Some m /\
    (forall x, In x xs -> (x <= m)%Q) /\
    (forall q, a = Some q -> (q <= m)%Q) /\
    (a = Some m \/ In m xs).
Proof.
  induction xs as [|x xs IH]; intros a H; simpl.
  - destruct a as [q|]; [|destruct H; congruence].
    exists q. repeat split; auto.
    + intros x [].
    + intros q' E; inversion E; subst. apply Qle_refl.
  - destruct (IH (py_max a x)) as (m & E & L & B & I).
    { left. destruct a as [q|]; simpl; [destruct (Qltb q x)|]; discriminate. }
    exists m. split; [exact E|].
    assert (Hx : (x <= m)%Q).
    { destruct a as [q|]; simpl in B; [|apply (B x); reflexivity].
      destruct (Qltb q x) eqn:EQ; [apply (B x); reflexivity|].
      apply Qltb_false in EQ. eapply Qle_trans; [exact EQ|apply (B q); reflexivity]. }
    split; [intros y [<-|Hy]; auto|]. split.
    + intros q ->. simpl in B. destruct (Qltb q x) eqn:EQ; [|apply (B q); reflexivity].
      apply Qltb_true in EQ. eapply Qle_trans; [|exact Hx]. apply Qlt_le_weak, EQ.
    + destruct I as [I|I]; [|right; right; exact I].
      destruct a as [q|]; simpl in I.
      * destruct (Qltb q x); inversion I; subst; auto.
      * inversion I; subst; auto.
Qed.

(** Each accumulator only sees its own coordinate. *)
Lemma fold_acc_corner (cs : list Vec3) :
  forall acc : BoundsAcc,
  fold_left acc_corner cs acc =
  mkAcc (fold_left py_min (map vx cs) (min_x acc)) (fold_left py_max (map vx cs) (max_x acc))
        (fold_left py_min (map vy cs) (min_y acc)) (fold_left py_max (map vy cs) (max_y acc))
        (fold_left py_min (map vz cs) (min_z acc)) (fold_left py_max (map vz cs) (max_z acc)).
Proof.
  induction cs as [|[[x y] z] cs IH]; intros acc; simpl.
  - destruct acc; reflexivity.
  - rewrite IH. reflexivity.
Qed.

(** The scan is a fold over the corners of the meshes alone. *)
Lemma scan_from (objs : list Object) :
  forall st : Z * BoundsAcc,
  snd (fold_left scan_object objs st) = fold_left acc_corner (mesh_corners objs) (snd st).
Proof.
  unfold mesh_corners.
  induction objs as [|o objs IH]; intros st; simpl; [reflexivity|].
  rewrite IH. unfold scan_object. destruct (is_mesh o); simpl; [|reflexivity].
  rewrite fold_left_app. reflexivity.
Qed.

Lemma scan_scene_corners (objs : list Object) :
  snd (scan_scene objs) =
  fold_left acc_corner (mesh_corners objs) (mkAcc None None None None None None).
Proof. unfold scan_scene. rewrite scan_from. reflexivity. Qed.

Lemma mesh_corners_nonempty (sc : Scene) :
  mesh_count sc <> 0 -> mesh_corners (objects sc) <> [].
Proof.
  rewrite mesh_count_filter. unfold mesh_corners.
  destruct (filter is_mesh (objects sc)) as [|o l]; simpl; [congruence|].
  intros _. discriminate.
Qed.

Lemma axis_bounds (f : Vec3 -> Q) (cs : list Vec3) :
  cs <> [] ->
  exists lo hi,
    fold_left py_min (map f cs) None = Some lo /\
    fold_left py_max (map f cs) None = Some hi /\
    (forall c, In c cs -> (lo <= f c)%Q /\ (f c <= hi)%Q) /\
    (exists c, In c cs /\ f c = lo) /\
    (exists c, In c cs /\ f c = hi).
Proof.
  intros N.
  assert (N' : map f cs <> []) by (destruct cs; [congruence|discriminate]).
  destruct (running_min (map f cs) None (or_intror N')) as (lo & E1 & L1 & _ & I1).
  destruct (running_max (map f cs) None (or_intror N')) as (hi & E2 & L2 & _ & I2).
  exists lo, hi. split; [exact E1|]. split; [exact E2|]. split; [|split].
  - intros c Hc. split; [apply L1|apply L2]; apply in_map; exact Hc.
  - destruct I1 as [I1|I1]; [discriminate|]. apply in_map_iff in I1.
    destruct I1 as (c & E & Hc). eauto.
  - destruct I2 as [I2|I2]; [discriminate|]. apply in_map_iff in I2.
    destruct I2 as (c & E & Hc). eauto.
Qed.

(** The metadata and the camera that the framing of a scene with a mesh
    builds from the accumulators of the scan. *)
Lemma calc_mesh_result (sc sc' : Scene) (config : RenderConfig) (size : Z) (md : dict) :
  mesh_count sc <> 0 ->
  calculate_canvas_and_position sc config = Ok (sc', (size, md)) ->
  render_resolution sc' = kept_resolution size /\
  md = [ ("canvas_width", JInt size);
         ("canvas_height", JInt size);
         ("ortho_scale", JFloat (ortho_scale config));
         ("pixels_per_unit", JFloat (pixels_per_unit config));
         ("object_bounds",
          JObj [ ("width", JFloat (fin (max_x (snd (scan_scene (objects sc))))
                                   - fin (min_x (snd (scan_scene (objects sc)))))%Q);
                 ("height", JFloat (fin (max_y (snd (scan_scene (objects sc))))
                                    - fin (min_y (snd (scan_scene (objects sc)))))%Q);
                 ("depth", JFloat (fin (max_z (snd (scan_scene (objects sc))))
                                   - fin (min_z (snd (scan_scene (objects sc)))))%Q);
                 ("center", JObj [ ("x", JFloat (vx (bounds_center sc)));
                                   ("y", JFloat (vy (bounds_center sc)));
                                   ("z", JFloat (vz (bounds_center sc))) ]) ]) ].
Proof.
  unfold mesh_count, bounds_center, calculate_canvas_and_position.
  destruct (scan_scene (objects sc)) as [n acc]; simpl. intros Hn.
  destruct (Z.eqb_spec n 0); [contradiction|].
  destruct (canvas_size_of config) as [s|e]; simpl; [|discriminate].
  destruct (assign_resolution s _) as [sc1|e] eqn:EA; simpl; [|discriminate].
  apply assign_resolution_inv in EA. destruct EA as [-> _].
  intros E; inversion E; subst. auto.
Qed.

Lemma scan_scene_filter (objs : list Object) :
  scan_scene (filter is_mesh objs) = scan_scene objs.
Proof.
  assert (F : filter is_mesh (filter is_mesh objs) = filter is_mesh objs).
  { induction objs as [|o l IH]; simpl; [reflexivity|].
    destruct (is_mesh o) eqn:E; simpl; rewrite ?E, IH; reflexivity. }
  apply injective_projections.
  - unfold scan_scene. rewrite !scan_count_from, F. reflexivity.
  - rewrite !scan_scene_corners. unfold mesh_corners. rewrite F. reflexivity.
Qed.

End Bounds.

(** X3: objects that are not meshes do not count: two scenes with the same
    MESH objects in the same order, the same camera and the same resolution
    get the same answer from the framing, whatever empties, armatures or
    curves they contain. *)
Theorem framing_sees_meshes_only (sc1 sc2 : Scene) (config : RenderConfig) :
  filter is_mesh (objects sc1) = filter is_mesh (objects sc2) ->
  camera sc1 = camera sc2 ->
  render_resolution sc1 = render_resolution sc2 ->
  framing_answer (calculate_canvas_and_position sc1 config) =
  framing_answer (calculate_canvas_and_position sc2 config).
Proof.
  intros EF EC ER. unfold calculate_canvas_and_position.
  rewrite <- (scan_scene_filter (objects sc1)), <- (scan_scene_filter (objects sc2)), EF.
  destruct (scan_scene (filter is_mesh (objects sc2))) as [n acc].
  destruct (n =? 0); simpl; [rewrite EC, ER; reflexivity|].
  destruct (canvas_size_of config) as [size|e]; [|reflexivity].
  unfold assign_resolution. cbn [bind].
  destruct (int_property size); reflexivity.
Qed.

Lemma framing_sees_meshes_only_witness :
  framing_answer (calculate_canvas_and_position cluttered_scene (batch_config 1 false 0%Q)) =
  framing_answer (calculate_canvas_and_position
                    (set_objects (filter is_mesh (objects cluttered_scene)) cluttered_scene)
                    (batch_config 1 false 0%Q)).
Proof.
  apply (framing_sees_meshes_only cluttered_scene
           (set_objects (filter is_mesh (objects cluttered_scene)) cluttered_scene));
    reflexivity.
Defined.

(* ---------------------------------------------------------------------- *)
(** ** Files: the crop and the sidecar *)
(* ---------------------------------------------------------------------- *)

Section Files.

Lemma read_write_same (p : string) (c : FileContent) (fs : list (string * FileContent)) :
  read_entry p (write_entry p c fs) = Some c.
Proof.
  induction fs as [|[q d] fs IH]; simpl.
  - rewrite String.eqb_refl. reflexivity.
  - destruct (String.eqb q p) eqn:E; simpl; rewrite ?String.eqb_refl, ?E; auto.
Qed.

Lemma read_write_other (p q : string) (c : FileContent) (fs : list (string * FileContent)) :
  q <> p -> read_entry q (write_entry p c fs) = read_entry q fs.
Proof.
  intros N. induction fs as [|[r d] fs IH]; simpl.
  - destruct (String.eqb_spec p q); [congruence|reflexivity].
  - destruct (String.eqb_spec r p); simpl.
    + subst r. destruct (String.eqb_spec p q); [congruence|reflexivity].
    + destruct (String.eqb_spec r q); auto.
Qed.

Lemma file_content_write_same (p : string) (c : FileContent) (w : World) :
  file_content (write_file p c w) p = Some c.
Proof. apply read_write_same. Qed.

Lemma file_content_write_other (p q : string) (c : FileContent) (w : World) :
  q <> p -> file_content (write_file p c w) q = file_content w q.
Proof. apply read_write_other. Qed.

Lemma file_exists_content (w : World) (p : string) :
  file_exists w p = true <-> file_content w p <> None.
Proof.
  unfold file_exists, file_content. induction (files w) as [|[q d] fs IH]; simpl.
  - split; [discriminate|congruence].
  - destruct (String.eqb q p); simpl; [split; [discriminate|reflexivity]|exact IH].
Qed.

Lemma dict_get_app (k : string) (a b : dict) :
  dict_get k (List.app a b) =
  match dict_get k a with Some v => Some v | None => dict_get k b end.
Proof.
  induction a as [|[k' v'] a IH]; simpl; [reflexivity|].
  destruct (String.eqb k' k); auto.
Qed.

Lemma dict_get_set (k k' : string) (v : json) (d : dict) :
  dict_get k (dict_set k' v d) = if String.eqb k' k then Some v else dict_get k d.
Proof.
  destruct (String.eqb_spec k' k) as [->|N].
  - apply dict_get_set_same.
  - apply dict_get_set_other. congruence.
Qed.

End Files.

(** After [d.update(other)] a key reads what [other] says last about it,
    and what [d] said when [other] does not mention it. *)
Lemma dict_update_lookup (d other : dict) (k : string) :
  dict_get k (dict_update d other) =
  match dict_get k (rev other) with
  | Some v => Some v
  | None => dict_get k d
  end.
Proof.
  unfold dict_update. revert d. induction other as [|[k' v'] other IH]; intros d; simpl.
  - reflexivity.
  - rewrite IH, dict_get_app. destruct (dict_get k (rev other)); [reflexivity|].
    simpl. rewrite dict_get_set. destruct (String.eqb k' k); reflexivity.
Qed.

(** X6: [auto_crop_sprite] answers an empty dictionary, and then leaves the
    world exactly as it was, when PIL is missing, the image cannot be opened
    or it has no visible pixel; otherwise it rewrites that one image file,
    cropped, touches no other file, and answers the size of the image, the
    top-left corner of the bounding box as offset and the extent of the box
    as size, so that offset plus size is the bottom-right corner of the
    box. *)
Theorem auto_crop_sprite_cases (env : Env) (w w' : World) (image_path : string) (d : dict) :
  auto_crop_sprite env w image_path = (w', d) ->
  (d = [] /\ w' = w /\
   (PIL_AVAILABLE env = false \/ image_open env image_path = None \/
    exists img, image_open env image_path = Some img /\ img_bbox img = None))
  \/
  (exists img b0 b1 b2 b3,
     PIL_AVAILABLE env = true /\
     image_open env image_path = Some img /\ img_bbox img = Some (b0, b1, b2, b3) /\
     d = [ ("original_size", JObj [("w", JInt (fst (img_size img)));
                                   ("h", JInt (snd (img_size img)))]);
           ("crop_offset", JObj [("x", JInt b0); ("y", JInt b1)]);
           ("cropped_size", JObj [("w", JInt (b2 - b0)); ("h", JInt (b3 - b1))]) ] /\
     b0 + (b2 - b0) = b2 /\ b1 + (b3 - b1) = b3 /\
     file_content w' image_path = Some (PngFile true) /\
     (forall q, q <> image_path -> file_content w' q = file_content w q) /\
     scene w' = scene w /\ renders w' = renders w).
Proof.
  unfold auto_crop_sprite. destruct (PIL_AVAILABLE env) eqn:EP; simpl.
  - destruct (image_open env image_path) as [img|] eqn:EI.
    + destruct (img_bbox img) as [[[[b0 b1] b2] b3]|] eqn:EB; intros E; inversion E; subst.
      * right. exists img, b0, b1, b2, b3.
        repeat split; auto using file_content_write_same, file_content_write_other; lia.
      * left. repeat split; auto. right; right. eauto.
    + intros E; inversion E; subst. left. auto.
  - intros E; inversion E; subst. left. auto.
Qed.

Lemma auto_crop_sprite_cases_witness :
  exists w',
    auto_crop_sprite (darkroom None []) (write_file "sprites/a.png" (PngFile false) world0)
                     "sprites/a.png"
    = (w', []) /\
    w' = write_file "sprites/a.png" (PngFile false) world0.
Proof.
  destruct (auto_crop_sprite (darkroom None [])
              (write_file "sprites/a.png" (PngFile false) world0) "sprites/a.png")
    as [w' d] eqn:E.
  destruct (auto_crop_sprite_cases _ _ _ _ _ E) as [(-> & -> & _)|H].
  - eexists. split; reflexivity.
  - destruct H as (img & b0 & b1 & b2 & b3 & _ & EI & EB & _).
    vm_compute in EI. inversion EI; subst img. discriminate EB.
Defined.

(** X7: [export_metadata] writes next to the image, at the image path with
    [.png] replaced by [.json]; when it answers [True] that file holds
    exactly the metadata it was given, whatever it held before, and no other
    file changed; when it answers [False] nothing changed at all. *)
Theorem export_metadata_writes_sidecar
        (env : Env) (w w' : World) (output_path : string) (metadata : dict) (ok : bool) :
  export_metadata env w output_path metadata = (w', ok) ->
  (ok = true ->
   file_content w' (replace ".png" ".json" output_path) = Some (JsonFile metadata) /\
   (forall q, q <> replace ".png" ".json" output_path ->
              file_content w' q = file_content w q)) /\
  (ok = false -> w' = w) /\
  scene w' = scene w /\ renders w' = renders w.
Proof.
  unfold export_metadata. destruct (makedirs env _ && json_writable env _);
    intros E; inversion E; subst.
  - repeat split; auto using file_content_write_same, file_content_write_other. discriminate.
  - repeat split; auto; discriminate.
Qed.

Lemma export_metadata_writes_sidecar_witness :
  file_content
    (fst (export_metadata (darkroom None [])
            (write_file "sprites/a.json" (JsonFile [("stale", JInt 1)]) world0)
            "sprites/a.png" [("direction", JStr "South")]))
    "sprites/a.json"
  = Some (JsonFile [("direction", JStr "South")]).
Proof.
  destruct (export_metadata (darkroom None [])
              (write_file "sprites/a.json" (JsonFile [("stale", JInt 1)]) world0)
              "sprites/a.png" [("direction", JStr "South")]) as [w' ok] eqn:E.
  destruct (export_metadata_writes_sidecar _ _ _ _ _ _ E) as (A & _).
  simpl. apply A. vm_compute in E. inversion E. reflexivity.
Defined.

Section Sidecar.

Variable env : Env.

(** The crop metadata have three keys of their own. *)
Lemma crop_keys (w w' : World) (image_path : string) (d : dict) (k : string) :
  auto_crop_sprite env w image_path = (w', d) ->
  k <> "original_size" -> k <> "crop_offset" -> k <> "cropped_size" ->
  dict_get k (rev d) = None.
Proof.
  intros E N1 N2 N3.
  destruct (auto_crop_sprite_cases _ _ _ _ _ E) as [(-> & _)|H]; [reflexivity|].
  destruct H as (img & b0 & b1 & b2 & b3 & _ & _ & _ & -> & _). cbn -[String.eqb].
  destruct (String.eqb_spec "cropped_size" k); [congruence|].
  destruct (String.eqb_spec "crop_offset" k); [congruence|].
  destruct (String.eqb_spec "original_size" k); [congruence|reflexivity].
Qed.

Lemma render_sprite_written (w : World) (p : string) :
  renders_to env p ->
  render_sprite env w p = (write_file p (PngFile false) w, true).
Proof. unfold render_sprite. intros [-> H]. rewrite H. reflexivity. Qed.

(** The crop and the sidecar that follow a successful render: the sidecar
    holds the metadata of the render, with the crop keys added at most. *)
Lemma crop_then_export (crop : bool) (w w1 w' : World) (image : string)
      (md md1 : dict) (b : bool) :
  (if crop
   then let '(w2, crop_meta) := auto_crop_sprite env w image in
        (w2, dict_update md crop_meta)
   else (w, md)) = (w1, md1) ->
  export_metadata env w1 image md1 = (w', b) ->
  sidecar_writable env image ->
  file_exists w image = true ->
  file_exists w' image = true /\
  exists md',
    file_content w' (replace ".png" ".json" image) = Some (JsonFile md') /\
    forall k, k <> "original_size" -> k <> "crop_offset" -> k <> "cropped_size" ->
              dict_get k md' = dict_get k md.
Proof.
  intros E1 E [EM EJ] EX. destruct crop.
  - destruct (auto_crop_sprite env w image) as [w2 cm] eqn:EC.
    inversion E1; subst; clear E1.
    pose proof (auto_crop_sprite_spec _ _ _ _ _ EC) as (_ & _ & F2).
    pose proof (export_metadata_spec _ _ _ _ _ _ E) as (_ & _ & F3).
    unfold export_metadata in E. rewrite EM, EJ in E. inversion E; subst.
    split; [apply F3, F2, EX|].
    eexists. split; [apply file_content_write_same|].
    intros k N1 N2 N3. rewrite dict_update_lookup, (crop_keys _ _ _ _ k EC); auto.
  - inversion E1; subst; clear E1.
    pose proof (export_metadata_spec _ _ _ _ _ _ E) as (_ & _ & F3).
    unfold export_metadata in E. rewrite EM, EJ in E. inversion E; subst.
    split; [apply F3, EX|].
    eexists. split; [apply file_content_write_same|]. reflexivity.
Qed.

End Sidecar.

(** X8: when the directory of the image of a direction can be made, the
    engine writes the image and the sidecar can be written, the pass through
    the rotation loop leaves the image on
    disk and, next to it, a sidecar whose rotation_degrees and direction are
    the angle and the label of that direction, whether or not the crop
    added its own keys; the single-render branch does the same with 0 and
    South at the unsuffixed path. *)
Theorem sidecar_records_direction
        (env : Env) (rel_path output_file : Path) (st st' : State) :
  (forall (b b' : bool) (angle : Z) (suffix direction : string),
     render_rotation env rel_path output_file (st, b) (angle, suffix, direction)
       = Ok (st', b') ->
     renders_to env (replace ".png" (suffix ++ ".png") (path_str output_file)) ->
     sidecar_writable env (replace ".png" (suffix ++ ".png") (path_str output_file)) ->
     file_exists (st_world st')
                 (replace ".png" (suffix ++ ".png") (path_str output_file)) = true /\
     exists md,
       file_content (st_world st')
         (replace ".png" ".json"
                  (replace ".png" (suffix ++ ".png") (path_str output_file)))
         = Some (JsonFile md) /\
       dict_get "rotation_degrees" md = Some (JInt angle) /\
       dict_get "direction" md = Some (JStr direction)) /\
  (render_single env rel_path output_file st = Ok st' ->
   renders_to env (path_str output_file) ->
   sidecar_writable env (path_str output_file) ->
   file_exists (st_world st') (path_str output_file) = true /\
   exists md,
     file_content (st_world st') (replace ".png" ".json" (path_str output_file))
       = Some (JsonFile md) /\
     dict_get "rotation_degrees" md = Some (JInt 0) /\
     dict_get "direction" md = Some (JStr "South")).
Proof.
  split.
  - intros b b' angle suffix direction. unfold render_rotation.
    destruct (calculate_canvas_and_position _ _) as [[sc [size md0]]|e]; simpl; [|discriminate].
    intros E EW EJ. rewrite render_sprite_written in E by exact EW. simpl in E.
    match type of E with
    | (let '(w, _) := ?X in _) = _ => destruct X as [w1 md1] eqn:EX1
    end.
    destruct (export_metadata env w1 _ md1) as [w3 ok3] eqn:EX2.
    inversion E; subst; clear E. simpl.
    destruct (crop_then_export env _ _ _ _ _ _ _ _ EX1 EX2 EJ (file_exists_write _ _ _))
      as (FX & md & FC & K).
    split; [exact FX|].
    exists md. split; [exact FC|].
    rewrite !K by discriminate.
    rewrite dict_get_set_other by discriminate. rewrite !dict_get_set_same. auto.
  - unfold render_single.
    destruct (calculate_canvas_and_position _ _) as [[sc [size md0]]|e]; simpl; [|discriminate].
    intros E EW EJ. rewrite render_sprite_written in E by exact EW. simpl in E.
    match type of E with
    | (let '(w, _) := ?X in _) = _ => destruct X as [w1 md1] eqn:EX1
    end.
    destruct (export_metadata env w1 _ md1) as [w3 ok3] eqn:EX2.
    inversion E; subst; clear E. simpl.
    destruct (crop_then_export env _ _ _ _ _ _ _ _ EX1 EX2 EJ (file_exists_write _ _ _))
      as (FX & md & FC & K).
    split; [exact FX|].
    exists md. split; [exact FC|].
    rewrite !K by discriminate.
    rewrite dict_get_set_other by discriminate. rewrite !dict_get_set_same. auto.
Qed.

Lemma sidecar_records_direction_witness :
  exists st' md,
    render_single (studio one_model []) ["barrel.glb"] ["sprites"; "barrel.png"]
                  (fresh_state (batch_config 1 false 0%Q)) = Ok st' /\
    file_content (st_world st') "sprites/barrel.json" = Some (JsonFile md) /\
    dict_get "direction" md = Some (JStr "South").
Proof.
  destruct (render_single (studio one_model []) ["barrel.glb"] ["sprites"; "barrel.png"]
                          (fresh_state (batch_config 1 false 0%Q))) as [st'|e] eqn:E.
  - destruct (sidecar_records_direction (studio one_model []) ["barrel.glb"]
                ["sprites"; "barrel.png"] (fresh_state (batch_config 1 false 0%Q)) st')
      as [_ S].
    destruct (S E) as (_ & md & FC & _ & D); try (split; intros; reflexivity).
    exists st', md. split; [reflexivity|]. split; [exact FC|exact D].
  - vm_compute in E. discriminate E.
Defined.

(* ---------------------------------------------------------------------- *)
(** ** The counters of a run *)
(* ---------------------------------------------------------------------- *)

Section Accounting.

Variable env : Env.

Lemma tidy_count_processed (s : Stats) : tidy s -> tidy (count_processed s).
Proof. unfold tidy. simpl. intros (A & B & C). repeat split; auto; lia. Qed.

Lemma tidy_count_skipped (s : Stats) : tidy s -> tidy (count_skipped s).
Proof. unfold tidy. simpl. intros (A & B & C). repeat split; auto; lia. Qed.

Lemma tidy_count_failed (name : string) (s : Stats) : tidy s -> tidy (count_failed name s).
Proof.
  unfold tidy. simpl. intros (A & B & C). rewrite length_app. simpl.
  repeat split; auto; lia.
Qed.

Lemma failed_calls_length (calls : list RenderCall) :
  (List.length (failed_calls calls) <= List.length calls)%nat /\
  (forallb rc_ok calls = true -> failed_calls calls = []) /\
  (forallb rc_ok calls = false -> (1 <= List.length (failed_calls calls))%nat).
Proof.
  unfold failed_calls. induction calls as [|c l (A & B & C)]; simpl.
  - repeat split; auto. discriminate.
  - destruct (rc_ok c); simpl; repeat split; auto; try lia; discriminate.
Qed.

Lemma rotation_loop_tidy (rel_path output_file : Path) (rots : list (Z * string * string)) :
  forall (st st' : State) (b b' : bool),
  foldM (render_rotation env rel_path output_file) rots (st, b) = Ok (st', b') ->
  tidy (st_stats st) -> tidy (st_stats st').
Proof.
  induction rots as [|rot rots IH]; intros st st' b b'; rewrite ?foldM_cons.
  - simpl. intros E; inversion E; subst. auto.
  - destruct (render_rotation env rel_path output_file (st, b) rot) as [[st1 b1]|e] eqn:E1;
      simpl; [|discriminate].
    intros E2 T. apply (IH _ _ _ _ E2).
    destruct (render_rotation_spec _ _ _ _ _ _ _ _ E1) as (c & _ & _ & _ & _ & _ & _ & _ & K).
    destruct (rc_ok c).
    + destruct K as (_ & -> & _). exact T.
    + destruct K as (-> & _). apply tidy_count_failed, T.
Qed.

(** What one asset adds to the counters. *)
Lemma process_model_accounting (st st' : State) (model_path : Path) :
  process_model env st model_path = Ok st' ->
  tidy (st_stats st) ->
  tidy (st_stats st') /\
  accounted (st_stats st) + 1 <= accounted (st_stats st') <= accounted (st_stats st) + 4 /\
  (rotations (st_config st) <> 4 ->
   accounted (st_stats st') = accounted (st_stats st) + 1) /\
  processed (st_stats st) + skipped (st_stats st)
    <= processed (st_stats st') + skipped (st_stats st')
    <= processed (st_stats st) + skipped (st_stats st) + 1.
Proof.
  unfold process_model, accounted.
  destruct (output_file_of (st_config st) model_path) as [[rel_path output_file]|e];
    simpl; [|discriminate].
  destruct (skip_existing (st_config st) && file_exists (st_world st) (path_str output_file)).
  { intros E T; inversion E; subst; clear E. simpl.
    split; [apply tidy_count_skipped, T|]. lia. }
  destruct (import_model env _ model_path (scale_factor (st_config st))) as [w1 imported].
  destruct imported; simpl.
  - destruct (Z.eqb_spec (rotations (st_config st)) 4) as [R4|R4].
    + intros E T.
      assert (T' : tidy (st_stats st')).
      { unfold render_rotations in E.
        destruct (foldM _ _ _) as [[st1 b1]|e] eqn:EL; simpl in E; [|discriminate].
        apply rotation_loop_tidy in EL; [|exact T].
        destruct b1; inversion E; subst; simpl; auto using tidy_count_processed. }
      apply render_rotations_spec in E. simpl in E.
      destruct E as (calls & _ & C & _ & _ & _ & _ & P & S & D & _).
      destruct (failed_calls_length calls) as (L1 & L2 & L3).
      assert (L4 : List.length calls = 4%nat)
        by (apply Forall2_length in C; simpl in C; lia).
      split; [exact T'|].
      destruct (forallb rc_ok calls).
      * rewrite (L2 eq_refl) in D. simpl in D. lia.
      * specialize (L3 eq_refl). lia.
    + intros E T. apply render_single_spec in E. simpl in E.
      destruct E as (c & _ & _ & _ & _ & _ & _ & K).
      destruct (rc_ok c).
      * destruct K as [_ ->]. split; [apply tidy_count_processed, T|]. simpl. lia.
      * rewrite K. split; [apply tidy_count_failed, T|]. simpl. lia.
  - intros E T; inversion E; subst; clear E. simpl.
    split; [apply tidy_count_failed, T|]. lia.
Qed.

Lemma batch_loop_accounting (models : list Path) :
  forall st st' : State,
  foldM (process_model env) models st = Ok st' ->
  tidy (st_stats st) ->
  tidy (st_stats st') /\
  accounted (st_stats st) + Z.of_nat (List.length models) <= accounted (st_stats st')
    <= accounted (st_stats st) + 4 * Z.of_nat (List.length models) /\
  (rotations (st_config st) <> 4 ->
   accounted (st_stats st') = accounted (st_stats st) + Z.of_nat (List.length models)) /\
  processed (st_stats st') + skipped (st_stats st')
    <= processed (st_stats st) + skipped (st_stats st) + Z.of_nat (List.length models).
Proof.
  induction models as [|m models IH]; intros st st'; rewrite ?foldM_cons.
  - simpl. intros E T; inversion E; subst. split; [exact T|]. repeat split; lia.
  - destruct (process_model env st m) as [st1|e] eqn:E1; simpl bind; [|discriminate].
    intros E2 T.
    destruct (process_model_accounting _ _ _ E1 T) as (T1 & A1 & R1 & P1).
    destruct (process_model_spec env _ _ _ E1) as (_ & _ & G1 & _).
    destruct (IH _ _ E2 T1) as (T2 & A2 & R2 & P2).
    rewrite G1 in R2. simpl List.length. rewrite Nat2Z.inj_succ.
    split; [exact T2|]. split; [lia|]. split; [|lia].
    intros R. specialize (R1 R). specialize (R2 R). lia.
Qed.

End Accounting.

(** X9: the counters of a completed run.  The failed list has exactly one
    entry per failure counted.  With a single render per asset every model
    found is counted exactly once: processed + skipped + failed is the number
    of models.  With four rotations the failed count goes by render, not by
    asset, so the sum lies between the number of models and four times that
    number, while processed + skipped never exceeds the number of models. *)
Theorem counters_account_for_models
        (env : Env) (config config' : RenderConfig) (w w' : World) (s : Stats) :
  process_batch env config w = Ok (config', w', Some s) ->
  let n := Z.of_nat (List.length (find_models (flavour env) (input_tree env)
                                              (input_dir config) (formats config))) in
  Z.of_nat (List.length (failed_files s)) = failed s /\
  0 <= processed s /\ 0 <= skipped s /\ 0 <= failed s /\
  n <= processed s + skipped s + failed s <= 4 * n /\
  (rotations config <> 4 -> processed s + skipped s + failed s = n) /\
  processed s + skipped s <= n.
Proof.
  intros E.
  destruct (process_batch_inv env _ _ _ _ _ E)
    as [(_ & _ & _ & N)|(m & models & sc & st & EM & _ & EL & _ & _ & ES)];
    [discriminate N|].
  rewrite EM. inversion ES; subst s; clear ES.
  apply batch_loop_accounting in EL; [|unfold tidy; simpl; lia].
  unfold accounted, tidy in EL. simpl in EL.
  destruct EL as ((T1 & T2 & T3) & A & R & P).
  simpl. repeat split; auto; lia.
Qed.

Lemma counters_account_for_models_witness :
  exists w' s,
    process_batch (studio three_models ["sprites/barrel_e.png"; "sprites/barrel_w.png"])
                  (batch_config 4 false 0%Q) world0
      = Ok (batch_config 4 false 0%Q, w', Some s) /\
    3 <= processed s + skipped s + failed s <= 12 /\
    processed s = 1 /\ failed s = 3.
Proof.
  destruct (process_batch (studio three_models ["sprites/barrel_e.png"; "sprites/barrel_w.png"])
                          (batch_config 4 false 0%Q) world0)
    as [[[c' w'] [s|]]|e] eqn:E; try (vm_compute in E; discriminate E).
  pose proof (counters_account_for_models _ _ _ _ _ _ E) as (_ & _ & _ & _ & A & _).
  vm_compute in E. inversion E; subst; clear E.
  eexists _, _. split; [reflexivity|]. split; [exact A|]. split; reflexivity.
Defined.

(* ---------------------------------------------------------------------- *)
(** ** Names, suffixes and targets *)
(* ---------------------------------------------------------------------- *)

Section Names.

Lemma length_append (a b : string) :
  String.length (a ++ b) = (String.length a + String.length b)%nat.
Proof. induction a as [|c a IH]; simpl; auto. Qed.

Lemma append_nil_r (a : string) : (a ++ "")%string = a.
Proof. induction a as [|c a IH]; simpl; congruence. Qed.

Lemma append_assoc (a b c : string) : ((a ++ b) ++ c)%string = (a ++ (b ++ c))%string.
Proof. induction a as [|x a IH]; simpl; congruence. Qed.

Lemma substring_full (s : string) : substring 0 (String.length s) s = s.
Proof. induction s as [|c s IH]; simpl; congruence. Qed.

Lemma substring_zero (s : string) : substring 0 0 s = "".
Proof. destruct s; reflexivity. Qed.

Lemma substring_split (s : string) :
  forall n, (n <= String.length s)%nat ->
  (substring 0 n s ++ substring n (String.length s - n) s)%string = s.
Proof.
  induction s as [|c s IH]; intros [|n] H; simpl in *; try reflexivity; try lia.
  - rewrite substring_full. reflexivity.
  - rewrite IH by lia. reflexivity.
Qed.

Lemma substring_length (s : string) :
  forall n, (n <= String.length s)%nat ->
  String.length (substring n (String.length s - n) s) = (String.length s - n)%nat.
Proof.
  induction s as [|c s IH]; intros [|n] H; simpl in *; try reflexivity; try lia.
  - rewrite substring_full. reflexivity.
  - apply IH. lia.
Qed.

Lemma substring_app_skip (a b : string) :
  substring (String.length a) (String.length b) (a ++ b) = b.
Proof.
  induction a as [|c a IH]; simpl; [apply substring_full|exact IH].
Qed.

Lemma substring_app_take (a b : string) : substring 0 (String.length a) (a ++ b) = a.
Proof.
  induction a as [|c a IH]; simpl; [apply substring_zero|rewrite IH; reflexivity].
Qed.

Lemma endswith_decompose (p s : string) :
  endswith p s = true <-> exists pre, s = (pre ++ p)%string.
Proof.
  induction s as [|c s IH]; simpl.
  - rewrite String.eqb_eq. split.
    + intros ->. exists "". reflexivity.
    + intros [[|x pre] E]; simpl in E; [auto|discriminate].
  - rewrite orb_true_iff, String.eqb_eq, IH. split.
    + intros [->|[pre ->]]; [exists ""; reflexivity|exists (String c pre); reflexivity].
    + intros [[|x pre] E]; simpl in E; [left; auto|].
      inversion E; subst. right. eauto.
Qed.

Lemma rfind_app (c : ascii) (a b : string) :
  rfind c (a ++ b) =
  match rfind c b with
  | Some i => Some (String.length a + i)%nat
  | None => rfind c a
  end.
Proof.
  induction a as [|x a IH]; simpl.
  - destruct (rfind c b); reflexivity.
  - rewrite IH. destruct (rfind c b); reflexivity.
Qed.

(** A name is its stem followed by its suffix. *)
Lemma name_split (name : string) :
  (substring 0 (String.length name - String.length (name_suffix name)) name
   ++ name_suffix name)%string = name.
Proof.
  unfold name_suffix. destruct (rfind "." name) as [i|].
  - destruct ((0 <? i)%nat && (i <? String.length name - 1)%nat) eqn:E.
    + apply andb_true_iff in E. destruct E as [_ E]. apply Nat.ltb_lt in E.
      rewrite substring_length by lia.
      replace (String.length name - (String.length name - i))%nat with i by lia.
      apply substring_split. lia.
    + simpl. rewrite Nat.sub_0_r, substring_full. apply append_nil_r.
  - simpl. rewrite Nat.sub_0_r, substring_full. apply append_nil_r.
Qed.

(** The suffix of a name that ends with a plain extension and has something
    before it is that extension. *)
Lemma name_suffix_extension (fmt name : string) :
  plain_extension fmt -> endswith fmt name = true -> name <> fmt ->
  name_suffix name = fmt.
Proof.
  intros (c & e & -> & ND) HE NE. apply endswith_decompose in HE.
  destruct HE as [pre ->].
  assert (NP : (0 < String.length pre)%nat).
  { destruct pre; simpl; [exfalso; apply NE; reflexivity|lia]. }
  unfold name_suffix. rewrite rfind_app.
  change (rfind "." (String "." (String c e)))
    with (match rfind "." (String c e) with
          | Some i => Some (S i)
          | None => if Ascii.eqb "." "." then Some O else None
          end).
  rewrite ND. simpl Ascii.eqb. cbv iota. rewrite Nat.add_0_r, length_append.
  replace ((0 <? String.length pre)%nat) with true by (symmetry; apply Nat.ltb_lt; lia).
  replace ((String.length pre <? String.length pre + String.length (String "." (String c e)) - 1)%nat)
    with true by (symmetry; apply Nat.ltb_lt; simpl; lia).
  simpl andb. cbv iota.
  replace (String.length pre + String.length (String "." (String c e)) - String.length pre)%nat
    with (String.length (String "." (String c e))) by lia.
  apply substring_app_skip.
Qed.

Lemma relative_to_app (root rel : Path) : relative_to (List.app root rel) root = Ok rel.
Proof.
  induction root as [|r root IH]; simpl; [destruct rel; reflexivity|].
  rewrite String.eqb_refl. exact IH.
Qed.

Lemma path_name_app (root rel : Path) :
  rel <> [] -> path_name (List.app root rel) = path_name rel.
Proof.
  unfold path_name. intros N. induction root as [|r root IH]; simpl; [reflexivity|].
  destruct (List.app root rel) eqn:E; [|exact IH].
  apply app_eq_nil in E. destruct E; congruence.
Qed.

End Names.

(** X11: every model that discovery returns has a target, so the path
    handling of the batch loop cannot raise on it: its path relative to the
    input directory is the path of the entry found, and its target is that
    relative path under the output directory, with the same directories and
    with the suffix of the file name replaced by [.png] (a name being its
    stem followed by its suffix).  This holds for accepted extensions without
    wildcards or separators of their own, as soon as no entry has an empty
    name. *)
Theorem discovered_models_have_targets
        (fl : Flavour) (tree : list DirEntry) (config : RenderConfig) (m : Path) :
  forallb plain_format (formats config) = true ->
  (forall e, In e tree -> path_name (entry_path e) <> "") ->
  In m (find_models fl tree (input_dir config) (formats config)) ->
  exists rel,
    In rel (map entry_path tree) /\
    m = List.app (input_dir config) rel /\
    relative_to m (input_dir config) = Ok rel /\
    path_name rel = (path_stem rel ++ path_suffix rel)%string /\
    output_file_of config m =
      Ok (rel, List.app (output_dir config)
                        (List.app (path_parent rel) [(path_stem rel ++ ".png")%string])).
Proof.
  intros _ HN HM. unfold find_models in HM.
  apply (Permutation_in _ (sorted_perm fl _)) in HM.
  apply in_flat_map in HM. destruct HM as (fmt & _ & HM).
  apply rglob_In in HM. destruct HM as (e & He & _ & _ & ->).
  exists (entry_path e). split; [apply in_map; exact He|]. split; [reflexivity|].
  split; [apply relative_to_app|]. split.
  - unfold path_stem, path_suffix. symmetry. apply name_split.
  - unfold output_file_of. rewrite relative_to_app. simpl. unfold with_suffix.
    destruct (String.eqb_spec (path_name (entry_path e)) ""); [destruct (HN e He); auto|].
    reflexivity.
Qed.

Lemma discovered_models_have_targets_witness :
  output_file_of (batch_config 4 false 0%Q) ["models"; "props"; "tree.fbx"] =
  Ok (["props"; "tree.fbx"], ["sprites"; "props"; "tree.png"]).
Proof.
  destruct (discovered_models_have_targets PosixFlavour three_models
              (batch_config 4 false 0%Q) ["models"; "props"; "tree.fbx"])
    as (rel & _ & E & _ & _ & T).
  - reflexivity.
  - intros e [<-|[<-|[<-|[]]]]; discriminate.
  - vm_compute. auto 6.
  - simpl in E. inversion E; subst rel. exact T.
Defined.

Section Extensions.

Lemma lower_ascii_dot (c : ascii) : Ascii.eqb (lower_ascii c) "." = Ascii.eqb c ".".
Proof. destruct c as [[] [] [] [] [] [] [] []]; reflexivity. Qed.

Lemma rfind_lower (s : string) : rfind "." (lower s) = rfind "." s.
Proof.
  induction s as [|c s IH]; simpl; [reflexivity|].
  rewrite IH, lower_ascii_dot. reflexivity.
Qed.

Lemma length_lower (s : string) : String.length (lower s) = String.length s.
Proof. induction s as [|c s IH]; simpl; congruence. Qed.

Lemma substring_lower (s : string) :
  forall n m, substring n m (lower s) = lower (substring n m s).
Proof.
  induction s as [|c s IH]; intros [|n] [|m]; simpl; try reflexivity; rewrite ?IH; reflexivity.
Qed.

Lemma name_suffix_lower (s : string) : name_suffix (lower s) = lower (name_suffix s).
Proof.
  unfold name_suffix. rewrite rfind_lower, length_lower.
  destruct (rfind "." s) as [i|]; [|reflexivity].
  destruct ((0 <? i)%nat && (i <? String.length s - 1)%nat); [|reflexivity].
  apply substring_lower.
Qed.

Lemma name_suffix_casefold (fl : Flavour) (s : string) :
  name_suffix (casefold fl s) = casefold fl (name_suffix s).
Proof. destruct fl; simpl; [reflexivity|apply name_suffix_lower]. Qed.

Lemma lower_idempotent (s : string) : lower (lower s) = lower s.
Proof.
  induction s as [|c s IH]; simpl; [reflexivity|]. rewrite IH. f_equal.
  destruct c as [[] [] [] [] [] [] [] []]; reflexivity.
Qed.

Lemma lower_casefold (fl : Flavour) (s : string) : lower (casefold fl s) = lower s.
Proof. destruct fl; simpl; [reflexivity|apply lower_idempotent]. Qed.

Lemma lower_empty (s : string) : lower s = "" -> s = "".
Proof. destruct s; simpl; [reflexivity|discriminate]. Qed.

(** The name of a bare extension has no suffix. *)
Lemma name_suffix_bare (fmt : string) : plain_extension fmt -> name_suffix fmt = "".
Proof.
  intros (c & e & -> & ND). unfold name_suffix.
  change (rfind "." (String "." (String c e)))
    with (match rfind "." (String c e) with
          | Some i => Some (S i)
          | None => if Ascii.eqb "." "." then Some O else None
          end).
  rewrite ND. reflexivity.
Qed.

Lemma import_model_dispatch (env : Env) (w : World) (filepath : Path) (scale : float) :
  import_model env w filepath scale =
  match importer_of (lower (path_suffix filepath)) with
  | Some imp =>
      match engine_import env imp (path_str filepath) scale with
      | Some objs =>
          (set_scene (set_objects (List.app (objects (scene w)) objs) (scene w)) w, true)
      | None => (w, false)
      end
  | None => (w, false)
  end.
Proof.
  unfold import_model, importer_of.
  destruct (String.eqb _ ".gltf" || String.eqb _ ".glb"); [reflexivity|].
  destruct (String.eqb _ ".obj"); [reflexivity|].
  destruct (String.eqb _ ".fbx"); reflexivity.
Qed.

(** The suffix of a model found for plain extensions is, up to the case
    rule of the host, one of these extensions, unless its whole name is one
    of them. *)
Lemma discovered_suffix (fl : Flavour) (tree : list DirEntry) (root : Path)
      (formats : list string) (m : Path) :
  (forall fmt, In fmt formats -> plain_extension (casefold fl fmt)) ->
  In m (find_models fl tree root formats) ->
  exists fmt,
    In fmt formats /\
    (casefold fl (path_name m) <> casefold fl fmt ->
     casefold fl (path_suffix m) = casefold fl fmt) /\
    (casefold fl (path_name m) = casefold fl fmt -> path_suffix m = "").
Proof.
  intros HP HM. unfold find_models in HM.
  apply (Permutation_in _ (sorted_perm fl _)) in HM.
  apply in_flat_map in HM. destruct HM as (fmt & HF & HM).
  apply rglob_In in HM. destruct HM as (e & He & HN & HG & ->).
  exists fmt. split; [exact HF|]. unfold path_suffix.
  rewrite (path_name_app _ _ HN). unfold glob_match in HG. split.
  - intros NE. rewrite <- name_suffix_casefold.
    apply name_suffix_extension; auto.
  - intros EQ. pose proof (name_suffix_bare _ (HP fmt HF)) as B.
    rewrite <- EQ, name_suffix_casefold in B.
    destruct fl; simpl in B; [exact B|apply lower_empty; exact B].
Qed.

End Extensions.

(** X12: with the default formats, on either kind of host, every model that
    discovery returns is handed to an importer of the engine: the
    "Unsupported format" answer of [import_model] cannot occur, and whether
    the import succeeds is up to the engine alone.  The one exception is a
    file whose whole name is an extension, such as [.glb]: discovery returns
    it, but it has no suffix, and [import_model] answers [False] without
    calling the engine or touching the scene. *)
Theorem discovered_models_reach_importer
        (env : Env) (fl : Flavour) (tree : list DirEntry) (root : Path) (m : Path)
        (w : World) (scale : float) :
  In m (find_models fl tree root [".gltf"; ".glb"; ".obj"; ".fbx"]) ->
  (~ In (lower (path_name m)) [".gltf"; ".glb"; ".obj"; ".fbx"] ->
   exists imp,
     importer_of (lower (path_suffix m)) = Some imp /\
     import_model env w m scale =
     match engine_import env imp (path_str m) scale with
     | Some objs =>
         (set_scene (set_objects (List.app (objects (scene w)) objs) (scene w)) w, true)
     | None => (w, false)
     end) /\
  (In (casefold fl (path_name m)) [".gltf"; ".glb"; ".obj"; ".fbx"] ->
   import_model env w m scale = (w, false)).
Proof.
  intros HM.
  destruct (discovered_suffix fl tree root [".gltf"; ".glb"; ".obj"; ".fbx"] m)
    as (fmt & HF & S1 & S2); [|exact HM|].
  { intros fmt HF. simpl in HF.
    destruct HF as [<-|[<-|[<-|[<-|[]]]]]; destruct fl; simpl;
      do 2 eexists; split; reflexivity. }
  assert (CF : casefold fl fmt = fmt /\ lower fmt = fmt).
  { simpl in HF. destruct HF as [<-|[<-|[<-|[<-|[]]]]]; destruct fl; split; reflexivity. }
  destruct CF as [CF LF]. rewrite CF in S1, S2. split.
  - intros NB.
    assert (NE : casefold fl (path_name m) <> fmt).
    { intros EQ. apply NB. rewrite <- (lower_casefold fl), EQ, LF. exact HF. }
    specialize (S1 NE).
    assert (EL : lower (path_suffix m) = fmt).
    { rewrite <- (lower_casefold fl), S1. exact LF. }
    rewrite import_model_dispatch, EL. simpl in HF.
    destruct HF as [<-|[<-|[<-|[<-|[]]]]]; eexists; split; reflexivity.
  - intros HB. rewrite import_model_dispatch.
    assert (ES : path_suffix m = "").
    { unfold path_suffix.
      assert (PB : plain_extension (casefold fl (path_name m))).
      { simpl in HB. destruct HB as [<-|[<-|[<-|[<-|[]]]]]; do 2 eexists; split; reflexivity. }
      apply name_suffix_bare in PB. rewrite name_suffix_casefold in PB.
      destruct fl; simpl in PB; [exact PB|apply lower_empty; exact PB]. }
    rewrite ES. reflexivity.
Qed.

Lemma discovered_models_reach_importer_witness :
  exists imp,
    importer_of (lower (path_suffix ["models"; "A.GLB"])) = Some imp /\
    import_model (studio upper_case_tree []) world0 ["models"; "A.GLB"] 1%Q =
    (set_scene (set_objects [cube] (scene world0)) world0, true).
Proof.
  destruct (discovered_models_reach_importer (studio upper_case_tree []) WindowsFlavour
              upper_case_tree ["models"] ["models"; "A.GLB"] world0 1%Q) as [A _].
  - vm_compute. auto.
  - destruct A as (imp & E1 & E2).
    + vm_compute. intros [H|[H|[H|[H|[]]]]]; discriminate H.
    + exists imp. split; [exact E1|]. rewrite E2. reflexivity.
Defined.

Lemma skip_existing_idempotent_single_witness :
  exists w1 s1 w2 s2,
    process_batch (studio one_model []) (batch_config 1 true 0%Q) world0 =
      Ok (batch_config 1 true 0%Q, w1, Some s1) /\
    process_batch (studio one_model []) (batch_config 1 true 0%Q) w1 =
      Ok (batch_config 1 true 0%Q, w2, Some s2) /\
    processed s2 = 0 /\ skipped s2 = 1 /\ files w2 = files w1.
Proof.
  destruct (process_batch (studio one_model []) (batch_config 1 true 0%Q) world0)
    as [[[c1 w1] [s1|]]|e] eqn:E; try (vm_compute in E; discriminate E).
  assert (EC : c1 = batch_config 1 true 0%Q) by (vm_compute in E; inversion E; reflexivity).
  subst c1.
  destruct (skip_existing_idempotent_single (studio one_model [])
              (batch_config 1 true 0%Q) (batch_config 1 true 0%Q) world0 w1 s1)
    as (w2 & s2 & E2 & P & _ & S & F & _).
  - vm_compute. discriminate.
  - reflexivity.
  - exact E.
  - vm_compute in E. inversion E. reflexivity.
  - exists w1, s1, w2, s2. split; [reflexivity|]. split; [exact E2|].
    split; [exact P|]. split; [exact S|exact F].
Defined.

(* ---------------------------------------------------------------------- *)
(** ** The paths of the four directions *)
(* ---------------------------------------------------------------------- *)

Section RotatedPaths.

Lemma startswith_decompose (old s : string) :
  startswith old s = true <-> exists t, s = (old ++ t)%string.
Proof.
  revert s. induction old as [|c old IH]; intros s; simpl.
  - split; eauto.
  - destruct s as [|d s]; [split; [discriminate|intros [t E]; discriminate]|].
    rewrite andb_true_iff, IH. split.
    + intros [E [t ->]]. apply Ascii.eqb_eq in E. subst d. eauto.
    + intros [t E]. inversion E; subst. split; [apply Ascii.eqb_refl|eauto].
Qed.

Lemma replace_from_skip (old new u t : string) :
  replace_from old new (u ++ t) (String.length u) = replace_from old new t 0.
Proof. induction u as [|c u IH]; simpl; [destruct t; reflexivity|exact IH]. Qed.

(** [replace] at an occurrence: the occurrence is replaced and the scan goes
    on behind it. *)
Lemma replace_at_occurrence (old new t : string) :
  old <> "" ->
  replace old new (old ++ t) = (new ++ replace old new t)%string.
Proof.
  intros N. destruct old as [|c old]; [congruence|]. unfold replace. simpl.
  rewrite Ascii.eqb_refl.
  replace (startswith old (old ++ t)) with true
    by (symmetry; apply startswith_decompose; eauto).
  simpl. rewrite Nat.sub_0_r, replace_from_skip. reflexivity.
Qed.

Lemma replace_no_occurrence_here (old new : string) (c : ascii) (s : string) :
  startswith old (String c s) = false ->
  replace old new (String c s) = String c (replace old new s).
Proof. unfold replace. simpl replace_from. intros ->. reflexivity. Qed.

(** Replacing an occurrence by two texts that cannot begin the same string
    gives two different results. *)
Lemma replace_differs (old n1 n2 s : string) :
  old <> "" -> occurs old s = true ->
  (forall r1 r2, (n1 ++ r1)%string <> (n2 ++ r2)%string) ->
  replace old n1 s <> replace old n2 s.
Proof.
  intros N O C. induction s as [|c s IH].
  - simpl in O. destruct old; [congruence|discriminate].
  - destruct (startswith old (String c s)) eqn:E.
    + apply startswith_decompose in E. destruct E as [t ->].
      rewrite !replace_at_occurrence by assumption. apply C.
    + rewrite !replace_no_occurrence_here by assumption.
      simpl in O. rewrite E in O. simpl in O.
      intros H. inversion H. apply IH; assumption.
Qed.

(** Replacing every occurrence by itself changes nothing. *)
Lemma replace_self (old : string) (n : nat) :
  forall s, (String.length s <= n)%nat -> old <> "" -> replace old old s = s.
Proof.
  induction n as [|n IH]; intros s L N.
  - destruct s; [reflexivity|simpl in L; lia].
  - destruct s as [|c s]; [reflexivity|].
    destruct (startswith old (String c s)) eqn:E.
    + apply startswith_decompose in E. destruct E as [t E]. rewrite E.
      rewrite replace_at_occurrence by assumption. f_equal. apply IH; [|assumption].
      assert (String.length (String c s) = String.length (old ++ t)) by congruence.
      rewrite length_append in H. destruct old; [congruence|]. simpl in *. lia.
    + rewrite replace_no_occurrence_here by assumption. f_equal.
      apply IH; [simpl in L; lia|assumption].
Qed.

Lemma occurs_at_end (old a : string) : occurs old (a ++ old) = true.
Proof.
  induction a as [|c a IH]; simpl.
  - assert (S : startswith old old = true).
    { apply startswith_decompose. exists "". symmetry. apply append_nil_r. }
    destruct old; simpl in *; [reflexivity|rewrite S; reflexivity].
  - rewrite IH. apply orb_true_r.
Qed.

Lemma path_str_last (l : Path) (name : string) :
  exists pre, path_str (List.app l [name]) = (pre ++ name)%string.
Proof.
  induction l as [|a l [pre IH]].
  - exists "". reflexivity.
  - unfold path_str in *. destruct l as [|b l]; simpl in *.
    + exists (a ++ "/")%string. rewrite append_assoc. reflexivity.
    + exists (a ++ "/" ++ pre)%string. rewrite IH, !append_assoc. reflexivity.
Qed.

(** The target of a model ends with [.png]. *)
Lemma target_has_png (config : RenderConfig) (m rel_path output_file : Path) :
  output_file_of config m = Ok (rel_path, output_file) ->
  occurs ".png" (path_str output_file) = true.
Proof.
  unfold output_file_of.
  destruct (relative_to m (input_dir config)) as [rel|e]; simpl; [|discriminate].
  unfold with_suffix. destruct (String.eqb (path_name rel) ""); simpl; [discriminate|].
  intros E; inversion E; subst. rewrite app_assoc.
  destruct (path_str_last (List.app (output_dir config) (path_parent rel_path))
              (substring 0 (String.length (path_name rel_path)
                            - String.length (name_suffix (path_name rel_path)))
                         (path_name rel_path) ++ ".png")) as [pre ->].
  rewrite <- append_assoc. apply occurs_at_end.
Qed.

End RotatedPaths.

(** X13: for every model with a target, the four image paths of the
    rotation loop are pairwise different, and none of them is the target
    itself, the path that the skip-existing test looks for: no direction
    overwrites another, and the four-direction branch never writes the file
    whose existence makes the loop skip the model. *)
Theorem rotated_outputs_distinct (config : RenderConfig) (m rel_path output_file : Path) :
  output_file_of config m = Ok (rel_path, output_file) ->
  NoDup (path_str output_file ::
         map (fun rot : Z * string * string =>
                replace ".png" (snd (fst rot) ++ ".png") (path_str output_file))
             rotations_table).
Proof.
  intros E. apply target_has_png in E.
  assert (D : forall n1 n2,
             (forall r1 r2, (n1 ++ r1)%string <> (n2 ++ r2)%string) ->
             replace ".png" n1 (path_str output_file) <>
             replace ".png" n2 (path_str output_file))
    by (intros n1 n2 C; apply replace_differs; [discriminate|exact E|exact C]).
  assert (S : replace ".png" ".png" (path_str output_file) = path_str output_file)
    by (apply (replace_self ".png" (String.length (path_str output_file)));
        [lia|discriminate]).
  revert E D S. generalize (path_str output_file). intros p E D S.
  rewrite <- S at 1. cbn [map rotations_table fst snd].
  repeat (apply NoDup_cons;
          [ cbn [In]; intros H;
            repeat (destruct H as [H|H];
                    [ revert H; apply D; intros r1 r2 H; simpl in H; discriminate H | ]);
            exact H
          | ]).
  apply NoDup_nil.
Qed.

Lemma rotated_outputs_distinct_witness :
  NoDup [ "sprites/props/tree.png"; "sprites/props/tree_s.png"; "sprites/props/tree_e.png";
          "sprites/props/tree_n.png"; "sprites/props/tree_w.png" ].
Proof.
  apply (rotated_outputs_distinct (batch_config 4 false 0%Q) ["models"; "props"; "tree.fbx"]
                                  ["props"; "tree.fbx"] ["sprites"; "props"; "tree.png"]).
  reflexivity.
Defined.

Section Suffixes.

Lemma startswith_cons (x d : ascii) (rest s : string) :
  startswith (String x rest) (String d s) = Ascii.eqb x d && startswith rest s.
Proof. reflexivity. Qed.

Lemma startswith_png_app (c : ascii) (a t : string) :
  safe_head t = true ->
  startswith ".png" (String c (a ++ t)) = startswith ".png" (String c a).
Proof.
  intros S.
  assert (H : forall x : ascii, In x ["p"; "n"; "g"]%char -> forall rest,
             startswith (String x rest) t = false).
  { intros x X rest. destruct t as [|d t]; [reflexivity|].
    rewrite startswith_cons. destruct (Ascii.eqb_spec x d) as [<-|]; [|reflexivity].
    exfalso. cbn [In] in X. cbn [safe_head] in S.
    destruct X as [<-|[<-|[<-|[]]]]; vm_compute in S; discriminate S. }
  rewrite !startswith_cons. f_equal.
  destruct a as [|c1 a]; cbn [append]; [rewrite H by (cbn; auto); reflexivity|].
  rewrite !startswith_cons. f_equal.
  destruct a as [|c2 a]; cbn [append]; [rewrite H by (cbn; auto); reflexivity|].
  rewrite !startswith_cons. f_equal.
  destruct a as [|c3 a]; cbn [append]; [rewrite H by (cbn; auto); reflexivity|].
  rewrite !startswith_cons. reflexivity.
Qed.

Lemma occurs_app (a t : string) :
  occurs ".png" a = false -> safe_head t = true ->
  occurs ".png" (a ++ t) = occurs ".png" t.
Proof.
  intros O S. induction a as [|c a IH]; [reflexivity|].
  cbn [occurs append] in *. apply orb_false_iff in O. destruct O as [O1 O2].
  rewrite startswith_png_app, O1, IH by assumption. reflexivity.
Qed.

(** Where [.png] does not occur, [replace] copies. *)
Lemma replace_tail (new a t : string) :
  occurs ".png" a = false -> safe_head t = true ->
  replace ".png" new (a ++ t) = (a ++ replace ".png" new t)%string.
Proof.
  intros O S. induction a as [|c a IH]; [reflexivity|].
  cbn [occurs] in O. apply orb_false_iff in O. destruct O as [O1 O2].
  cbn [append]. rewrite replace_no_occurrence_here
    by (rewrite startswith_png_app; assumption).
  rewrite IH by assumption. reflexivity.
Qed.

Lemma replace_final_png (new a : string) :
  occurs ".png" a = false ->
  replace ".png" new (a ++ ".png") = (a ++ new)%string.
Proof.
  intros O. rewrite replace_tail by (assumption || reflexivity).
  f_equal. rewrite <- (append_nil_r ".png") at 2.
  rewrite replace_at_occurrence by discriminate.
  apply append_nil_r.
Qed.

(** Where [.png] does occur, the replacement shows: the result is not the
    string itself followed by something. *)
Lemma replace_moves (new a t t' : string) :
  occurs ".png" a = true -> safe_head t = true ->
  (forall r1 r2, (new ++ r1)%string <> (".png" ++ r2)%string) ->
  replace ".png" new (a ++ t) <> (a ++ t')%string.
Proof.
  intros O S C. induction a as [|c a IH]; [discriminate|].
  destruct (startswith ".png" (String c a)) eqn:E.
  - apply startswith_decompose in E. destruct E as [u E]. rewrite E.
    rewrite !append_assoc, replace_at_occurrence by discriminate. apply C.
  - cbn [occurs] in O. rewrite E in O. cbn [orb] in O.
    cbn [append]. rewrite replace_no_occurrence_here
      by (rewrite startswith_png_app; assumption).
    intros H. inversion H. apply IH; assumption.
Qed.

Lemma path_str_prefix (l : Path) :
  exists pre, forall name, path_str (List.app l [name]) = (pre ++ name)%string.
Proof.
  induction l as [|a l [pre IH]].
  - exists "". reflexivity.
  - unfold path_str in *. destruct l as [|b l]; simpl in *.
    + exists (a ++ "/")%string. intros name. rewrite append_assoc. reflexivity.
    + exists (a ++ "/" ++ pre)%string. intros name. rewrite IH, !append_assoc. reflexivity.
Qed.

Lemma target_base_png (config : RenderConfig) (m rel_path output_file : Path) :
  output_file_of config m = Ok (rel_path, output_file) ->
  path_str output_file = (target_base config rel_path ++ ".png")%string.
Proof.
  unfold output_file_of, target_base, path_stem, path_suffix.
  destruct (relative_to m (input_dir config)) as [rel|e]; simpl; [|discriminate].
  unfold with_suffix. destruct (String.eqb (path_name rel) ""); simpl; [discriminate|].
  intros E; inversion E; subst. rewrite !app_assoc.
  destruct (path_str_prefix (List.app (output_dir config) (path_parent rel_path)))
    as [pre P].
  rewrite !P, append_assoc. reflexivity.
Qed.

End Suffixes.

(** X14: the image path of a direction and the sidecar path are made by
    [str.replace] over the whole target path.  For a model with a target,
    written as base + [.png]: the sidecar of the single render is
    base + [.json], and the image of a direction is base + suffix + [.png],
    exactly when [.png] occurs nowhere in the base (neither in the output
    directory nor in the folders or the stem of the model); in that case
    the sidecar of the direction is base + suffix + [.json].  Otherwise the
    files are written under other names than these. *)
Theorem output_names_follow_target (config : RenderConfig) (m rel_path output_file : Path) :
  output_file_of config m = Ok (rel_path, output_file) ->
  let base := target_base config rel_path in
  path_str output_file = (base ++ ".png")%string /\
  (replace ".png" ".json" (path_str output_file) = (base ++ ".json")%string
   <-> occurs ".png" base = false) /\
  Forall (fun rot : Z * string * string =>
            let suffix := snd (fst rot) in
            let output_file_rotated :=
              replace ".png" (suffix ++ ".png") (path_str output_file) in
            (output_file_rotated = (base ++ suffix ++ ".png")%string
             <-> occurs ".png" base = false) /\
            (occurs ".png" base = false ->
             replace ".png" ".json" output_file_rotated = (base ++ suffix ++ ".json")%string))
         rotations_table.
Proof.
  intros E base. pose proof (target_base_png _ _ _ _ E) as P. fold base in P.
  rewrite P. clearbody base. clear E P.
  assert (M : forall new t',
             (forall r1 r2, (new ++ r1)%string <> (".png" ++ r2)%string) ->
             replace ".png" new (base ++ ".png") = (base ++ t')%string ->
             occurs ".png" base = false).
  { intros new t' C H. destruct (occurs ".png" base) eqn:O; [|reflexivity].
    exfalso. revert H. apply replace_moves; [exact O|reflexivity|exact C]. }
  split; [reflexivity|]. split.
  - split; [|apply replace_final_png].
    apply M. intros r1 r2 H. simpl in H. discriminate H.
  - unfold rotations_table.
    repeat (apply Forall_cons;
            [ cbn [fst snd]; split;
              [ split; [|apply replace_final_png];
                apply M; intros r1 r2 H; simpl in H; discriminate H
              | intros O; rewrite replace_final_png by exact O;
                rewrite <- append_assoc, replace_final_png, append_assoc;
                [ reflexivity | rewrite occurs_app; [reflexivity|exact O|reflexivity] ] ]
            | ]).
    apply Forall_nil.
Qed.

Lemma output_names_follow_target_witness :
  path_str ["sprites"; "props"; "tree.png"] = "sprites/props/tree.png" /\
  (replace ".png" ".json" "sprites/props/tree.png" = "sprites/props/tree.json"
   <-> occurs ".png" "sprites/props/tree" = false) /\
  Forall (fun rot : Z * string * string =>
            (replace ".png" (snd (fst rot) ++ ".png") "sprites/props/tree.png"
             = ("sprites/props/tree" ++ snd (fst rot) ++ ".png")%string
             <-> occurs ".png" "sprites/props/tree" = false) /\
            (occurs ".png" "sprites/props/tree" = false ->
             replace ".png" ".json"
                     (replace ".png" (snd (fst rot) ++ ".png") "sprites/props/tree.png")
             = ("sprites/props/tree" ++ snd (fst rot) ++ ".json")%string))
         rotations_table.
Proof.
  apply (output_names_follow_target (batch_config 4 false 0%Q) ["models"; "props"; "tree.fbx"]
                                    ["props"; "tree.fbx"] ["sprites"; "props"; "tree.png"]).
  reflexivity.
Defined.

(* ---------------------------------------------------------------------- *)
(** ** The size inspector *)
(* ---------------------------------------------------------------------- *)

Section InspectorFacts.

Variable Path_of : string -> Path.
Variable env : Env.

(** What a model that the inspector measures went through *)
Lemma inspect_model_some (w w' : World) (filepath : string) (r : Inspector.Sizes) :
  Inspector.inspect_model Path_of env w filepath = (w', Some r) ->
  exists imp objs,
    importer_of (lower (path_suffix (Path_of filepath))) = Some imp /\
    engine_import env imp filepath 1%Q = Some objs /\
    objects (scene w') = objs /\
    fst (scan_scene objs) <> 0 /\
    r = Inspector.mkSizes
          (path_name (Path_of filepath))
          (fin (max_x (snd (scan_scene objs))) - fin (min_x (snd (scan_scene objs))))%Q
          (fin (max_y (snd (scan_scene objs))) - fin (min_y (snd (scan_scene objs))))%Q
          (fin (max_z (snd (scan_scene objs))) - fin (min_z (snd (scan_scene objs))))%Q
          (Inspector.py_max3
             (fin (max_x (snd (scan_scene objs))) - fin (min_x (snd (scan_scene objs))))%Q
             (fin (max_y (snd (scan_scene objs))) - fin (min_y (snd (scan_scene objs))))%Q
             (fin (max_z (snd (scan_scene objs))) - fin (min_z (snd (scan_scene objs))))%Q).
Proof.
  unfold Inspector.inspect_model, importer_of.
  assert (M : forall imp,
    match engine_import env imp filepath 1%Q with
    | None => (Inspector.clear_scene w, None)
    | Some objs =>
        let w0 := set_scene (set_objects (List.app (objects (scene (Inspector.clear_scene w))) objs)
                                         (scene (Inspector.clear_scene w)))
                            (Inspector.clear_scene w) in
        let '(mesh_count, acc) := scan_scene (objects (scene w0)) in
        if mesh_count =? 0 then (w0, None)
        else (w0, Some (Inspector.mkSizes (path_name (Path_of filepath))
                          (fin (max_x acc) - fin (min_x acc))%Q
                          (fin (max_y acc) - fin (min_y acc))%Q
                          (fin (max_z acc) - fin (min_z acc))%Q
                          (Inspector.py_max3 (fin (max_x acc) - fin (min_x acc))%Q
                                             (fin (max_y acc) - fin (min_y acc))%Q
                                             (fin (max_z acc) - fin (min_z acc))%Q)))
    end = (w', Some r) ->
    exists objs,
      engine_import env imp filepath 1%Q = Some objs /\
      objects (scene w') = objs /\
      fst (scan_scene objs) <> 0 /\
      r = Inspector.mkSizes
            (path_name (Path_of filepath))
            (fin (max_x (snd (scan_scene objs))) - fin (min_x (snd (scan_scene objs))))%Q
            (fin (max_y (snd (scan_scene objs))) - fin (min_y (snd (scan_scene objs))))%Q
            (fin (max_z (snd (scan_scene objs))) - fin (min_z (snd (scan_scene objs))))%Q
            (Inspector.py_max3
               (fin (max_x (snd (scan_scene objs))) - fin (min_x (snd (scan_scene objs))))%Q
               (fin (max_y (snd (scan_scene objs))) - fin (min_y (snd (scan_scene objs))))%Q
               (fin (max_z (snd (scan_scene objs))) - fin (min_z (snd (scan_scene objs))))%Q)).
  { intros imp. destruct (engine_import env imp filepath 1%Q) as [objs|]; [|discriminate].
    cbn [Inspector.clear_scene set_scene set_objects scene objects List.app].
    destruct (scan_scene objs) as [n acc] eqn:S. cbn [fst snd].
    destruct (Z.eqb_spec n 0); [discriminate|].
    intros E. inversion E; subst. exists objs. rewrite S.
    cbn [scene objects set_scene set_objects fst snd]. repeat split; auto. }
  destruct (String.eqb _ ".gltf" || String.eqb _ ".glb");
    [intros E; exists GLTF; destruct (M _ E) as (objs & ?); exists objs; auto|].
  destruct (String.eqb _ ".obj");
    [intros E; exists OBJ; destruct (M _ E) as (objs & ?); exists objs; auto|].
  destruct (String.eqb _ ".fbx");
    [intros E; exists FBX; destruct (M _ E) as (objs & ?); exists objs; auto|].
  discriminate.
Qed.

Lemma py_max3_bounds (a b c : Q) :
  (a <= Inspector.py_max3 a b c)%Q /\ (b <= Inspector.py_max3 a b c)%Q /\
  (c <= Inspector.py_max3 a b c)%Q /\
  (Inspector.py_max3 a b c = a \/ Inspector.py_max3 a b c = b \/
   Inspector.py_max3 a b c = c).
Proof.
  unfold Inspector.py_max3.
  destruct (Qltb a b) eqn:E1; [apply Qltb_true in E1|apply Qltb_false in E1];
    match goal with
    | |- context [Qltb ?m c] =>
        destruct (Qltb m c) eqn:E2; [apply Qltb_true in E2|apply Qltb_false in E2]
    end;
    repeat split; auto; Lqa.lra.
Qed.

(** The extents of a measured model, by the corners of its meshes *)
Lemma measured_extents (objs : list Object) :
  fst (scan_scene objs) <> 0 ->
  forall f : Vec3 -> Q,
  forall lo_of hi_of : BoundsAcc -> option Q,
  (forall cs acc, lo_of (fold_left acc_corner cs acc) = fold_left py_min (map f cs) (lo_of acc)) ->
  (forall cs acc, hi_of (fold_left acc_corner cs acc) = fold_left py_max (map f cs) (hi_of acc)) ->
  lo_of (mkAcc None None None None None None) = None ->
  hi_of (mkAcc None None None None None None) = None ->
  let extent := (fin (hi_of (snd (scan_scene objs))) - fin (lo_of (snd (scan_scene objs))))%Q in
  (forall u v, In u (mesh_corners objs) -> In v (mesh_corners objs) -> (f u - f v <= extent)%Q) /\
  (exists u v, In u (mesh_corners objs) /\ In v (mesh_corners objs) /\ (f u - f v)%Q = extent).
Proof.
  intros Hm f lo_of hi_of L H L0 H0 extent. subst extent.
  assert (N : mesh_corners objs <> []).
  { apply (mesh_corners_nonempty (set_objects objs empty_scene)). exact Hm. }
  rewrite scan_scene_corners, L, H, L0, H0.
  destruct (axis_bounds f _ N) as (lo & hi & -> & -> & B & (v & Iv & Ev) & (u & Iu & Eu)).
  cbn [fin]. split.
  - intros u' v' Hu Hv. destruct (B u' Hu), (B v' Hv). Lqa.lra.
  - exists u, v. subst. auto.
Qed.

Lemma fold_acc_axes (cs : list Vec3) (acc : BoundsAcc) :
  min_x (fold_left acc_corner cs acc) = fold_left py_min (map vx cs) (min_x acc) /\
  max_x (fold_left acc_corner cs acc) = fold_left py_max (map vx cs) (max_x acc) /\
  min_y (fold_left acc_corner cs acc) = fold_left py_min (map vy cs) (min_y acc) /\
  max_y (fold_left acc_corner cs acc) = fold_left py_max (map vy cs) (max_y acc) /\
  min_z (fold_left acc_corner cs acc) = fold_left py_min (map vz cs) (min_z acc) /\
  max_z (fold_left acc_corner cs acc) = fold_left py_max (map vz cs) (max_z acc).
Proof. rewrite fold_acc_corner. cbn. repeat split; reflexivity. Qed.

End InspectorFacts.

Section InspectorSummary.

Variable Path_of : string -> Path.
Variable env : Env.

(** The sizes of a measured model are not negative, and [max] is the
    largest of them. *)
Lemma inspect_model_sound (w w' : World) (filepath : string) (r : Inspector.Sizes) :
  Inspector.inspect_model Path_of env w filepath = (w', Some r) ->
  (0 <= Inspector.width r)%Q /\ (0 <= Inspector.height r)%Q /\
  (0 <= Inspector.depth r)%Q /\
  Inspector.max r =
    Inspector.py_max3 (Inspector.width r) (Inspector.height r) (Inspector.depth r).
Proof.
  intros E. destruct (inspect_model_some _ _ _ _ _ _ E) as (imp & objs & _ & _ & _ & Hm & ->).
  cbn [Inspector.width Inspector.height Inspector.depth Inspector.max].
  assert (N : exists c, In c (mesh_corners objs)).
  { pose proof (mesh_corners_nonempty (set_objects objs empty_scene) Hm) as N.
    cbn [objects set_objects] in N.
    destruct (mesh_corners objs) as [|c l]; [congruence|]. exists c. left. reflexivity. }
  destruct N as [c Hc].
  destruct (measured_extents objs Hm vx min_x max_x) as [Bx _];
    try (intros; apply fold_acc_axes); try reflexivity.
  destruct (measured_extents objs Hm vy min_y max_y) as [By _];
    try (intros; apply fold_acc_axes); try reflexivity.
  destruct (measured_extents objs Hm vz min_z max_z) as [Bz _];
    try (intros; apply fold_acc_axes); try reflexivity.
  pose proof (Bx c c Hc Hc). pose proof (By c c Hc Hc). pose proof (Bz c c Hc Hc).
  repeat split; try reflexivity; Lqa.lra.
Qed.

Lemma inspect_next_sound (P : Inspector.Sizes -> Prop) (paths : list string) :
  (forall w w' filepath r,
     Inspector.inspect_model Path_of env w filepath = (w', Some r) -> P r) ->
  forall st, Forall P (snd st) ->
  Forall P (snd (fold_left (Inspector.inspect_next Path_of env) paths st)).
Proof.
  intros HP. induction paths as [|p paths IH]; intros st F; [exact F|].
  cbn [fold_left]. apply IH. unfold Inspector.inspect_next.
  destruct (Inspector.inspect_model Path_of env (fst st) p) as [w' [r|]] eqn:E;
    cbn [snd]; [|exact F].
  apply Forall_app. split; [exact F|]. constructor; [eapply HP; exact E|constructor].
Qed.

Lemma sum_from_zero (l : list Q) :
  Forall (fun x => 0 <= x)%Q l ->
  forall a, (0 <= a)%Q ->
  (fold_left Qplus l a == 0)%Q <-> (a == 0)%Q /\ Forall (fun x => x == 0)%Q l.
Proof.
  induction 1 as [|x l Hx Hl IH]; intros a Ha; cbn [fold_left].
  - split; [intros H; split; [exact H|constructor]|intros [H _]; exact H].
  - rewrite IH by Lqa.lra. split.
    + intros [H F]. split; [Lqa.lra|]. constructor; [Lqa.lra|exact F].
    + intros [H F]. inversion F; subst. split; [Lqa.lra|assumption].
Qed.

Lemma max_zero_flat (r : Inspector.Sizes) :
  (0 <= Inspector.width r)%Q /\ (0 <= Inspector.height r)%Q /\
  (0 <= Inspector.depth r)%Q /\
  Inspector.max r =
    Inspector.py_max3 (Inspector.width r) (Inspector.height r) (Inspector.depth r) ->
  (Inspector.max r == 0)%Q <-> flat r.
Proof.
  intros (W & H & D & ->). unfold flat.
  destruct (py_max3_bounds (Inspector.width r) (Inspector.height r) (Inspector.depth r))
    as (M1 & M2 & M3 & M4).
  split.
  - intros Z. repeat split; Lqa.lra.
  - intros (Zw & Zh & Zd). destruct M4 as [->|[->| ->]]; assumption.
Qed.

Lemma average_zero (s : Q) (n : nat) :
  (0 < n)%nat -> (s / inject_Z (Z.of_nat n) == 0)%Q <-> (s == 0)%Q.
Proof.
  intros Hn.
  assert (P : (0 < inject_Z (Z.of_nat n))%Q).
  { change 0%Q with (inject_Z 0). rewrite <- Zlt_Qlt. lia. }
  split.
  - intros H. rewrite <- (Qmult_div_r s (inject_Z (Z.of_nat n))) by Lqa.lra.
    rewrite H. ring.
  - intros ->. unfold Qdiv. ring.
Qed.

End InspectorSummary.

(** X16: the summary of the inspector divides by the average of the largest
    sizes.  [main] ends with ZeroDivisionError exactly when model paths were
    given behind [--], at least one of them could be measured, and every
    measured model is flat in all three directions (the corners of its
    meshes are one point); in every other case it returns. *)
Theorem summary_divides_by_average
        (Path_of : string -> Path) (env : Env) (w : World) (argv : list string) :
  snd (Inspector.main Path_of env w argv) = Inspector.ZeroDivisionError <->
  exists paths,
    Inspector.after_dashes argv = Some paths /\
    measured Path_of env w paths <> [] /\
    Forall flat (measured Path_of env w paths).
Proof.
  unfold Inspector.main, measured.
  destruct (Inspector.after_dashes argv) as [[|p paths]|].
  - split; [discriminate|]. intros (ps & E & N & _). inversion E; subst.
    cbn in N. congruence.
  - assert (S := inspect_next_sound Path_of env _ (p :: paths)
                   (inspect_model_sound Path_of env) (w, []) (Forall_nil _)).
    destruct (fold_left (Inspector.inspect_next Path_of env) (p :: paths) (w, []))
      as [w1 results] eqn:F.
    cbn [snd] in S.
    assert (G : forall ps, Some (p :: paths) = Some ps ->
                snd (fold_left (Inspector.inspect_next Path_of env) ps (w, [])) = results)
      by (intros ps E; inversion E; subst; rewrite F; reflexivity).
    destruct results as [|r rs].
    + split; [discriminate|]. intros (ps & E & N & _). rewrite (G _ E) in N. congruence.
    + assert (A : (Inspector.sum (map Inspector.max (r :: rs))
                   / inject_Z (Z.of_nat (List.length (r :: rs))) == 0)%Q
                  <-> Forall flat (r :: rs)).
      { rewrite average_zero by (cbn; lia). unfold Inspector.sum.
        rewrite sum_from_zero; [| |Lqa.lra].
        - split.
          + intros [_ Z]. rewrite Forall_map in Z.
            rewrite Forall_forall in *. intros x Hx.
            apply max_zero_flat; [apply S; exact Hx|apply Z; exact Hx].
          + intros Z. split; [reflexivity|]. rewrite Forall_map.
            rewrite Forall_forall in *. intros x Hx.
            apply max_zero_flat; [apply S; exact Hx|apply Z; exact Hx].
        - rewrite Forall_map. rewrite Forall_forall in *. intros x Hx.
          destruct (S x Hx) as (W & H & D & ->).
          destruct (py_max3_bounds (Inspector.width x) (Inspector.height x)
                                   (Inspector.depth x)) as (M1 & _).
          Lqa.lra. }
      destruct (Qeq_bool _ 0) eqn:Q; cbn [snd].
      * apply Qeq_bool_iff in Q. split; [|reflexivity]. intros _.
        exists (p :: paths). rewrite (G _ eq_refl).
        split; [reflexivity|]. split; [discriminate|]. apply A. exact Q.
      * split; [discriminate|]. intros (ps & E & _ & Z). rewrite (G _ E) in Z.
        apply A in Z. apply Qeq_bool_iff in Z. congruence.
  - split; [discriminate|]. intros (ps & E & _). discriminate E.
Qed.

Example summary_of_a_speck :
  snd (Inspector.main bare_name (workshop [speck]) world0
                      ["blender"; "--background"; "--"; "speck.glb"])
  = Inspector.ZeroDivisionError /\
  snd (Inspector.main bare_name (workshop [cube]) world0
                      ["blender"; "--background"; "--"; "barrel.glb"; "notes.txt"])
  = Inspector.Returned (Inspector.Banner (Some
      (Inspector.mkSummary [("barrel.glb", 2%Q)] (2 / 1)%Q (1 / (2 / 1))%Q (2 / (2 / 1))%Q))).
Proof. split; reflexivity. Qed.

Section InspectorAndRenderer.

Lemma scan_scene_residue (old objs : list Object) :
  (forall o, In o old -> is_mesh o = false) ->
  scan_scene (List.app old objs) = scan_scene objs.
Proof.
  intros H. rewrite <- (scan_scene_filter (List.app old objs)), <- (scan_scene_filter objs).
  f_equal. rewrite filter_app.
  replace (filter is_mesh old) with (@nil Object); [reflexivity|].
  symmetry. induction old as [|o old IH]; [reflexivity|].
  cbn [filter]. rewrite (H o) by (left; reflexivity).
  apply IH. intros o' Ho'. apply H. right. exact Ho'.
Qed.

End InspectorAndRenderer.

(** X17: the inspector and the renderer measure alike.  When a model is
    imported without scaling (scale factor 1.0) into a scene that holds no
    mesh and the framing records its bounds, the inspector, run on the same
    path from any scene, reports that width, height and depth. *)
Theorem inspector_agrees_with_renderer
        (Path_of : string -> Path) (env : Env) (w w0 w1 : World) (m : Path)
        (config : RenderConfig) (sc : Scene) (size : Z) (md : dict) :
  Path_of (path_str m) = m ->
  mesh_count (scene w) = 0 ->
  import_model env w m 1%Q = (w1, true) ->
  mesh_count (scene w1) <> 0 ->
  calculate_canvas_and_position (scene w1) config = Ok (sc, (size, md)) ->
  exists w2 r center,
    Inspector.inspect_model Path_of env w0 (path_str m) = (w2, Some r) /\
    Inspector.file r = path_name m /\
    dict_get "object_bounds" md =
      Some (JObj [ ("width", JFloat (Inspector.width r));
                   ("height", JFloat (Inspector.height r));
                   ("depth", JFloat (Inspector.depth r));
                   ("center", center) ]).
Proof.
  intros HP Hw Hi Hm Hc.
  destruct (calc_mesh_result _ _ _ _ _ Hm Hc) as [_ ->].
  rewrite import_model_dispatch in Hi.
  unfold Inspector.inspect_model. rewrite HP.
  unfold importer_of in Hi.
  assert (R : forall objs,
             scan_scene (List.app (objects (scene w)) objs) = scan_scene objs).
  { intros objs. apply scan_scene_residue. apply mesh_count_zero. exact Hw. }
  assert (M : forall imp,
    match engine_import env imp (path_str m) 1%Q with
    | Some objs =>
        (set_scene (set_objects (List.app (objects (scene w)) objs) (scene w)) w, true)
    | None => (w, false)
    end = (w1, true) ->
    exists w2 r center,
      match engine_import env imp (path_str m) 1%Q with
      | None => (Inspector.clear_scene w0, None)
      | Some objs =>
          let w' := set_scene (set_objects
                                 (List.app (objects (scene (Inspector.clear_scene w0))) objs)
                                 (scene (Inspector.clear_scene w0)))
                              (Inspector.clear_scene w0) in
          let '(mesh_count, acc) := scan_scene (objects (scene w')) in
          if mesh_count =? 0 then (w', None)
          else (w', Some (Inspector.mkSizes (path_name m)
                            (fin (max_x acc) - fin (min_x acc))%Q
                            (fin (max_y acc) - fin (min_y acc))%Q
                            (fin (max_z acc) - fin (min_z acc))%Q
                            (Inspector.py_max3 (fin (max_x acc) - fin (min_x acc))%Q
                                               (fin (max_y acc) - fin (min_y acc))%Q
                                               (fin (max_z acc) - fin (min_z acc))%Q)))
      end = (w2, Some r) /\
      Inspector.file r = path_name m /\
      dict_get "object_bounds"
        [ ("canvas_width", JInt size);
          ("canvas_height", JInt size);
          ("ortho_scale", JFloat (ortho_scale config));
          ("pixels_per_unit", JFloat (pixels_per_unit config));
          ("object_bounds",
           JObj [ ("width", JFloat (fin (max_x (snd (scan_scene (objects (scene w1)))))
                                    - fin (min_x (snd (scan_scene (objects (scene w1))))))%Q);
                  ("height", JFloat (fin (max_y (snd (scan_scene (objects (scene w1)))))
                                     - fin (min_y (snd (scan_scene (objects (scene w1))))))%Q);
                  ("depth", JFloat (fin (max_z (snd (scan_scene (objects (scene w1)))))
                                    - fin (min_z (snd (scan_scene (objects (scene w1))))))%Q);
                  ("center", JObj [ ("x", JFloat (vx (bounds_center (scene w1))));
                                    ("y", JFloat (vy (bounds_center (scene w1))));
                                    ("z", JFloat (vz (bounds_center (scene w1)))) ]) ]) ] =
        Some (JObj [ ("width", JFloat (Inspector.width r));
                     ("height", JFloat (Inspector.height r));
                     ("depth", JFloat (Inspector.depth r));
                     ("center", center) ])).
  { intros imp. destruct (engine_import env imp (path_str m) 1%Q) as [objs|];
      [|discriminate].
    intros E. inversion E; subst w1. clear E.
    unfold mesh_count in Hm.
    cbn [Inspector.clear_scene set_scene set_objects scene objects List.app] in *.
    rewrite R in *.
    destruct (scan_scene objs) as [n acc]. cbn [fst snd] in *.
    destruct (Z.eqb_spec n 0); [contradiction|].
    do 3 eexists. split; [reflexivity|]. split; [reflexivity|]. reflexivity. }
  destruct (String.eqb _ ".gltf" || String.eqb _ ".glb"); [exact (M _ Hi)|].
  destruct (String.eqb _ ".obj"); [exact (M _ Hi)|].
  destruct (String.eqb _ ".fbx"); [exact (M _ Hi)|].
  discriminate.
Qed.

Lemma inspector_agrees_with_renderer_witness :
  exists w2 r center,
    Inspector.inspect_model bare_name (workshop [cube]) world0 "barrel.glb" = (w2, Some r) /\
    Inspector.file r = "barrel.glb" /\
    dict_get "object_bounds"
             (match calculate_canvas_and_position cube_scene (batch_config 1 false 0%Q) with
              | Ok (_, (_, md)) => md
              | Raise _ => []
              end) =
      Some (JObj [ ("width", JFloat (Inspector.width r));
                   ("height", JFloat (Inspector.height r));
                   ("depth", JFloat (Inspector.depth r));
                   ("center", center) ]).
Proof.
  destruct (calculate_canvas_and_position cube_scene (batch_config 1 false 0%Q))
    as [[sc [size md]]|e] eqn:E.
  - apply (inspector_agrees_with_renderer
             bare_name (workshop [cube]) world0 world0
             (set_scene cube_scene world0) ["barrel.glb"]
             (batch_config 1 false 0%Q) sc size md).
    + reflexivity.
    + reflexivity.
    + reflexivity.
    + vm_compute. discriminate.
    + exact E.
  - vm_compute in E. discriminate E.
Defined.

(* ---------------------------------------------------------------------- *)
(** ** What a run leaves on disk *)
(* ---------------------------------------------------------------------- *)

(** X18: a batch run removes nothing: every path that exists before a run
    that completes exists after it, whatever was skipped, failed to import or
    failed to render, and a run that finds no model returns at once, without
    counters and without touching the scene or the disk. *)
Theorem batch_keeps_existing_files
        (env : Env) (config config' : RenderConfig) (w w' : World) (result : option Stats) :
  process_batch env config w = Ok (config', w', result) ->
  (forall p, file_exists w p = true -> file_exists w' p = true) /\
  (find_models (flavour env) (input_tree env) (input_dir config) (formats config) = [] <->
   result = None) /\
  (result = None -> w' = w).
Proof.
  intros E.
  destruct (process_batch_inv env _ _ _ _ _ E)
    as [(EM & _ & -> & ->)|(m & models & sc & st & EM & _ & EL & _ & -> & ->)];
    rewrite EM.
  - repeat split; auto.
  - destruct (batch_loop_spec env _ _ _ EL) as (calls & _ & _ & G & _).
    split; [|split; [split; discriminate|discriminate]].
    intros p Hp. apply G. exact Hp.
Qed.

Lemma batch_keeps_existing_files_witness :
  exists w',
    process_batch (studio one_model ["sprites/barrel.png"]) (batch_config 1 false 0%Q)
                  (write_file "sprites/old.png" (PngFile false) world0)
      = Ok (batch_config 1 false 0%Q, w', Some (mkStats 0 0 1 ["barrel.glb"])) /\
    file_exists w' "sprites/old.png" = true.
Proof.
  destruct (process_batch (studio one_model ["sprites/barrel.png"]) (batch_config 1 false 0%Q)
                          (write_file "sprites/old.png" (PngFile false) world0))
    as [[[c' w'] r]|e] eqn:E.
  - destruct (batch_keeps_existing_files _ _ _ _ _ _ E) as (K & _).
    exists w'. split.
    + vm_compute in E. inversion E; subst. reflexivity.
    + apply K. reflexivity.
  - vm_compute in E. discriminate E.
Defined.
